(** * beads: configuration resolution and legacy prefix migration

    A shallow embedding of [internal/config/config.go] (the viper-backed
    configuration singleton, [GetIssuePrefix], [SetIssuePrefix]) and of
    [MigrateConfigToYAML] from the sqlite storage package, together with the
    properties the specification states about them.

    Go strings are byte strings; they are modelled by [string], one [ascii]
    per byte.  Go's [error] results are [option error] ([None] is [nil]). *)

From Stdlib Require Import NArith ZArith Ascii String List Lia Bool.
From Stdlib Require SpecFloat.
From stdpp Require Import base option list strings pretty gmap fin_maps.

Local Open Scope N_scope.

(** ** Bytes *)

(** Go's [byte(x)] conversion of an integer: the low eight bits. *)
Definition byte (n : N) : ascii := ascii_of_N (n mod 256).

Definition nl : ascii := "010"%char.
Definition dquote : ascii := "034"%char.
Definition backslash : ascii := "\"%char.

(** ** Package unicode/utf8 *)
Module Utf8.

Definition RuneError : N := 0xFFFD.
Definition MaxRune : N := 0x10FFFF.
Definition RuneSelf : N := 0x80.

(** Continuation bytes lie in [locb, hicb]. *)
Definition locb : N := 0x80.
Definition hicb : N := 0xBF.

(** [acceptRanges] indexed through [first]: the range allowed for the
    second byte after lead byte [b0]. *)
Definition acceptRange (b0 : N) : N * N :=
  if b0 =? 0xE0 then (0xA0, hicb)
  else if b0 =? 0xED then (locb, 0x9F)
  else if b0 =? 0xF0 then (0x90, hicb)
  else if b0 =? 0xF4 then (locb, 0x8F)
  else (locb, hicb).

Definition isCont (b : N) : bool := (locb <=? b) && (b <=? hicb).

(** [utf8.DecodeRuneInString]: the rune at the front of [s] and its width
    in bytes; an invalid encoding is [(RuneError, 1)]. *)
Definition DecodeRuneInString (s : string) : N * nat :=
  match s with
  | EmptyString => (RuneError, 0%nat)
  | String c0 t0 =>
    let s0 := N_of_ascii c0 in
    if s0 <? RuneSelf then (s0, 1%nat)
    else if (s0 <? 0xC2) || (0xF4 <? s0) then (RuneError, 1%nat)
    else
      match t0 with
      | EmptyString => (RuneError, 1%nat)
      | String c1 t1 =>
        let s1 := N_of_ascii c1 in
        let '(lo, hi) := acceptRange s0 in
        if (s1 <? lo) || (hi <? s1) then (RuneError, 1%nat)
        else if s0 <? 0xE0 then
          (N.lor (N.shiftl (N.land s0 0x1F) 6) (N.land s1 0x3F), 2%nat)
        else
          match t1 with
          | EmptyString => (RuneError, 1%nat)
          | String c2 t2 =>
            let s2 := N_of_ascii c2 in
            if negb (isCont s2) then (RuneError, 1%nat)
            else if s0 <? 0xF0 then
              (N.lor (N.shiftl (N.land s0 0x0F) 12)
                 (N.lor (N.shiftl (N.land s1 0x3F) 6) (N.land s2 0x3F)),
               3%nat)
            else
              match t2 with
              | EmptyString => (RuneError, 1%nat)
              | String c3 _ =>
                let s3 := N_of_ascii c3 in
                if negb (isCont s3) then (RuneError, 1%nat)
                else
                  (N.lor (N.shiftl (N.land s0 0x07) 18)
                     (N.lor (N.shiftl (N.land s1 0x3F) 12)
                        (N.lor (N.shiftl (N.land s2 0x3F) 6)
                           (N.land s3 0x3F))),
                   4%nat)
              end
          end
      end
  end.

Definition ValidRune (r : N) : bool :=
  (r <? 0xD800) || ((0xDFFF <? r) && (r <=? MaxRune)).

(** Bytes of a three-byte encoding. *)
Definition encode3 (r : N) : string :=
  String (byte (N.lor 0xE0 (N.shiftr r 12)))
    (String (byte (N.lor 0x80 (N.land (N.shiftr r 6) 0x3F)))
       (String (byte (N.lor 0x80 (N.land r 0x3F))) EmptyString)).

(** [utf8.AppendRune] onto the empty buffer. *)
Definition AppendRune (r : N) : string :=
  if r <=? 0x7F then String (byte r) EmptyString
  else if r <=? 0x7FF then
    String (byte (N.lor 0xC0 (N.shiftr r 6)))
      (String (byte (N.lor 0x80 (N.land r 0x3F))) EmptyString)
  else if negb (ValidRune r) then encode3 RuneError
  else if r <=? 0xFFFF then encode3 r
  else
    String (byte (N.lor 0xF0 (N.shiftr r 18)))
      (String (byte (N.lor 0x80 (N.land (N.shiftr r 12) 0x3F)))
         (String (byte (N.lor 0x80 (N.land (N.shiftr r 6) 0x3F)))
            (String (byte (N.lor 0x80 (N.land r 0x3F))) EmptyString))).

End Utf8.

(** ** Package strconv *)
Module Strconv.

Definition ParseBool (str : string) : option bool :=
  if bool_decide (str ∈ ["1"; "t"; "T"; "TRUE"; "true"; "True"]) then Some true
  else if bool_decide (str ∈ ["0"; "f"; "F"; "FALSE"; "false"; "False"])
       then Some false
  else None.

Definition lowerhex (n : N) : ascii :=
  nth (N.to_nat n)
    (list_ascii_of_string "0123456789abcdef") "0"%char.

(** Hexadecimal digits of [r], [digits] of them, most significant first:
    the loops [for s := 12; s >= 0; s -= 4] and [for s := 28; ...]. *)
Fixpoint hexDigits (digits : nat) (r : N) : string :=
  match digits with
  | O => EmptyString
  | S d =>
    String (lowerhex (N.land (N.shiftr r (4 * N.of_nat d)) 0xF))
      (hexDigits d r)
  end.

Section Quote.
(** [strconv.IsPrint] above Latin-1 is a table lookup in the Unicode
    tables of the Go runtime; the table is a parameter. *)
Variable isPrintTable : N -> bool.

Definition IsPrint (r : N) : bool :=
  if r <=? 0xFF then
    if (0x20 <=? r) && (r <=? 0x7E) then true
    else if (0xA1 <=? r) && (r <=? 0xFF) then negb (r =? 0xAD)
    else false
  else isPrintTable r.

(** [appendEscapedRune] for the double-quote delimiter, with
    [ASCIIonly = false] and [graphicOnly = false], onto the empty
    buffer. *)
Definition appendEscapedRune (r : N) : string :=
  if (r =? N_of_ascii dquote) || (r =? N_of_ascii backslash) then
    String backslash (String (byte r) EmptyString)
  else if IsPrint r then Utf8.AppendRune r
  else if r =? 7 then "\a"
  else if r =? 8 then "\b"
  else if r =? 12 then "\f"
  else if r =? 10 then "\n"
  else if r =? 13 then "\r"
  else if r =? 9 then "\t"
  else if r =? 11 then "\v"
  else if (r <? 0x20) || (r =? 0x7F) then
    "\x" +:+ String (lowerhex (N.shiftr (r mod 256) 4))
               (String (lowerhex (N.land (r mod 256) 0xF)) EmptyString)
  else if negb (Utf8.ValidRune r) then "\u" +:+ hexDigits 4 Utf8.RuneError
  else if r <? 0x10000 then "\u" +:+ hexDigits 4 r
  else "\U" +:+ hexDigits 8 r.

(** The loop of [appendQuotedWith]: [for width := 0; len(s) > 0;
    s = s[width:]].  [skip] counts the bytes of the rune decoded last
    that are still to be stepped over, so that the recursion is on the
    string itself. *)
Fixpoint quoteLoop (skip : nat) (s : string) : string :=
  match s with
  | EmptyString => EmptyString
  | String c0 rest =>
    match skip with
    | S k => quoteLoop k rest
    | O =>
      let '(r, width) :=
        if N_of_ascii c0 <? Utf8.RuneSelf then (N_of_ascii c0, 1%nat)
        else Utf8.DecodeRuneInString s in
      (if (width =? 1)%nat && (r =? Utf8.RuneError) then
         "\x" +:+ String (lowerhex (N.shiftr (N_of_ascii c0) 4))
                    (String (lowerhex (N.land (N_of_ascii c0) 0xF))
                       EmptyString)
       else appendEscapedRune r)
      +:+ quoteLoop (Nat.pred width) rest
    end
  end.

(** [strconv.Quote]. *)
Definition Quote (s : string) : string :=
  String dquote (quoteLoop 0 s +:+ String dquote EmptyString).
End Quote.

End Strconv.

(** ** Package strings *)
Module Strings.

Fixpoint HasPrefix (s prefix : string) : bool :=
  match prefix, s with
  | EmptyString, _ => true
  | String p prefix', String c s' => Ascii.eqb c p && HasPrefix s' prefix'
  | String _ _, EmptyString => false
  end.

(** [strings.Split(s, sep)] for a one-byte separator. *)
Fixpoint Split (s : string) (sep : ascii) : list string :=
  match s with
  | EmptyString => [EmptyString]
  | String c rest =>
    if Ascii.eqb c sep then EmptyString :: Split rest sep
    else
      match Split rest sep with
      | field :: fields => String c field :: fields
      | [] => [String c EmptyString]
      end
  end.

(** [strings.Join(elems, sep)] for a one-byte separator. *)
Fixpoint Join (elems : list string) (sep : ascii) : string :=
  match elems with
  | [] => EmptyString
  | [e] => e
  | e :: rest => e +:+ String sep (Join rest sep)
  end.

(** The entries of [asciiSpace]. *)
Definition asciiSpace (c : ascii) : bool := Ascii.is_space c.

(** [unicode.IsSpace] holds of the ASCII spaces and of U+0085, U+00A0,
    U+1680, U+2000..U+200A, U+2028, U+2029, U+202F, U+205F and U+3000.
    Each of these has one valid UTF-8 encoding, of two or three bytes. *)
Definition isSpace2 (b0 b1 : N) : bool :=
  (b0 =? 0xC2) && ((b1 =? 0x85) || (b1 =? 0xA0)).

Definition isSpace3 (b0 b1 b2 : N) : bool :=
  ((b0 =? 0xE1) && (b1 =? 0x9A) && (b2 =? 0x80))
  || ((b0 =? 0xE2) && (b1 =? 0x80)
      && (((0x80 <=? b2) && (b2 <=? 0x8A))
          || (b2 =? 0xA8) || (b2 =? 0xA9) || (b2 =? 0xAF)))
  || ((b0 =? 0xE2) && (b1 =? 0x81) && (b2 =? 0x9F))
  || ((b0 =? 0xE3) && (b1 =? 0x80) && (b2 =? 0x80)).

(** Leading white space removed ([TrimLeftFunc(s, unicode.IsSpace)]). *)
Fixpoint trimLeft (s : string) : string :=
  match s with
  | EmptyString => EmptyString
  | String c0 t0 =>
    if asciiSpace c0 then trimLeft t0
    else
      match t0 with
      | EmptyString => s
      | String c1 t1 =>
        if isSpace2 (N_of_ascii c0) (N_of_ascii c1) then trimLeft t1
        else
          match t1 with
          | EmptyString => s
          | String c2 t2 =>
            if isSpace3 (N_of_ascii c0) (N_of_ascii c1) (N_of_ascii c2)
            then trimLeft t2
            else s
          end
      end
  end.

(** The same scan on the reversed string: the last rune is decoded
    backwards from the end, so the byte patterns appear mirrored. *)
Fixpoint trimLeftRev (s : string) : string :=
  match s with
  | EmptyString => EmptyString
  | String c0 t0 =>
    if asciiSpace c0 then trimLeftRev t0
    else
      match t0 with
      | EmptyString => s
      | String c1 t1 =>
        if isSpace2 (N_of_ascii c1) (N_of_ascii c0) then trimLeftRev t1
        else
          match t1 with
          | EmptyString => s
          | String c2 t2 =>
            if isSpace3 (N_of_ascii c2) (N_of_ascii c1) (N_of_ascii c0)
            then trimLeftRev t2
            else s
          end
      end
  end.

Definition trimRight (s : string) : string :=
  String.rev (trimLeftRev (String.rev s)).

(** [strings.TrimSpace]: leading, then trailing white space removed. *)
Definition TrimSpace (s : string) : string := trimRight (trimLeft s).

(** [strings.ToUpper] and [strings.ToLower] on ASCII letters; bytes
    outside ASCII are kept, where Go maps letters through the Unicode
    tables.  The model is that of Go on ASCII strings (every option name
    of the program is ASCII); properties of arbitrary keys that depend on
    the folding are stated for ASCII keys. *)
Definition upperByte (c : ascii) : ascii :=
  let n := N_of_ascii c in
  if (97 <=? n) && (n <=? 122) then ascii_of_N (n - 32) else c.

Definition lowerByte (c : ascii) : ascii :=
  let n := N_of_ascii c in
  if (65 <=? n) && (n <=? 90) then ascii_of_N (n + 32) else c.

Fixpoint mapBytes (f : ascii -> ascii) (s : string) : string :=
  match s with
  | EmptyString => EmptyString
  | String c rest => String (f c) (mapBytes f rest)
  end.

Definition ToUpper : string -> string := mapBytes upperByte.
Definition ToLower : string -> string := mapBytes lowerByte.

(** [strings.NewReplacer] with one-byte old and new strings: a byte
    replacer; when an old byte is listed twice the first pair wins. *)
Definition Replacer := list (ascii * ascii).

Fixpoint replaceByte (r : Replacer) (c : ascii) : ascii :=
  match r with
  | [] => c
  | (old, new) :: r' => if Ascii.eqb c old then new else replaceByte r' c
  end.

Definition Replace (r : Replacer) : string -> string :=
  mapBytes (replaceByte r).

(** Whether byte [c] occurs in [s]. *)
Fixpoint containsByte (s : string) (c : ascii) : bool :=
  match s with
  | EmptyString => false
  | String c' rest => Ascii.eqb c' c || containsByte rest c
  end.

End Strings.

(** ** Package time: durations in nanoseconds *)
Module Time.

Local Open Scope Z_scope.

Definition Nanosecond : Z := 1.
Definition Microsecond : Z := 1000 * Nanosecond.
Definition Millisecond : Z := 1000 * Microsecond.
Definition Second : Z := 1000 * Millisecond.
Definition Minute : Z := 60 * Second.
Definition Hour : Z := 60 * Minute.

(** The micro sign U+00B5 and the Greek mu U+03BC, as UTF-8 bytes. *)
Definition microSign : string :=
  String (ascii_of_N 0xC2) (String (ascii_of_N 0xB5) "").
Definition greekMu : string :=
  String (ascii_of_N 0xCE) (String (ascii_of_N 0xBC) "").

Definition unitMap (u : string) : option Z :=
  if String.eqb u "ns" then Some Nanosecond
  else if String.eqb u "us" then Some Microsecond
  else if String.eqb u (microSign +:+ "s") then Some Microsecond
  else if String.eqb u (greekMu +:+ "s") then Some Microsecond
  else if String.eqb u "ms" then Some Millisecond
  else if String.eqb u "s" then Some Second
  else if String.eqb u "m" then Some Minute
  else if String.eqb u "h" then Some Hour
  else None.

Definition isDigit (c : ascii) : bool :=
  ((48 <=? N_of_ascii c) && (N_of_ascii c <=? 57))%N.

Definition digitVal (c : ascii) : Z := Z.of_N (N_of_ascii c) - 48.

(** The fraction of a group is computed in [float64]: IEEE 754 binary64
    with rounding to nearest even, here the Standard Library's
    specification of it. *)
Definition prec : Z := 53.
Definition emax : Z := 1024.

(** [float64(x)] of an unsigned integer. *)
Definition float64 (x : Z) : SpecFloat.spec_float :=
  SpecFloat.binary_normalize prec emax x 0 false.

Definition fmul : SpecFloat.spec_float → SpecFloat.spec_float
                  → SpecFloat.spec_float := SpecFloat.SFmul prec emax.
Definition fdiv : SpecFloat.spec_float → SpecFloat.spec_float
                  → SpecFloat.spec_float := SpecFloat.SFdiv prec emax.

(** [uint64(x)] of a finite [x] that is not negative: the integer part. *)
Definition uint64 (x : SpecFloat.spec_float) : Z :=
  match x with
  | SpecFloat.S754_finite false m e =>
    if 0 <=? e then Z.shiftl (Z.pos m) e else Z.shiftr (Z.pos m) (- e)
  | _ => 0
  end.

(** Scanner state of [ParseDuration]: at the first byte of a group, inside
    its integer ([leadingInt]), inside its fraction ([leadingFraction],
    with [pre] and [post] telling whether digits were read before and after
    the point and [overflow] whether further digits are dropped), or inside
    its unit.  [total] is the sum [d] of the groups read so far. *)
Inductive scan :=
| AtGroup (total : Z)
| InInt (total v : Z)
| InFrac (total v : Z) (pre post overflow : bool) (f : Z)
         (scale : SpecFloat.spec_float)
| InUnit (total v f : Z) (scale : SpecFloat.spec_float) (u : string).

Definition limit : Z := 2 ^ 63.

(** End of a group: [v *= unit], the fraction added in floating point,
    [d += v] in [uint64], with the overflow checks. *)
Definition closeGroup (total v f : Z) (scale : SpecFloat.spec_float)
           (u : string) : option Z :=
  unit ← unitMap u;
  if v >? limit / unit then None
  else
    let v1 := v * unit in
    let v2 :=
      if 0 <? f
      then v1 + uint64 (fmul (float64 f) (fdiv (float64 unit) scale))
      else v1 in
    if (0 <? f) && (v2 >? limit) then None
    else
      let d := (total + v2) mod 2 ^ 64 in
      if d >? limit then None else Some d.

(** The first byte of a group must be a digit or the point. *)
Definition startGroup (total : Z) (c : ascii) : option scan :=
  if isDigit c then Some (InInt total (digitVal c))
  else if Ascii.eqb c "."%char
       then Some (InFrac total 0 false false false 0 (float64 1))
  else None.

Definition scanByte (st : scan) (c : ascii) : option scan :=
  match st with
  | AtGroup total => startGroup total c
  | InInt total v =>
    if isDigit c then
      if v >? limit / 10 then None
      else if v * 10 + digitVal c >? limit then None
      else Some (InInt total (v * 10 + digitVal c))
    else if Ascii.eqb c "."%char
         then Some (InFrac total v true false false 0 (float64 1))
    else Some (InUnit total v 0 (float64 1) (String c ""))
  | InFrac total v pre post overflow f scale =>
    if isDigit c then
      if overflow then Some (InFrac total v pre true true f scale)
      else if f >? (limit - 1) / 10
           then Some (InFrac total v pre true true f scale)
      else if f * 10 + digitVal c >? limit
           then Some (InFrac total v pre true true f scale)
      else Some (InFrac total v pre true false (f * 10 + digitVal c)
                        (fmul scale (float64 10)))
    else if Ascii.eqb c "."%char then None
    else if pre || post then Some (InUnit total v f scale (String c ""))
    else None
  | InUnit total v f scale u =>
    if isDigit c || Ascii.eqb c "."%char then
      total' ← closeGroup total v f scale u;
      startGroup total' c
    else Some (InUnit total v f scale (u +:+ String c ""))
  end.

Fixpoint scanGroups (st : scan) (s : string) : option Z :=
  match s with
  | EmptyString =>
    match st with
    | InUnit total v f scale u => closeGroup total v f scale u
    | _ => None
    end
  | String c rest => st' ← scanByte st c; scanGroups st' rest
  end.

(** [time.ParseDuration]: an optional sign, then groups of a decimal
    number, with or without a fraction, and a unit; [None] is the
    error. *)
Definition ParseDuration (s : string) : option Z :=
  let '(neg, body) :=
    match s with
    | String c rest =>
      if Ascii.eqb c "-"%char then (true, rest)
      else if Ascii.eqb c "+"%char then (false, rest)
      else (false, s)
    | EmptyString => (false, s)
    end in
  if String.eqb body "0" then Some 0
  else
    d ← scanGroups (AtGroup 0) body;
    if neg then Some (- d)
    else if d >? limit - 1 then None
    else Some d.

End Time.

(** ** Configuration values *)

(** What a YAML scalar, a default or an explicit [Set] stores under a key. *)
Inductive Value :=
| VBool (b : bool)
| VString (s : string)
| VInt (i : Z).

(** ** Package cast (the conversions behind viper's typed getters) *)
Module Cast.

(** [cast.ToString]; the absent value [nil] is the empty string. *)
Definition ToString (i : option Value) : string :=
  match i with
  | Some (VString s) => s
  | Some (VBool b) => if b then "true" else "false"
  | Some (VInt z) => pretty z
  | None => ""
  end.

(** [cast.ToBool]; a failed conversion yields [false]. *)
Definition ToBool (i : option Value) : bool :=
  match i with
  | Some (VBool b) => b
  | Some (VInt z) => negb (Z.eqb z 0)
  | Some (VString s) => default false (Strconv.ParseBool s)
  | None => false
  end.

(** [strings.ContainsAny(s, chars)] for the unit letters [n s u m h] and the
    micro sign: a byte of the ASCII letters, or the two bytes of U+00B5. *)
Fixpoint containsUnitRune (s : string) : bool :=
  match s with
  | EmptyString => false
  | String c rest =>
    bool_decide (c ∈ list_ascii_of_string "nsumh")
    || Strings.HasPrefix s Time.microSign
    || containsUnitRune rest
  end.

(** [cast.ToDuration], in nanoseconds; a failed conversion yields [0]. *)
Definition ToDuration (i : option Value) : Z :=
  match i with
  | Some (VInt z) => z
  | Some (VString s) =>
    if containsUnitRune s
    then default 0%Z (Time.ParseDuration s)
    else default 0%Z (Time.ParseDuration (s +:+ "ns"))
  | Some (VBool _) => 0%Z
  | None => 0%Z
  end.

End Cast.

(** ** Paths and files *)

(** A path is the list of its components, innermost first; the root is the
    empty list.  [filepath.Dir] drops the last component and leaves the root
    as it is; [filepath.Join dir elem] adds one. *)
Abbreviation Path := (list string).

Module Filepath.
Definition Dir (p : Path) : Path := tail p.
Definition Join (dir : Path) (elem : string) : Path := elem :: dir.
(** [path + suffix] on the string form of a path with a last component. *)
Definition addSuffix (p : Path) (suffix : string) : Path :=
  match p with
  | base :: dir => (base +:+ suffix) :: dir
  | [] => [suffix]
  end.
End Filepath.

Inductive Node :=
| Directory
| File (data : string).

(** ** Package viper: the part of the library the program drives *)
Module Viper.

(** The fields of [viper.Viper] that [Initialize], [Set] and the getters
    touch.  Keys are flat: no option name contains the key delimiter, and
    the layers map whole keys to scalars.  For a key with the delimiter
    [.] viper walks and builds nested maps and lets a parent key shadow
    its children; that is outside this model, and properties of arbitrary
    keys that depend on it are stated for keys without the delimiter. *)
Record t := mk {
  configFile : option Path;
  configType : string;
  envPrefix : string;
  envKeyReplacer : option Strings.Replacer;
  automaticEnvApplied : bool;
  env : gmap string (list string);
  config : gmap string Value;
  override : gmap string Value;
  defaults : gmap string Value;
}.

Definition New : t :=
  {| configFile := None; configType := ""; envPrefix := "";
     envKeyReplacer := None; automaticEnvApplied := false;
     env := ∅; config := ∅; override := ∅; defaults := ∅ |}.

Definition SetConfigType (typ : string) (v : t) : t :=
  mk (configFile v) typ (envPrefix v) (envKeyReplacer v)
     (automaticEnvApplied v) (env v) (config v) (override v) (defaults v).

Definition SetConfigFile (p : Path) (v : t) : t :=
  mk (Some p) (configType v) (envPrefix v) (envKeyReplacer v)
     (automaticEnvApplied v) (env v) (config v) (override v) (defaults v).

Definition SetEnvPrefix (prefix : string) (v : t) : t :=
  mk (configFile v) (configType v) prefix (envKeyReplacer v)
     (automaticEnvApplied v) (env v) (config v) (override v) (defaults v).

Definition SetEnvKeyReplacer (r : Strings.Replacer) (v : t) : t :=
  mk (configFile v) (configType v) (envPrefix v) (Some r)
     (automaticEnvApplied v) (env v) (config v) (override v) (defaults v).

Definition AutomaticEnv (v : t) : t :=
  mk (configFile v) (configType v) (envPrefix v) (envKeyReplacer v)
     true (env v) (config v) (override v) (defaults v).

Definition SetDefault (key : string) (value : Value) (v : t) : t :=
  mk (configFile v) (configType v) (envPrefix v) (envKeyReplacer v)
     (automaticEnvApplied v) (env v) (config v) (override v)
     (<[Strings.ToLower key := value]> (defaults v)).

(** [Set]; the trailing underscore avoids the keyword. *)
Definition Set_ (key : string) (value : Value) (v : t) : t :=
  mk (configFile v) (configType v) (envPrefix v) (envKeyReplacer v)
     (automaticEnvApplied v) (env v) (config v)
     (<[Strings.ToLower key := value]> (override v)) (defaults v).

Definition setConfig (c : gmap string Value) (v : t) : t :=
  mk (configFile v) (configType v) (envPrefix v) (envKeyReplacer v)
     (automaticEnvApplied v) (env v) c (override v) (defaults v).

Definition mergeWithEnvPrefix (v : t) (key : string) : string :=
  if String.eqb (envPrefix v) "" then Strings.ToUpper key
  else Strings.ToUpper (envPrefix v +:+ "_" +:+ key).

(** [BindEnv(key, names...)] with explicit variable names. *)
Definition BindEnv (key : string) (names : list string) (v : t) : t :=
  let k := Strings.ToLower key in
  mk (configFile v) (configType v) (envPrefix v) (envKeyReplacer v)
     (automaticEnvApplied v)
     (<[k := default [] (env v !! k) ++ names]> (env v))
     (config v) (override v) (defaults v).

(** [getEnv]: the variable after key replacement; a variable that is set to
    the empty string counts as unset ([AllowEmptyEnv] is never called). *)
Definition getEnv (environ : gmap string string) (v : t) (key : string)
  : option string :=
  let key' := match envKeyReplacer v with
              | Some r => Strings.Replace r key
              | None => key
              end in
  match environ !! key' with
  | Some val => if String.eqb val "" then None else Some val
  | None => None
  end.

Fixpoint firstEnv (environ : gmap string string) (v : t) (names : list string)
  : option string :=
  match names with
  | [] => None
  | name :: rest =>
    match getEnv environ v name with
    | Some val => Some val
    | None => firstEnv environ v rest
    end
  end.

(** [find]: explicit overrides, then the environment (automatic, then
    bound names), then the config file, then the defaults.  The program
    registers no flags and no remote store. *)
Definition find (environ : gmap string string) (v : t) (lcaseKey : string)
  : option Value :=
  match override v !! lcaseKey with
  | Some val => Some val
  | None =>
    match (if automaticEnvApplied v
           then getEnv environ v (mergeWithEnvPrefix v lcaseKey)
           else None) with
    | Some val => Some (VString val)
    | None =>
      match firstEnv environ v (default [] (env v !! lcaseKey)) with
      | Some val => Some (VString val)
      | None =>
        match config v !! lcaseKey with
        | Some val => Some val
        | None => defaults v !! lcaseKey
        end
      end
    end
  end.

Definition Get (environ : gmap string string) (v : t) (key : string)
  : option Value :=
  find environ v (Strings.ToLower key).

Definition GetString environ v key := Cast.ToString (Get environ v key).
Definition GetBool environ v key := Cast.ToBool (Get environ v key).
Definition GetDuration environ v key := Cast.ToDuration (Get environ v key).

End Viper.

(** ** The process and its surroundings *)

Inductive error :=
| ErrEmptyPrefix
| ErrGetwd
| ErrWriteTemp
| ErrUpdateConfig
| ErrReadConfig
| ErrQuery (msg : string).

(** Everything the package reads or writes: the working directory and the
    two per-user directories as the [os] calls report them ([None] when the
    call fails), the file tree, the environment, how the system treats the
    next writes, renames and removals (permissions, full disk), and the
    package variable [v], [None] while it is [nil].

    [writeFault] makes [os.WriteFile] fail.  With [partialWrite = None] it
    is the open that is refused; with [Some n] the file is created or
    truncated and the write fails after [n] bytes.  [renameFault] and
    [removeFault] make [os.Rename] and [os.Remove] fail. *)
Record World := mkWorld {
  getwd : option Path;
  userConfigDir : option Path;
  userHomeDir : option Path;
  fs : gmap Path Node;
  environ : gmap string string;
  writeFault : bool;
  partialWrite : option nat;
  renameFault : bool;
  removeFault : bool;
  v : option Viper.t;
}.

Definition setFs (fs' : gmap Path Node) (w : World) : World :=
  mkWorld (getwd w) (userConfigDir w) (userHomeDir w) fs' (environ w)
          (writeFault w) (partialWrite w) (renameFault w) (removeFault w)
          (v w).

Definition setV (v' : option Viper.t) (w : World) : World :=
  mkWorld (getwd w) (userConfigDir w) (userHomeDir w) (fs w) (environ w)
          (writeFault w) (partialWrite w) (renameFault w) (removeFault w) v'.

(** ** Package os *)
Module Os.

Definition Stat (w : World) (p : Path) : option Node := fs w !! p.

Definition isDir (n : option Node) : bool :=
  match n with Some Directory => true | _ => false end.

(** [os.ReadFile]: the content of a regular file.  The process is taken
    to have read permission on the files of the tree, so the read of an
    existing regular file succeeds. *)
Definition ReadFile (w : World) (p : Path) : option string :=
  match fs w !! p with
  | Some (File data) => Some data
  | _ => None
  end.

(** [os.WriteFile]: opens with [O_WRONLY|O_CREATE|O_TRUNC], writes and
    closes.  The open fails on a directory and when the system refuses it,
    and then nothing changes; a write that fails leaves the file created
    or truncated, holding the bytes that got through.  The boolean is
    [err == nil]. *)
Definition WriteFile (p : Path) (data : string) (w : World) : World * bool :=
  if isDir (fs w !! p) then (w, false)
  else if writeFault w then
    match partialWrite w with
    | None => (w, false)
    | Some n =>
      (setFs (<[p := File (String.substring 0 n data)]> (fs w)) w, false)
    end
  else (setFs (<[p := File data]> (fs w)) w, true).

(** [os.Rename] of a regular file: replaces a file at [newpath], fails
    when [newpath] is a directory, when [oldpath] is no regular file, or
    when the system refuses. *)
Definition Rename (oldpath newpath : Path) (w : World) : World * bool :=
  if renameFault w then (w, false)
  else
    match fs w !! oldpath with
    | Some (File data) =>
      if isDir (fs w !! newpath) then (w, false)
      else (setFs (<[newpath := File data]> (delete oldpath (fs w))) w, true)
    | _ => (w, false)
    end.

(** [os.Remove] of a file, its error dropped as the caller drops it: a
    refused removal leaves the file where it is. *)
Definition Remove (p : Path) (w : World) : World :=
  if removeFault w then w else setFs (delete p (fs w)) w.

(** [os.Unsetenv]. *)
Definition Unsetenv (name : string) (w : World) : World :=
  mkWorld (getwd w) (userConfigDir w) (userHomeDir w) (fs w)
          (delete name (environ w))
          (writeFault w) (partialWrite w) (renameFault w) (removeFault w)
          (v w).

End Os.

(** ** Package database/sql, as [MigrateConfigToYAML] uses it *)

Inductive Query :=
| SelectConfigIssuePrefix
| SelectFirstIssueID.

(** Outcome of [QueryRowContext(...).Scan(&dest)]. *)
Inductive ScanResult :=
| Scanned (value : string)
| ErrNoRows
| ScanError (msg : string).

Abbreviation DB := (Query -> ScanResult).

(** The database that answers the empty string wherever [db] has no row. *)
Definition noRowsAsEmpty (db : DB) : DB :=
  λ q, match db q with
       | ErrNoRows => Scanned ""
       | r => r
       end.

(** ** Package config *)
Section Config.

(** Collaborators outside the repository: the Unicode table behind
    [strconv.IsPrint], the YAML decoder behind [ReadInConfig] (the flat,
    lower-cased mapping of a file, [None] when it does not parse), and
    [utils.ExtractIssuePrefix]. *)
Variable isPrintTable : N -> bool.
Variable yamlUnmarshal : string -> option (gmap string Value).
Variable ExtractIssuePrefix : string -> string.

Set Default Proof Using "Type".

Definition exists_ (n : option Node) : bool :=
  match n with Some _ => true | None => false end.

(** Step 1 of [Initialize]: the walk from [cwd] towards the root,
    [for dir := cwd; dir != filepath.Dir(dir); dir = filepath.Dir(dir)]. *)
Fixpoint findProjectConfig (w : World) (dir : Path) : option Path :=
  match dir with
  | [] => None
  | _ :: parent =>
    let beadsDir := Filepath.Join dir ".beads" in
    let configPath := Filepath.Join beadsDir "config.yaml" in
    if exists_ (Os.Stat w configPath) then Some configPath
    else findProjectConfig w parent
  end.

(** The three places searched, in order; the first file found wins. *)
Definition locateConfig (w : World) : option Path :=
  let step1 :=
    match getwd w with
    | Some cwd => findProjectConfig w cwd
    | None => None
    end in
  let step2 :=
    match step1 with
    | Some p => Some p
    | None =>
      match userConfigDir w with
      | Some configDir =>
        let configPath :=
          Filepath.Join (Filepath.Join configDir "bd") "config.yaml" in
        if exists_ (Os.Stat w configPath) then Some configPath else None
      | None => None
      end
    end in
  match step2 with
  | Some p => Some p
  | None =>
    match userHomeDir w with
    | Some homeDir =>
      let configPath :=
        Filepath.Join (Filepath.Join homeDir ".beads") "config.yaml" in
      if exists_ (Os.Stat w configPath) then Some configPath else None
    | None => None
    end
  end.

(** [v.ReadInConfig()]: the file named by [SetConfigFile], decoded. *)
Definition ReadInConfig (w : World) (vp : Viper.t) : Viper.t * bool :=
  match Viper.configFile vp with
  | Some p =>
    match Os.ReadFile w p with
    | Some data =>
      match yamlUnmarshal data with
      | Some c => (Viper.setConfig c vp, true)
      | None => (vp, false)
      end
    | None => (vp, false)
    end
  | None => (vp, false)
  end.

Definition envKeyReplacer : Strings.Replacer :=
  [("."%char, "_"%char); ("-"%char, "_"%char)].

(** The singleton as [Initialize] builds it before the file is read:
    [found] is the config file located, if any. *)
Definition configure (found : option Path) : Viper.t :=
  let v0 := Viper.SetConfigType "yaml" Viper.New in
  let v1 := match found with
            | Some configPath => Viper.SetConfigFile configPath v0
            | None => v0
            end in
  let v2 := Viper.SetEnvPrefix "BD" v1 in
  let v3 := Viper.SetEnvKeyReplacer envKeyReplacer v2 in
  let v4 := Viper.AutomaticEnv v3 in
  let v5 := Viper.SetDefault "json" (VBool false) v4 in
  let v6 := Viper.SetDefault "no-daemon" (VBool false) v5 in
  let v7 := Viper.SetDefault "no-auto-flush" (VBool false) v6 in
  let v8 := Viper.SetDefault "no-auto-import" (VBool false) v7 in
  let v9 := Viper.SetDefault "no-db" (VBool false) v8 in
  let v10 := Viper.SetDefault "db" (VString "") v9 in
  let v11 := Viper.SetDefault "actor" (VString "") v10 in
  let v12 := Viper.SetDefault "issue-prefix" (VString "") v11 in
  let v13 := Viper.BindEnv "flush-debounce" ["BEADS_FLUSH_DEBOUNCE"] v12 in
  let v14 :=
    Viper.BindEnv "auto-start-daemon" ["BEADS_AUTO_START_DAEMON"] v13 in
  let v15 := Viper.SetDefault "flush-debounce" (VString "30s") v14 in
  Viper.SetDefault "auto-start-daemon" (VBool true) v15.

Definition Initialize (w : World) : World * option error :=
  let found := locateConfig w in
  let v16 := configure found in
  match found with
  | Some _ =>
    match ReadInConfig w v16 with
    | (v17, true) => (setV (Some v17) w, None)
    | (v17, false) => (setV (Some v17) w, Some ErrReadConfig)
    end
  | None => (setV (Some v16) w, None)
  end.

Definition Get (w : World) (key : string) : option Value :=
  match v w with
  | None => None
  | Some vp => Viper.Get (environ w) vp key
  end.

Definition GetString (w : World) (key : string) : string :=
  match v w with
  | None => ""
  | Some vp => Viper.GetString (environ w) vp key
  end.

Definition GetBool (w : World) (key : string) : bool :=
  match v w with
  | None => false
  | Some vp => Viper.GetBool (environ w) vp key
  end.

Definition GetDuration (w : World) (key : string) : Z :=
  match v w with
  | None => 0%Z
  | Some vp => Viper.GetDuration (environ w) vp key
  end.

(** The named options with their documented defaults. *)
Definition defaultTable : gmap string Value :=
  list_to_map
    [("json", VBool false); ("no-daemon", VBool false);
     ("no-auto-flush", VBool false); ("no-auto-import", VBool false);
     ("no-db", VBool false); ("db", VString ""); ("actor", VString "");
     ("issue-prefix", VString ""); ("flush-debounce", VString "30s");
     ("auto-start-daemon", VBool true)].

Definition optionNames : list string :=
  ["json"; "no-daemon"; "no-auto-flush"; "no-auto-import"; "no-db"; "db";
   "actor"; "issue-prefix"; "flush-debounce"; "auto-start-daemon"].

(** The environment variable of option [key]: [BD_], then the key in upper
    case with [-] and [.] replaced by [_]. *)
Definition envVarName (key : string) : string :=
  "BD_" +:+ Strings.Replace envKeyReplacer (Strings.ToUpper key).

(** The two legacy variable names bound explicitly. *)
Definition legacyEnvNames : list string :=
  ["BEADS_FLUSH_DEBOUNCE"; "BEADS_AUTO_START_DAEMON"].

Definition defaultEnvNames : list string :=
  (envVarName <$> optionNames) ++ legacyEnvNames.

(** [Set]; the trailing underscore avoids the keyword. *)
Definition Set_ (key : string) (value : Value) (w : World) : World :=
  match v w with
  | Some vp => setV (Some (Viper.Set_ key value vp)) w
  | None => w
  end.

Definition GetIssuePrefix (w : World) : string := GetString w "issue-prefix".

(** The walk of [SetIssuePrefix] for the nearest [.beads] directory. *)
Fixpoint findBeadsDir (w : World) (dir : Path) : option Path :=
  match dir with
  | [] => None
  | _ :: parent =>
    let candidate := Filepath.Join dir ".beads" in
    if Os.isDir (Os.Stat w candidate) then Some candidate
    else findBeadsDir w parent
  end.

(** [fmt.Sprintf] with the format [issue-prefix: %q]. *)
Definition issuePrefixLine (prefix : string) : string :=
  "issue-prefix: " +:+ Strconv.Quote isPrintTable prefix.

(** The test of the scanning loop on one line. *)
Definition isIssuePrefixLine (line : string) : bool :=
  let trimmed := Strings.TrimSpace line in
  Strings.HasPrefix trimmed "issue-prefix:"
  && negb (Strings.HasPrefix trimmed "#").

(** The scanning loop: the first matching line is overwritten and the loop
    left; the boolean is [found]. *)
Fixpoint replaceFirst (newLine : string) (lines : list string)
  : list string * bool :=
  match lines with
  | [] => ([], false)
  | line :: rest =>
    if isIssuePrefixLine line then (newLine :: rest, true)
    else let '(rest', found) := replaceFirst newLine rest in
         (line :: rest', found)
  end.

(** The lines of the file: none for empty content, else the fields
    between line feeds. *)
Definition linesOf (content : string) : list string :=
  if String.eqb content "" then [] else Strings.Split content nl.

(** From the bytes read to the bytes written: split, update or add the
    line, join. *)
Definition updateContent (prefix content : string) : string :=
  let lines := linesOf content in
  let '(lines1, found) := replaceFirst (issuePrefixLine prefix) lines in
  let lines2 :=
    if found then lines1
    else if (0 <? length lines1)%nat
         then issuePrefixLine prefix :: "" :: lines1
         else [issuePrefixLine prefix] in
  Strings.Join lines2 nl.

Definition SetIssuePrefix (prefix : string) (w : World)
  : World * option error :=
  if String.eqb prefix "" then (w, Some ErrEmptyPrefix)
  else
    match getwd w with
    | None => (w, Some ErrGetwd)
    | Some cwd =>
      match findBeadsDir w cwd with
      | None => (Set_ "issue-prefix" (VString prefix) w, None)
      | Some beadsDir =>
        let configPath := Filepath.Join beadsDir "config.yaml" in
        let content := default "" (Os.ReadFile w configPath) in
        let content' := updateContent prefix content in
        let tmpPath := Filepath.addSuffix configPath ".tmp" in
        match Os.WriteFile tmpPath content' w with
        | (w1, false) => (w1, Some ErrWriteTemp)
        | (w1, true) =>
          match Os.Rename tmpPath configPath w1 with
          | (w2, false) => (Os.Remove tmpPath w2, Some ErrUpdateConfig)
          | (w2, true) => (Set_ "issue-prefix" (VString prefix) w2, None)
          end
        end
      end
    end.

(** ** [MigrateConfigToYAML] (package sqlite) *)

(** Step 4: a prefix that was found is written through [SetIssuePrefix];
    its error is dropped. *)
Definition migrateFound (dbPrefix : string) (w : World) : World :=
  if negb (String.eqb dbPrefix "") then fst (SetIssuePrefix dbPrefix w)
  else w.

Definition scannedOrEmpty (r : ScanResult) : string :=
  match r with
  | Scanned value => value
  | _ => ""
  end.

(** The result carries, besides the world and the error, the queries that
    were sent to the database, in order, each with its outcome. *)
Definition MigrateConfigToYAML (db : DB) (w : World)
  : World * list (Query * ScanResult) * option error :=
  let configPrefix := GetIssuePrefix w in
  if negb (String.eqb configPrefix "") then (w, [], None)
  else
    let r1 := db SelectConfigIssuePrefix in
    let sent1 := [(SelectConfigIssuePrefix, r1)] in
    match r1 with
    | ScanError msg => (w, sent1, Some (ErrQuery msg))
    | _ =>
      let dbPrefix := scannedOrEmpty r1 in
      if String.eqb dbPrefix "" then
        let r2 := db SelectFirstIssueID in
        let sent2 := sent1 ++ [(SelectFirstIssueID, r2)] in
        match r2 with
        | ScanError msg => (w, sent2, Some (ErrQuery msg))
        | _ =>
          let firstIssueID := scannedOrEmpty r2 in
          let dbPrefix' :=
            if negb (String.eqb firstIssueID "")
            then ExtractIssuePrefix firstIssueID
            else dbPrefix in
          (migrateFound dbPrefix' w, sent2, None)
        end
      else (migrateFound dbPrefix w, sent1, None)
    end.


(** ** Sample files *)

Definition quoted (s : string) : string :=
  String dquote (s +:+ String dquote "").

(** The declaration line for prefix [active], and the file of the
    commented-out declaration followed by [json: true]. *)
Definition activeDeclaration : string := "issue-prefix: " +:+ quoted "active".
Definition commentedDeclaration : string :=
  "# issue-prefix: " +:+ quoted "commented".
Definition commentedConfig : string :=
  commentedDeclaration +:+ String nl ("json: true" +:+ String nl "").

(** ** Sample projects *)

(** A table that calls every rune above Latin-1 printable. *)
Definition allPrintable (r : N) : bool := true.

Definition existingConfig : string := "issue-prefix: " +:+ quoted "existing".
Definition actorConfig : string := "actor: configuser".
Definition twoDeclarations : string :=
  "issue-prefix: a"
  +:+ String nl ("  issue-prefix: b" +:+ String nl "json: true").

(** The YAML decoder on the files of the examples; any other text counts
    as malformed. *)
Definition sampleYaml (data : string) : option (gmap string Value) :=
  if String.eqb data "" then Some ∅
  else if String.eqb data existingConfig
       then Some {[ "issue-prefix" := VString "existing" ]}
  else if String.eqb data actorConfig
       then Some {[ "actor" := VString "configuser" ]}
  else None.

Fixpoint beforeLastHyphen (s : string) : option string :=
  match s with
  | EmptyString => None
  | String c rest =>
    match beforeLastHyphen rest with
    | Some t => Some (String c t)
    | None => if Ascii.eqb c "-"%char then Some "" else None
    end
  end.

(** Modelled from the spec: [utils.ExtractIssuePrefix] is not among the
    sources; the spec gives the example of [old-prefix-42], whose prefix is
    [old-prefix].  This instance takes the text before the last hyphen. *)
Definition sampleExtract (id : string) : string :=
  default "" (beforeLastHyphen id).

Definition projectDir : Path := ["proj"; "home"].
Definition sampleBeadsDir : Path := Filepath.Join projectDir ".beads".
Definition sampleConfigPath : Path := Filepath.Join sampleBeadsDir "config.yaml".

(** A project directory with [.beads/config.yaml] holding [config]; the
    process runs in it and has not called [Initialize] yet. *)
Definition project (config : string) (env : gmap string string)
           (refuseWrites : bool) : World :=
  mkWorld (Some projectDir) None None
    (<[sampleConfigPath := File config]> (<[sampleBeadsDir := Directory]> ∅))
    env refuseWrites None false false None.

(** A directory with no [.beads] anywhere above it and no config file. *)
Definition bareWorld : World :=
  mkWorld (Some projectDir) None None ∅ ∅ false None false false None.

(** A database whose settings table holds [prefix] and which has no
    issues. *)
Definition legacyDB (prefix : string) : DB :=
  λ q, match q with
       | SelectConfigIssuePrefix => Scanned prefix
       | SelectFirstIssueID => ErrNoRows
       end.

(** An ASCII byte that is not white space. *)
Definition plainByte (c : ascii) : Prop :=
  N_of_ascii c < 128 ∧ Strings.asciiSpace c = false.

(** ** Keys on which the flat model is viper's *)


Fixpoint allBytes (p : ascii → bool) (s : string) : bool :=
  match s with
  | EmptyString => true
  | String c rest => p c && allBytes p rest
  end.

(** A key of ASCII bytes: letter case is folded as Go folds it. *)
Definition asciiKey (key : string) : bool :=
  allBytes (λ c, N_of_ascii c <? 128) key.

(** An ASCII key without the key delimiter: it names one entry of each
    layer, and no other key is its parent or its child. *)
Definition plainKey (key : string) : bool :=
  asciiKey key && negb (Strings.containsByte key "."%char).

(** ** The lookup order, written out *)

(** The value of a variable, unless it is unset or empty. *)
Definition nonEmptyVar (environ : gmap string string) (name : string)
  : option string :=
  match environ !! name with
  | Some val => if String.eqb val "" then None else Some val
  | None => None
  end.

Fixpoint firstNonEmpty (environ : gmap string string) (names : list string)
  : option string :=
  match names with
  | [] => None
  | name :: rest =>
    match nonEmptyVar environ name with
    | Some val => Some val
    | None => firstNonEmpty environ rest
    end
  end.

(** The legacy variable bound to a key, if any. *)
Definition legacyNames (k : string) : list string :=
  if String.eqb k "auto-start-daemon" then ["BEADS_AUTO_START_DAEMON"]
  else if String.eqb k "flush-debounce" then ["BEADS_FLUSH_DEBOUNCE"]
  else [].

(** What a lower-case key resolves to right after [Initialize]: its [BD_]
    variable, then its legacy variable, then the loaded file, then the
    default table. *)
Definition resolve (environ : gmap string string) (config : gmap string Value)
           (k : string) : option Value :=
  match nonEmptyVar environ (envVarName k) with
  | Some val => Some (VString val)
  | None =>
    match firstNonEmpty environ (legacyNames k) with
    | Some val => Some (VString val)
    | None =>
      match config !! k with
      | Some x => Some x
      | None => defaultTable !! k
      end
    end
  end.

(** The mapping [Initialize] loads: the decoding of the located file, empty
    when there is none or when it cannot be read or decoded. *)
Definition loadedConfig (w : World) : gmap string Value :=
  match locateConfig w with
  | Some p =>
    match Os.ReadFile w p with
    | Some data => default ∅ (yamlUnmarshal data)
    | None => ∅
    end
  | None => ∅
  end.

(** A file tree in which everything but the root lies in a directory. *)
Definition wellFormed (tree : gmap Path Node) : Prop :=
  ∀ name dir, is_Some (tree !! (name :: dir)) →
              dir = [] ∨ tree !! dir = Some Directory.

(** The sample project with a temp file left over from an earlier run. *)
Definition staleTemp : World :=
  let w := project existingConfig ∅ false in
  setFs (<[Filepath.addSuffix sampleConfigPath ".tmp" := File "stale"]> (fs w)) w.

(** The sample project with its parent directories in the tree. *)
Definition rootedProject (config : string) : World :=
  let w := project config ∅ false in
  setFs (<[projectDir := Directory]> (<[["home"] := Directory]> (fs w))) w.

(** The sample project on a system that refuses every rename and, with
    [keepTemp], every removal too (a directory that is not writable). *)
Definition renameRefused (keepTemp : bool) : World :=
  mkWorld (Some projectDir) None None
    (<[sampleConfigPath := File existingConfig]>
       (<[sampleBeadsDir := Directory]> ∅))
    ∅ false None true keepTemp None.

(** The sample project on a full disk: the temp file is created, and the
    write fails after [n] bytes. *)
Definition diskFull (n : nat) : World :=
  mkWorld (Some projectDir) None None
    (<[sampleConfigPath := File existingConfig]>
       (<[sampleBeadsDir := Directory]> ∅))
    ∅ true (Some n) false false None.

(** Printable ASCII other than the double quote and the backslash. *)
Definition simpleByte (c : ascii) : bool :=
  let n := N_of_ascii c in
  (0x20 <=? n) && (n <=? 0x7E) && negb (n =? 34) && negb (n =? 92).


(** * Properties *)

(** Membership in a list that is written out. *)
Local Ltac in_list :=
  try reflexivity;
  apply list_elem_of_In; vm_compute;
  repeat first [left; reflexivity | right].

(** ** Strings *)

Lemma app_nil_l (s : string) : "" +:+ s = s.
Proof. reflexivity. Qed.

Lemma app_cons (c : ascii) (s t : string) :
  String c s +:+ t = String c (s +:+ t).
Proof. reflexivity. Qed.

Lemma app_nil_r (s : string) : s +:+ "" = s.
Proof. induction s as [|c s IH]; [done|]. by rewrite app_cons, IH. Qed.

Lemma app_assoc (s t u : string) : (s +:+ t) +:+ u = s +:+ (t +:+ u).
Proof. induction s as [|c s IH]; [done|]. by rewrite !app_cons, IH. Qed.

Lemma rev_app_spec (s t : string) :
  String.rev_app s t = String.rev s +:+ t.
Proof.
  revert t. induction s as [|c s IH]; intros t; [done|].
  unfold String.rev. simpl. rewrite (IH (String c "")), IH.
  by rewrite app_assoc.
Qed.

Lemma rev_cons (c : ascii) (s : string) :
  String.rev (String c s) = String.rev s +:+ String c "".
Proof. unfold String.rev at 1. simpl. apply rev_app_spec. Qed.

Lemma rev_snoc (s : string) (c : ascii) :
  String.rev (s +:+ String c "") = String c (String.rev s).
Proof.
  induction s as [|d s IH]; [done|].
  by rewrite app_cons, !rev_cons, IH.
Qed.

Lemma rev_involutive (s : string) : String.rev (String.rev s) = s.
Proof.
  induction s as [|c s IH]; [done|]. by rewrite rev_cons, rev_snoc, IH.
Qed.

Lemma containsByte_app (s t : string) (c : ascii) :
  Strings.containsByte (s +:+ t) c
  = Strings.containsByte s c || Strings.containsByte t c.
Proof.
  induction s as [|d s IH]; [done|].
  rewrite app_cons. simpl. by rewrite IH, orb_assoc.
Qed.

Lemma Split_not_nil (s : string) (sep : ascii) : Strings.Split s sep ≠ [].
Proof.
  destruct s as [|c s]; [done|]. simpl.
  destruct (Ascii.eqb c sep); [done|]. by destruct (Strings.Split s sep).
Qed.

Lemma Split_fields (s : string) (sep : ascii) :
  Forall (λ f, Strings.containsByte f sep = false) (Strings.Split s sep).
Proof.
  induction s as [|c s IH]; simpl.
  - by repeat constructor.
  - destruct (Ascii.eqb c sep) eqn:E.
    + by constructor.
    + destruct (Strings.Split s sep) as [|f fs'].
      * repeat constructor. simpl. by rewrite E.
      * inversion IH; subst. constructor; [|done]. simpl. by rewrite E.
Qed.

Lemma Join_cons (e : string) (rest : list string) (sep : ascii) :
  rest ≠ [] →
  Strings.Join (e :: rest) sep = e +:+ String sep (Strings.Join rest sep).
Proof. by destruct rest. Qed.

Lemma Join_Split (s : string) (sep : ascii) :
  Strings.Join (Strings.Split s sep) sep = s.
Proof.
  induction s as [|c s IH]; [done|]. simpl.
  destruct (Ascii.eqb_spec c sep) as [->|Hne].
  - rewrite Join_cons by apply Split_not_nil. by rewrite IH.
  - pose proof (Split_not_nil s sep) as Hnil.
    destruct (Strings.Split s sep) as [|f fs']; [done|].
    destruct fs' as [|g fs'].
    + simpl in *. by rewrite IH.
    + rewrite Join_cons by done. rewrite Join_cons in IH by done.
      by rewrite app_cons, IH.
Qed.

Lemma Split_no_sep (s : string) (sep : ascii) :
  Strings.containsByte s sep = false → Strings.Split s sep = [s].
Proof.
  induction s as [|c s IH]; [done|]. simpl.
  intros [Hc Hs]%orb_false_elim. rewrite Hc, IH; done.
Qed.

Lemma Split_app_sep (f rest : string) (sep : ascii) :
  Strings.containsByte f sep = false →
  Strings.Split (f +:+ String sep rest) sep = f :: Strings.Split rest sep.
Proof.
  induction f as [|c f IH].
  - intros _. rewrite app_nil_l. simpl. by rewrite Ascii.eqb_refl.
  - simpl. intros [Hc Hf]%orb_false_elim.
    change (Strings.Split (String c (f +:+ String sep rest)) sep
            = String c f :: Strings.Split rest sep).
    simpl. by rewrite Hc, IH.
Qed.

Lemma Split_Join (l : list string) (sep : ascii) :
  l ≠ [] →
  Forall (λ f, Strings.containsByte f sep = false) l →
  Strings.Split (Strings.Join l sep) sep = l.
Proof.
  induction l as [|e l IH]; [done|]. intros _ Hall.
  inversion Hall as [|? ? He Hl]; subst.
  destruct l as [|e' l].
  - simpl. by apply Split_no_sep.
  - rewrite Join_cons by done. rewrite Split_app_sep by done.
    by rewrite IH.
Qed.

Lemma Join_not_empty (l : list string) (e : string) (sep : ascii) :
  e ∈ l → e ≠ "" → Strings.Join l sep ≠ "".
Proof.
  induction l as [|x l IH]; [by intros ?%elem_of_nil|].
  intros Hin He. destruct l as [|y l].
  - apply list_elem_of_singleton in Hin as ->. done.
  - rewrite Join_cons by done. destruct x; done.
Qed.

(** ** Quoting never emits a line feed *)

Lemma byte_high_bit (n : N) : N.testbit n 7 = true → byte n ≠ nl.
Proof.
  intros Hbit Heq. apply (f_equal N_of_ascii) in Heq. unfold byte in Heq.
  rewrite N_ascii_embedding in Heq by (apply N.mod_lt; lia).
  change (N_of_ascii nl) with 10 in Heq.
  assert (N.testbit (n mod 2 ^ 8) 7 = true) as Hlow
    by (rewrite N.mod_pow2_bits_low; [done | lia]).
  change (2 ^ 8) with 256 in Hlow. rewrite Heq in Hlow. discriminate Hlow.
Qed.

Lemma byte_lor_high (hi x : N) :
  N.testbit hi 7 = true → Ascii.eqb (byte (N.lor hi x)) nl = false.
Proof.
  intros Hhi. apply Ascii.eqb_neq, byte_high_bit.
  by rewrite N.lor_spec, Hhi.
Qed.

Lemma byte_small (n : N) : n < 256 → n ≠ 10 → Ascii.eqb (byte n) nl = false.
Proof.
  intros Hlt Hne. apply Ascii.eqb_neq. intros Heq.
  apply (f_equal N_of_ascii) in Heq. unfold byte in Heq.
  rewrite N.mod_small in Heq by done.
  rewrite N_ascii_embedding in Heq by done. done.
Qed.

Lemma lowerhex_not_nl (n : N) : Ascii.eqb (Strconv.lowerhex n) nl = false.
Proof.
  unfold Strconv.lowerhex. generalize (N.to_nat n). intros k.
  do 16 (destruct k as [|k]; [reflexivity|]). by destruct k.
Qed.

Lemma hexDigits_no_nl (d : nat) (r : N) :
  Strings.containsByte (Strconv.hexDigits d r) nl = false.
Proof.
  induction d as [|d IH]; [done|]. simpl. by rewrite lowerhex_not_nl, IH.
Qed.

Lemma encode3_no_nl (r : N) : Strings.containsByte (Utf8.encode3 r) nl = false.
Proof.
  unfold Utf8.encode3. cbn [Strings.containsByte].
  by rewrite !byte_lor_high.
Qed.

Lemma AppendRune_no_nl (r : N) :
  r ≠ 10 → Strings.containsByte (Utf8.AppendRune r) nl = false.
Proof.
  intros Hr. unfold Utf8.AppendRune.
  destruct (N.leb_spec r 0x7F).
  { cbn [Strings.containsByte]. rewrite byte_small; [done | lia | done]. }
  destruct (r <=? 0x7FF).
  { cbn [Strings.containsByte]. by rewrite !byte_lor_high. }
  destruct (negb (Utf8.ValidRune r)). { apply encode3_no_nl. }
  destruct (r <=? 0xFFFF). { apply encode3_no_nl. }
  cbn [Strings.containsByte]. by rewrite !byte_lor_high.
Qed.

Lemma IsPrint_not_nl (r : N) : Strconv.IsPrint isPrintTable r = true → r ≠ 10.
Proof. intros H ->. done. Qed.

Lemma appendEscapedRune_no_nl (r : N) :
  Strings.containsByte (Strconv.appendEscapedRune isPrintTable r) nl = false.
Proof.
  unfold Strconv.appendEscapedRune.
  destruct (N.eqb_spec r (N_of_ascii dquote)) as [->|_]; [done|].
  destruct (N.eqb_spec r (N_of_ascii backslash)) as [->|_]; [done|].
  cbn [orb].
  destruct (Strconv.IsPrint isPrintTable r) eqn:Hp.
  { by apply AppendRune_no_nl, IsPrint_not_nl. }
  repeat (match goal with
          | |- context [if ?b then _ else _] => destruct b; [done|]
          end).
  destruct (_ || _).
  { rewrite containsByte_app. simpl. by rewrite !lowerhex_not_nl. }
  destruct (negb _).
  { rewrite containsByte_app. by rewrite hexDigits_no_nl. }
  destruct (_ <? _); rewrite containsByte_app; by rewrite hexDigits_no_nl.
Qed.

Lemma quoteLoop_no_nl (skip : nat) (s : string) :
  Strings.containsByte (Strconv.quoteLoop isPrintTable skip s) nl = false.
Proof.
  revert skip. induction s as [|c s IH]; intros skip; [done|].
  simpl. destruct skip as [|k]; [|apply IH].
  match goal with
  | |- context [let '(_, _) := ?e in _] => destruct e as [r width]
  end.
  rewrite containsByte_app, IH, orb_false_r.
  destruct (_ && _); [|apply appendEscapedRune_no_nl].
  rewrite containsByte_app. simpl. by rewrite !lowerhex_not_nl.
Qed.

Lemma Quote_no_nl (s : string) :
  Strings.containsByte (Strconv.Quote isPrintTable s) nl = false.
Proof.
  unfold Strconv.Quote. simpl.
  by rewrite containsByte_app, quoteLoop_no_nl.
Qed.

(** ** [TrimSpace] keeps a string that begins and ends with a plain byte *)

Lemma isSpace2_low_lead (b0 b1 : N) : b0 < 128 → Strings.isSpace2 b0 b1 = false.
Proof.
  intros H. unfold Strings.isSpace2.
  destruct (N.eqb_spec b0 0xC2); [lia | done].
Qed.

Lemma isSpace3_low_lead (b0 b1 b2 : N) :
  b0 < 128 → Strings.isSpace3 b0 b1 b2 = false.
Proof.
  intros H. unfold Strings.isSpace3.
  destruct (N.eqb_spec b0 0xE1); [lia|].
  destruct (N.eqb_spec b0 0xE2); [lia|].
  destruct (N.eqb_spec b0 0xE3); [lia | done].
Qed.

Lemma isSpace2_low_last (b0 b1 : N) : b1 < 128 → Strings.isSpace2 b0 b1 = false.
Proof.
  intros H. unfold Strings.isSpace2.
  destruct (N.eqb_spec b1 0x85); [lia|].
  destruct (N.eqb_spec b1 0xA0); [lia|]. apply andb_false_r.
Qed.

Lemma isSpace3_low_last (b0 b1 b2 : N) :
  b2 < 128 → Strings.isSpace3 b0 b1 b2 = false.
Proof.
  intros H. unfold Strings.isSpace3.
  destruct (N.eqb_spec b2 0x80); [lia|].
  destruct (N.eqb_spec b2 0xA8); [lia|].
  destruct (N.eqb_spec b2 0xA9); [lia|].
  destruct (N.eqb_spec b2 0xAF); [lia|].
  destruct (N.eqb_spec b2 0x9F); [lia|].
  destruct (N.leb_spec 0x80 b2); [lia|].
  by rewrite !andb_false_r.
Qed.

Lemma trimLeft_plain (c : ascii) (s : string) :
  plainByte c → Strings.trimLeft (String c s) = String c s.
Proof.
  intros [Hlow Hsp]. simpl. rewrite Hsp.
  destruct s as [|c1 s]; [done|]. rewrite isSpace2_low_lead by done.
  destruct s as [|c2 s]; [done|]. by rewrite isSpace3_low_lead.
Qed.

Lemma trimLeftRev_plain (c : ascii) (s : string) :
  plainByte c → Strings.trimLeftRev (String c s) = String c s.
Proof.
  intros [Hlow Hsp]. simpl. rewrite Hsp.
  destruct s as [|c1 s]; [done|]. rewrite isSpace2_low_last by done.
  destruct s as [|c2 s]; [done|]. by rewrite isSpace3_low_last.
Qed.

Lemma TrimSpace_plain (c d : ascii) (s : string) :
  plainByte c → plainByte d →
  Strings.TrimSpace (String c (s +:+ String d ""))
  = String c (s +:+ String d "").
Proof.
  intros Hc Hd. unfold Strings.TrimSpace, Strings.trimRight.
  rewrite trimLeft_plain by done.
  rewrite <- app_cons, rev_snoc, trimLeftRev_plain by done.
  by rewrite <- rev_snoc, rev_involutive.
Qed.

(** ** The line that is written *)

Lemma HasPrefix_nil (s : string) : Strings.HasPrefix s "" = true.
Proof. by destruct s. Qed.

Lemma HasPrefix_app_l (s t prefix : string) :
  Strings.HasPrefix s prefix = true →
  Strings.HasPrefix (s +:+ t) prefix = true.
Proof.
  revert s. induction prefix as [|c prefix IH]; intros s.
  { intros _. apply HasPrefix_nil. }
  destruct s as [|d s]; [done|]. rewrite app_cons. simpl.
  intros [-> H]%andb_prop. simpl. by apply IH.
Qed.

Lemma issuePrefixLine_shape (prefix : string) :
  issuePrefixLine prefix
  = String "i" (("ssue-prefix: "
                 +:+ String dquote (Strconv.quoteLoop isPrintTable 0 prefix))
                +:+ String dquote "").
Proof.
  unfold issuePrefixLine, Strconv.Quote.
  change "issue-prefix: " with (String "i" "ssue-prefix: ").
  by rewrite app_cons, app_assoc, app_cons.
Qed.

Lemma issuePrefixLine_trim (prefix : string) :
  Strings.TrimSpace (issuePrefixLine prefix) = issuePrefixLine prefix.
Proof.
  rewrite issuePrefixLine_shape. apply TrimSpace_plain; by split.
Qed.

Lemma issuePrefixLine_match (prefix : string) :
  isIssuePrefixLine (issuePrefixLine prefix) = true.
Proof.
  unfold isIssuePrefixLine. rewrite issuePrefixLine_trim.
  unfold issuePrefixLine. rewrite HasPrefix_app_l by done. done.
Qed.

Lemma issuePrefixLine_no_nl (prefix : string) :
  Strings.containsByte (issuePrefixLine prefix) nl = false.
Proof.
  unfold issuePrefixLine. by rewrite containsByte_app, Quote_no_nl.
Qed.

Lemma issuePrefixLine_not_empty (prefix : string) : issuePrefixLine prefix ≠ "".
Proof. by rewrite issuePrefixLine_shape. Qed.

(** ** The scanning loop *)

Lemma replaceFirst_found (new l : string) (pre post : list string) :
  Forall (λ x, isIssuePrefixLine x = false) pre →
  isIssuePrefixLine l = true →
  replaceFirst new (pre ++ l :: post) = (pre ++ new :: post, true).
Proof.
  intros Hpre Hl. induction Hpre as [|x pre Hx _ IH]; simpl.
  - by rewrite Hl.
  - by rewrite Hx, IH.
Qed.

Lemma replaceFirst_absent (new : string) (lines : list string) :
  Forall (λ x, isIssuePrefixLine x = false) lines →
  replaceFirst new lines = (lines, false).
Proof.
  induction 1 as [|x lines Hx _ IH]; simpl; [done|]. by rewrite Hx, IH.
Qed.

(** Either no line matches, or the lines split at the first match. *)
Lemma first_match_split (lines : list string) :
  Forall (λ x, isIssuePrefixLine x = false) lines
  ∨ ∃ pre l post,
      lines = pre ++ l :: post
      ∧ Forall (λ x, isIssuePrefixLine x = false) pre
      ∧ isIssuePrefixLine l = true.
Proof.
  induction lines as [|x lines IH]; [by left|].
  destruct (isIssuePrefixLine x) eqn:Hx.
  - right. by exists [], x, lines.
  - destruct IH as [IH | (pre & l & post & -> & Hpre & Hl)].
    + left. by constructor.
    + right. exists (x :: pre), l, post. split; [done|]. split; [|done].
      by constructor.
Qed.

Lemma linesOf_not_empty (content : string) :
  content ≠ "" → linesOf content = Strings.Split content nl.
Proof. intros H. unfold linesOf. by apply String.eqb_neq in H as ->. Qed.

Lemma linesOf_fields (content : string) :
  Forall (λ f, Strings.containsByte f nl = false) (linesOf content).
Proof.
  unfold linesOf. destruct (String.eqb content ""); [done|]. apply Split_fields.
Qed.

Lemma Join_linesOf (content : string) :
  Strings.Join (linesOf content) nl = content.
Proof.
  unfold linesOf. destruct (String.eqb_spec content "") as [->|_]; [done|].
  apply Join_Split.
Qed.

(** ** What [updateContent] writes, case by case *)

Lemma updateContent_found (prefix content l : string) (pre post : list string) :
  linesOf content = pre ++ l :: post →
  Forall (λ x, isIssuePrefixLine x = false) pre →
  isIssuePrefixLine l = true →
  updateContent prefix content
  = Strings.Join (pre ++ issuePrefixLine prefix :: post) nl.
Proof.
  intros Hlines Hpre Hl. unfold updateContent.
  by rewrite Hlines, replaceFirst_found.
Qed.

Lemma updateContent_absent (prefix content : string) :
  Forall (λ x, isIssuePrefixLine x = false) (linesOf content) →
  content ≠ "" →
  updateContent prefix content
  = issuePrefixLine prefix +:+ String nl (String nl content).
Proof.
  intros Hno Hne. unfold updateContent.
  rewrite replaceFirst_absent by done.
  pose proof (Join_linesOf content) as HJ.
  rewrite linesOf_not_empty in * by done.
  pose proof (Split_not_nil content nl) as Hnil.
  destruct (Strings.Split content nl) as [|f fs'] eqn:E; [done|].
  cbn [length Nat.ltb Nat.leb].
  rewrite Join_cons by done. rewrite Join_cons by done.
  by rewrite HJ.
Qed.

Lemma updateContent_empty (prefix : string) :
  updateContent prefix "" = issuePrefixLine prefix.
Proof. reflexivity. Qed.

(** The written content always has the new line after lines that do not
    match, and splits back into exactly those lines. *)
Lemma updateContent_shape (prefix content : string) :
  ∃ pre post,
    Forall (λ x, isIssuePrefixLine x = false) pre
    ∧ Forall (λ f, Strings.containsByte f nl = false) (pre ++ post)
    ∧ updateContent prefix content
      = Strings.Join (pre ++ issuePrefixLine prefix :: post) nl.
Proof.
  destruct (first_match_split (linesOf content))
    as [Hno | (pre & l & post & Hlines & Hpre & Hl)].
  - destruct (String.eqb_spec content "") as [->|Hne].
    + by exists [], [].
    + exists [], ("" :: linesOf content). split; [done|]. split.
      * constructor; [done | apply linesOf_fields].
      * rewrite updateContent_absent by done.
        rewrite linesOf_not_empty by done.
        pose proof (Split_not_nil content nl).
        change ([] ++ ?x :: ?l) with (x :: l).
        rewrite Join_cons by done. rewrite Join_cons by done.
        by rewrite Join_Split.
  - exists pre, post. split; [done|]. split.
    + pose proof (linesOf_fields content) as Hf. rewrite Hlines in Hf.
      apply Forall_app in Hf as [Hf1 Hf2]. apply Forall_app. split; [done|].
      by inversion Hf2.
    + by apply updateContent_found with (l := l).
Qed.

Lemma updateContent_fixpoint (prefix : string) (pre post : list string) :
  Forall (λ x, isIssuePrefixLine x = false) pre →
  Forall (λ f, Strings.containsByte f nl = false) (pre ++ post) →
  updateContent prefix
    (Strings.Join (pre ++ issuePrefixLine prefix :: post) nl)
  = Strings.Join (pre ++ issuePrefixLine prefix :: post) nl.
Proof.
  intros Hpre Hf.
  apply updateContent_found with (l := issuePrefixLine prefix);
    [|done|apply issuePrefixLine_match].
  rewrite linesOf_not_empty.
  - apply Split_Join; [by destruct pre|].
    apply Forall_app in Hf as [Hf1 Hf2]. apply Forall_app. split; [done|].
    constructor; [apply issuePrefixLine_no_nl | done].
  - apply Join_not_empty with (e := issuePrefixLine prefix).
    + apply elem_of_app. right. apply elem_of_cons. by left.
    + apply issuePrefixLine_not_empty.
Qed.

Lemma updateContent_idempotent (prefix content : string) :
  updateContent prefix (updateContent prefix content)
  = updateContent prefix content.
Proof.
  destruct (updateContent_shape prefix content) as (pre & post & H1 & H2 & ->).
  by apply updateContent_fixpoint.
Qed.

(** ** [SetIssuePrefix] on the world *)

Lemma tmp_ne_config (beadsDir : Path) :
  Filepath.addSuffix (Filepath.Join beadsDir "config.yaml") ".tmp"
  ≠ Filepath.Join beadsDir "config.yaml".
Proof. by intros [=]. Qed.

Lemma findBeadsDir_ext (w w' : World) (dir : Path) :
  (∀ d, fs w' !! Filepath.Join d ".beads" = fs w !! Filepath.Join d ".beads") →
  findBeadsDir w' dir = findBeadsDir w dir.
Proof.
  intros Hfs. induction dir as [|x dir IH]; [done|].
  simpl. unfold Os.Stat. by rewrite Hfs, IH.
Qed.

Lemma findBeadsDir_found (w : World) (dir beadsDir : Path) :
  findBeadsDir w dir = Some beadsDir →
  ∃ d, beadsDir = Filepath.Join d ".beads" ∧ fs w !! beadsDir = Some Directory.
Proof.
  induction dir as [|x dir IH]; [done|]. simpl. unfold Os.Stat.
  destruct (fs w !! Filepath.Join (x :: dir) ".beads") as [[|data]|] eqn:E;
    simpl; [|by apply IH..].
  intros [= <-]. by exists (x :: dir).
Qed.

Lemma setFs_same (w : World) : setFs (fs w) w = w.
Proof. by destruct w. Qed.

Lemma setFs_setFs (m m' : gmap Path Node) (w : World) :
  setFs m (setFs m' w) = setFs m w.
Proof. reflexivity. Qed.

(** A write, failed or not, changes at most the file tree, and there at
    most the path written, which then holds a regular file. *)
Lemma WriteFile_setFs (p : Path) (data : string) (w : World) :
  fst (Os.WriteFile p data w) = setFs (fs (fst (Os.WriteFile p data w))) w.
Proof.
  unfold Os.WriteFile. destruct (Os.isDir _); [by rewrite setFs_same|].
  destruct (writeFault w); [|done].
  destruct (partialWrite w); [done | by rewrite setFs_same].
Qed.

Lemma WriteFile_fs (p : Path) (data : string) (w : World) :
  fs (fst (Os.WriteFile p data w)) = fs w
  ∨ Os.isDir (fs w !! p) = false
    ∧ ∃ x, fs (fst (Os.WriteFile p data w)) = <[p := File x]> (fs w).
Proof.
  unfold Os.WriteFile. destruct (Os.isDir _); [by left|].
  destruct (writeFault w); [|right; split; [done | by eexists]].
  destruct (partialWrite w); [right; split; [done | by eexists] | by left].
Qed.

Lemma Remove_setFs (p : Path) (w : World) :
  Os.Remove p w = setFs (fs (Os.Remove p w)) w.
Proof.
  unfold Os.Remove. destruct (removeFault w); [by rewrite setFs_same | done].
Qed.

Lemma Remove_of_setFs (p : Path) (m : gmap Path Node) (w : World) :
  Os.Remove p (setFs m w)
  = setFs (if removeFault w then m else delete p m) w.
Proof. unfold Os.Remove. cbn [removeFault setFs fs]. by destruct (removeFault w). Qed.

Lemma Remove_fs (p : Path) (w : World) :
  fs (Os.Remove p w) = if removeFault w then fs w else delete p (fs w).
Proof. unfold Os.Remove. by destruct (removeFault w). Qed.

(** The body of [SetIssuePrefix] once the directory is found, with the
    file-system updates composed. *)
Lemma SetIssuePrefix_found (prefix : string) (w : World) (cwd beadsDir : Path) :
  prefix ≠ "" →
  getwd w = Some cwd →
  findBeadsDir w cwd = Some beadsDir →
  let configPath := Filepath.Join beadsDir "config.yaml" in
  let tmpPath := Filepath.addSuffix configPath ".tmp" in
  let content' :=
    updateContent prefix (default "" (Os.ReadFile w configPath)) in
  SetIssuePrefix prefix w
  = if writeFault w || Os.isDir (fs w !! tmpPath)
    then (fst (Os.WriteFile tmpPath content' w), Some ErrWriteTemp)
    else if renameFault w || Os.isDir (fs w !! configPath)
    then (Os.Remove tmpPath (setFs (<[tmpPath := File content']> (fs w)) w),
          Some ErrUpdateConfig)
    else (Set_ "issue-prefix" (VString prefix)
            (setFs (<[configPath := File content']> (delete tmpPath (fs w))) w),
          None).
Proof.
  intros Hp Hwd Hbd configPath tmpPath content'.
  pose proof (tmp_ne_config beadsDir) as Hne.
  unfold SetIssuePrefix. apply String.eqb_neq in Hp. rewrite Hp, Hwd, Hbd.
  fold configPath. fold tmpPath. fold content'.
  unfold Os.WriteFile.
  destruct (Os.isDir (fs w !! tmpPath)); [by rewrite orb_true_r|].
  rewrite orb_false_r.
  destruct (writeFault w); [by destruct (partialWrite w)|].
  unfold Os.Rename. cbn [renameFault setFs fs].
  destruct (renameFault w); [done|].
  rewrite lookup_insert_eq. rewrite lookup_insert_ne by done. cbn [orb].
  destruct (Os.isDir (fs w !! configPath)); [done|].
  cbn [setFs fs getwd userConfigDir userHomeDir environ writeFault
       partialWrite renameFault removeFault v].
  by rewrite delete_insert_eq.
Qed.

Lemma Set_twice (key : string) (value : Value) (w : World) :
  Set_ key value (Set_ key value w) = Set_ key value w.
Proof.
  unfold Set_. destruct (v w) as [vp|] eqn:E; simpl; [|by rewrite E].
  unfold setV, Viper.Set_. simpl. by rewrite insert_insert_eq.
Qed.

Lemma findBeadsDir_Set (key : string) (value : Value) (w : World) (dir : Path) :
  findBeadsDir (Set_ key value w) dir = findBeadsDir w dir.
Proof.
  apply findBeadsDir_ext. intros d. unfold Set_. by destruct (v w).
Qed.

Lemma findBeadsDir_setFs (m : gmap Path Node) (w : World) (dir : Path) :
  (∀ d, m !! Filepath.Join d ".beads" = fs w !! Filepath.Join d ".beads") →
  findBeadsDir (setFs m w) dir = findBeadsDir w dir.
Proof. intros H. by apply findBeadsDir_ext. Qed.

Lemma getwd_Set (key : string) (value : Value) (w : World) :
  getwd (Set_ key value w) = getwd w.
Proof. unfold Set_. by destruct (v w). Qed.

Lemma fs_Set (key : string) (value : Value) (w : World) :
  fs (Set_ key value w) = fs w.
Proof. unfold Set_. by destruct (v w). Qed.

Lemma writeFault_Set (key : string) (value : Value) (w : World) :
  writeFault (Set_ key value w) = writeFault w.
Proof. unfold Set_. by destruct (v w). Qed.

Lemma renameFault_Set (key : string) (value : Value) (w : World) :
  renameFault (Set_ key value w) = renameFault w.
Proof. unfold Set_. by destruct (v w). Qed.

Lemma SetIssuePrefix_no_getwd (prefix : string) (w : World) :
  prefix ≠ "" → getwd w = None →
  SetIssuePrefix prefix w = (w, Some ErrGetwd).
Proof.
  intros Hp%String.eqb_neq Hwd. unfold SetIssuePrefix. by rewrite Hp, Hwd.
Qed.

Lemma SetIssuePrefix_no_beads (prefix : string) (w : World) (cwd : Path) :
  prefix ≠ "" → getwd w = Some cwd → findBeadsDir w cwd = None →
  SetIssuePrefix prefix w = (Set_ "issue-prefix" (VString prefix) w, None).
Proof.
  intros Hp%String.eqb_neq Hwd Hbd. unfold SetIssuePrefix.
  by rewrite Hp, Hwd, Hbd.
Qed.

Lemma Set_overwrite (key : string) (x y : Value) (w : World) :
  Set_ key y (Set_ key x w) = Set_ key y w.
Proof.
  unfold Set_. destruct (v w) as [vp|] eqn:E; simpl; [|by rewrite E].
  unfold setV, Viper.Set_. simpl. by rewrite insert_insert_eq.
Qed.

Lemma Set_setFs (key : string) (value : Value) (m : gmap Path Node)
      (w : World) :
  Set_ key value (setFs m w) = setFs m (Set_ key value w).
Proof. unfold Set_. cbn [setFs v]. by destruct (v w). Qed.

Lemma ReadFile_setFs (m : gmap Path Node) (w : World) (p : Path) :
  m !! p = fs w !! p → Os.ReadFile (setFs m w) p = Os.ReadFile w p.
Proof. intros H. unfold Os.ReadFile. cbn [setFs fs]. by rewrite H. Qed.

(** The body of [SetIssuePrefix] on a world whose tree was changed
    outside the [.beads] directories and the config file. *)
Lemma SetIssuePrefix_found_setFs (prefix : string) (w : World)
      (cwd beadsDir : Path) (m : gmap Path Node) :
  prefix ≠ "" →
  getwd w = Some cwd →
  findBeadsDir w cwd = Some beadsDir →
  (∀ d, m !! Filepath.Join d ".beads" = fs w !! Filepath.Join d ".beads") →
  m !! Filepath.Join beadsDir "config.yaml"
  = fs w !! Filepath.Join beadsDir "config.yaml" →
  let configPath := Filepath.Join beadsDir "config.yaml" in
  let tmpPath := Filepath.addSuffix configPath ".tmp" in
  let content' :=
    updateContent prefix (default "" (Os.ReadFile w configPath)) in
  SetIssuePrefix prefix (setFs m w)
  = if writeFault w || Os.isDir (m !! tmpPath)
    then (fst (Os.WriteFile tmpPath content' (setFs m w)), Some ErrWriteTemp)
    else if renameFault w || Os.isDir (fs w !! configPath)
    then (Os.Remove tmpPath (setFs (<[tmpPath := File content']> m) w),
          Some ErrUpdateConfig)
    else (Set_ "issue-prefix" (VString prefix)
            (setFs (<[configPath := File content']> (delete tmpPath m)) w),
          None).
Proof.
  intros Hp Hwd Hbd Hbeads Hcfg. cbv zeta.
  rewrite (SetIssuePrefix_found prefix (setFs m w) cwd beadsDir);
    [|done|done|by rewrite findBeadsDir_setFs].
  cbv zeta. rewrite ReadFile_setFs by done.
  cbn [setFs fs writeFault renameFault]. by rewrite Hcfg.
Qed.

(** A second call sees the first only through the content the first one
    wrote. *)
Lemma SetIssuePrefix_again (p q : string) (w : World) :
  q ≠ "" →
  (∀ content,
     updateContent q (updateContent p content) = updateContent q content) →
  SetIssuePrefix q (fst (SetIssuePrefix p w)) = SetIssuePrefix q w.
Proof.
  intros Hq Hupd.
  destruct (String.eqb_spec p "") as [->|Hp]; [done|].
  destruct (getwd w) as [cwd|] eqn:Hwd.
  2:{ by rewrite (SetIssuePrefix_no_getwd p w) by done. }
  destruct (findBeadsDir w cwd) as [beadsDir|] eqn:Hbd.
  2:{ rewrite (SetIssuePrefix_no_beads p w cwd) by done. cbn [fst].
      rewrite (SetIssuePrefix_no_beads q _ cwd);
        [|done|by rewrite getwd_Set|by rewrite findBeadsDir_Set].
      rewrite (SetIssuePrefix_no_beads q w cwd) by done.
      by rewrite Set_overwrite. }
  destruct (findBeadsDir_found _ _ _ Hbd) as (d & -> & Hdir).
  set (beadsDir := Filepath.Join d ".beads") in *.
  pose proof (tmp_ne_config beadsDir) as Hne.
  rewrite (SetIssuePrefix_found p w cwd beadsDir) by done.
  rewrite (SetIssuePrefix_found q w cwd beadsDir) by done.
  cbv zeta.
  set (configPath := Filepath.Join beadsDir "config.yaml") in *.
  set (tmpPath := Filepath.addSuffix configPath ".tmp") in *.
  set (content := default "" (Os.ReadFile w configPath)).
  assert (∀ x d', (<[tmpPath := x]> (fs w) : gmap Path Node)
                    !! Filepath.Join d' ".beads"
                  = fs w !! Filepath.Join d' ".beads") as Hins.
  { intros x d'. by rewrite lookup_insert_ne. }
  assert (∀ d', (delete tmpPath (fs w) : gmap Path Node)
                  !! Filepath.Join d' ".beads"
                = fs w !! Filepath.Join d' ".beads") as Hdel.
  { intros d'. by rewrite lookup_delete_ne. }
  destruct (Os.isDir (fs w !! tmpPath)) eqn:Htmp.
  { rewrite !orb_true_r. unfold Os.WriteFile. rewrite Htmp. cbn [fst].
    rewrite (SetIssuePrefix_found q w cwd beadsDir) by done. cbv zeta.
    fold configPath. fold tmpPath. rewrite Htmp, orb_true_r.
    unfold Os.WriteFile. by rewrite Htmp. }
  rewrite !orb_false_r.
  destruct (writeFault w) eqn:Hwf.
  { unfold Os.WriteFile. rewrite Htmp, Hwf.
    destruct (partialWrite w) as [n|] eqn:Hpw; cbn [fst].
    - rewrite (SetIssuePrefix_found_setFs q w cwd beadsDir);
        [|done|done|done|done|by rewrite lookup_insert_ne].
      cbv zeta. fold configPath. fold tmpPath. rewrite Hwf. cbn [orb].
      unfold Os.WriteFile. cbn [setFs fs writeFault partialWrite].
      rewrite lookup_insert_eq, Hwf, Hpw. cbn [Os.isDir fst].
      by rewrite insert_insert_eq.
    - rewrite (SetIssuePrefix_found q w cwd beadsDir) by done. cbv zeta.
      fold configPath. fold tmpPath.
      rewrite Hwf. cbn [orb]. unfold Os.WriteFile. by rewrite Htmp, Hwf, Hpw. }
  destruct (renameFault w || Os.isDir (fs w !! configPath)) eqn:Hrn.
  - cbn [fst]. rewrite !Remove_of_setFs.
    destruct (removeFault w) eqn:Hrm.
    + rewrite (SetIssuePrefix_found_setFs q w cwd beadsDir);
        [|done|done|done|done|by rewrite lookup_insert_ne].
      cbv zeta. fold configPath. fold tmpPath.
      rewrite Hwf, lookup_insert_eq, Hrn. cbn [orb Os.isDir].
      rewrite Remove_of_setFs, Hrm. by rewrite insert_insert_eq.
    + rewrite !delete_insert_eq.
      rewrite (SetIssuePrefix_found_setFs q w cwd beadsDir);
        [|done|done|done|done|by rewrite lookup_delete_ne].
      cbv zeta. fold configPath. fold tmpPath.
      rewrite Hwf, lookup_delete_eq, Hrn. cbn [orb Os.isDir].
      rewrite Remove_of_setFs, Hrm.
      by rewrite delete_insert_eq, delete_delete_eq.
  - cbn [fst].
    assert (∀ m x d',
      (<[configPath := x]> (delete tmpPath m) : gmap Path Node)
        !! Filepath.Join d' ".beads" = m !! Filepath.Join d' ".beads") as Hkeep.
    { intros m x d'. rewrite lookup_insert_ne by done.
      by rewrite lookup_delete_ne. }
    rewrite (SetIssuePrefix_found q _ cwd beadsDir);
      [|done|by rewrite getwd_Set
       |by rewrite findBeadsDir_Set, findBeadsDir_setFs].
    cbv zeta. fold configPath. fold tmpPath.
    rewrite writeFault_Set, renameFault_Set, fs_Set.
    cbn [setFs fs writeFault renameFault].
    rewrite Hwf. rewrite lookup_insert_ne by done.
    rewrite lookup_delete_eq. cbn [orb Os.isDir].
    rewrite lookup_insert_eq.
    apply orb_false_elim in Hrn as [-> _]. cbn [orb Os.isDir].
    unfold Os.ReadFile at 1. rewrite fs_Set. cbn [setFs fs].
    rewrite lookup_insert_eq. cbn [from_option]. unfold id at 1.
    fold content. rewrite Hupd.
    rewrite delete_insert_ne by done. rewrite delete_delete_eq.
    rewrite insert_insert_eq.
    unfold Set_, setFs. destruct (v w) as [vp|]; cbn; [|done].
    unfold Viper.Set_. cbn. by rewrite insert_insert_eq.
Qed.

Lemma SetIssuePrefix_twice_world (prefix : string) (w : World) :
  SetIssuePrefix prefix (fst (SetIssuePrefix prefix w))
  = SetIssuePrefix prefix w.
Proof.
  destruct (String.eqb_spec prefix "") as [->|Hp]; [done|].
  apply SetIssuePrefix_again; [done|].
  intros content. apply updateContent_idempotent.
Qed.

Lemma SetIssuePrefix_success_prefix (prefix : string) (w w' : World) :
  SetIssuePrefix prefix w = (w', None) → prefix ≠ "".
Proof. intros H ->. discriminate H. Qed.

(** On success with a [.beads] directory, the config file holds the
    updated content. *)
Lemma SetIssuePrefix_written (prefix : string) (w w' : World)
      (cwd beadsDir : Path) :
  getwd w = Some cwd →
  findBeadsDir w cwd = Some beadsDir →
  SetIssuePrefix prefix w = (w', None) →
  Os.ReadFile w' (Filepath.Join beadsDir "config.yaml")
  = Some (updateContent prefix
            (default "" (Os.ReadFile w (Filepath.Join beadsDir "config.yaml")))).
Proof.
  intros Hwd Hbd Hok.
  pose proof (SetIssuePrefix_success_prefix _ _ _ Hok) as Hp.
  rewrite (SetIssuePrefix_found prefix w cwd beadsDir) in Hok by done.
  cbv zeta in Hok.
  destruct (writeFault w || _); [discriminate Hok|].
  destruct (renameFault w || _); [discriminate Hok|].
  injection Hok as <-. unfold Os.ReadFile at 1. rewrite fs_Set.
  cbn [setFs fs]. by rewrite lookup_insert_eq.
Qed.

(** * The claims *)

(** C1.  When the configuration already resolves a non-empty issue prefix,
    [MigrateConfigToYAML] returns [nil] at once: no query is sent to the
    database and the world, with the config file in it, is exactly as
    before, whatever the database holds. *)
Theorem migrate_keeps_existing_prefix (db : DB) (w : World) :
  GetIssuePrefix w ≠ "" →
  MigrateConfigToYAML db w = (w, [], None).
Proof.
  intros H%String.eqb_neq. unfold MigrateConfigToYAML. by rewrite H.
Qed.

(** C2.  Writing the same prefix twice is idempotent: the content computed
    from the content of the first call is that same content, and the second
    call leaves the world, every file byte for byte, and the result of the
    first call. *)
Theorem SetIssuePrefix_idempotent (prefix : string) (w : World) :
  prefix ≠ "" →
  (∀ content,
     updateContent prefix (updateContent prefix content)
     = updateContent prefix content)
  ∧ SetIssuePrefix prefix (fst (SetIssuePrefix prefix w))
    = SetIssuePrefix prefix w.
Proof.
  intros _. split.
  - intros content. apply updateContent_idempotent.
  - apply SetIssuePrefix_twice_world.
Qed.

(** C3, amended.  After a successful [SetIssuePrefix] on a project with a
    [.beads] directory the config file reads as follows.  If a line
    matches, the lines are those of the old file with the first matching
    line replaced by the new declaration, all others verbatim and in place.
    If no line matches and the old content is not empty, the new
    declaration and one empty line are put in front of the old content.  If
    the old content is empty (or the file was missing), the file is the new
    declaration alone, with no separator. *)
Theorem SetIssuePrefix_preserves_other_lines
        (prefix : string) (w w' : World) (cwd beadsDir : Path) :
  getwd w = Some cwd →
  findBeadsDir w cwd = Some beadsDir →
  SetIssuePrefix prefix w = (w', None) →
  let configPath := Filepath.Join beadsDir "config.yaml" in
  let content := default "" (Os.ReadFile w configPath) in
  ∃ content',
    Os.ReadFile w' configPath = Some content'
    ∧ (∀ pre l post,
         linesOf content = pre ++ l :: post →
         Forall (λ x, isIssuePrefixLine x = false) pre →
         isIssuePrefixLine l = true →
         linesOf content' = pre ++ issuePrefixLine prefix :: post)
    ∧ (Forall (λ x, isIssuePrefixLine x = false) (linesOf content) →
       content ≠ "" →
       content' = issuePrefixLine prefix +:+ String nl (String nl content))
    ∧ (content = "" → content' = issuePrefixLine prefix).
Proof.
  intros Hwd Hbd Hok configPath content.
  exists (updateContent prefix content).
  split; [by apply (SetIssuePrefix_written prefix w w' cwd)|].
  split; [|split].
  - intros pre l post Hlines Hpre Hl.
    rewrite (updateContent_found prefix content l pre post) by done.
    pose proof (linesOf_fields content) as Hf. rewrite Hlines in Hf.
    apply Forall_app in Hf as [Hf1 Hf2]. inversion Hf2; subst.
    rewrite linesOf_not_empty.
    + apply Split_Join; [by destruct pre|]. apply Forall_app.
      split; [done|]. constructor; [apply issuePrefixLine_no_nl | done].
    + apply Join_not_empty with (e := issuePrefixLine prefix);
        [apply elem_of_app; right; apply elem_of_cons; by left
        |apply issuePrefixLine_not_empty].
  - apply updateContent_absent.
  - intros ->. apply updateContent_empty.
Qed.

(** C4.  A line whose trimmed text starts with the comment sign is never
    a match.  For the file with the commented declaration followed by
    [json: true], a successful [SetIssuePrefix] with prefix [active] writes
    the new declaration and an empty line in front and keeps both old
    lines. *)
Theorem commented_declaration_is_kept
        (w w' : World) (cwd beadsDir : Path) :
  getwd w = Some cwd →
  findBeadsDir w cwd = Some beadsDir →
  Os.ReadFile w (Filepath.Join beadsDir "config.yaml") = Some commentedConfig →
  SetIssuePrefix "active" w = (w', None) →
  (∀ line,
     isIssuePrefixLine line
     && Strings.HasPrefix (Strings.TrimSpace line) "#" = false)
  ∧ ∃ out,
      Os.ReadFile w' (Filepath.Join beadsDir "config.yaml") = Some out
      ∧ out = activeDeclaration
              +:+ String nl (String nl commentedConfig)
      ∧ activeDeclaration ∈ linesOf out
      ∧ commentedDeclaration ∈ linesOf out.
Proof.
  intros Hwd Hbd Hread Hok. split.
  - intros line. unfold isIssuePrefixLine.
    by destruct (Strings.HasPrefix (Strings.TrimSpace line) "#");
      rewrite ?andb_false_r.
  - eexists. split.
    + rewrite (SetIssuePrefix_written "active" w w' cwd beadsDir) by done.
      rewrite Hread. reflexivity.
    + repeat split; in_list.
Qed.

(** C8.  The empty prefix is refused before anything is looked up or
    written: the result is the validation error and the world is
    untouched. *)
Theorem SetIssuePrefix_empty_prefix (w : World) :
  SetIssuePrefix "" w = (w, Some ErrEmptyPrefix).
Proof. reflexivity. Qed.

(** C9.  With two or more matching lines only the first is rewritten:
    the lines before it, the lines between it and any later matching line,
    that later line and everything after it are the lines of the new
    file, verbatim and in place. *)
Theorem SetIssuePrefix_rewrites_first_match_only
        (prefix content first later : string) (pre mid post : list string)
        (w w' : World) (cwd beadsDir : Path) :
  getwd w = Some cwd →
  findBeadsDir w cwd = Some beadsDir →
  Os.ReadFile w (Filepath.Join beadsDir "config.yaml") = Some content →
  linesOf content = pre ++ first :: mid ++ later :: post →
  Forall (λ x, isIssuePrefixLine x = false) pre →
  isIssuePrefixLine first = true →
  isIssuePrefixLine later = true →
  SetIssuePrefix prefix w = (w', None) →
  ∃ content',
    Os.ReadFile w' (Filepath.Join beadsDir "config.yaml") = Some content'
    ∧ linesOf content'
      = pre ++ issuePrefixLine prefix :: mid ++ later :: post.
Proof.
  intros Hwd Hbd Hread Hlines Hpre Hfirst _ Hok.
  exists (updateContent prefix content). split.
  - rewrite (SetIssuePrefix_written prefix w w' cwd beadsDir) by done.
    by rewrite Hread.
  - rewrite (updateContent_found prefix content first pre
               (mid ++ later :: post)) by done.
    pose proof (linesOf_fields content) as Hf. rewrite Hlines in Hf.
    apply Forall_app in Hf as [Hf1 Hf2]. inversion Hf2; subst.
    rewrite linesOf_not_empty.
    + apply Split_Join; [by destruct pre|]. apply Forall_app.
      split; [done|]. constructor; [apply issuePrefixLine_no_nl | done].
    + apply Join_not_empty with (e := issuePrefixLine prefix);
        [apply elem_of_app; right; apply elem_of_cons; by left
        |apply issuePrefixLine_not_empty].
Qed.

(** C10.  Whenever [SetIssuePrefix] returns an error, the singleton is
    the one from before the call, so the resolved issue prefix is
    unchanged.  The error is one of the four the function can produce, and
    with a non-empty prefix and a working directory it can only come from
    the path that found a [.beads] directory: the in-memory-only path
    never fails. *)
Theorem SetIssuePrefix_error_keeps_singleton
        (prefix : string) (w w' : World) (e : error) :
  SetIssuePrefix prefix w = (w', Some e) →
  v w' = v w
  ∧ environ w' = environ w
  ∧ GetIssuePrefix w' = GetIssuePrefix w
  ∧ e ∈ [ErrEmptyPrefix; ErrGetwd; ErrWriteTemp; ErrUpdateConfig]
  ∧ (∀ cwd, prefix ≠ "" → getwd w = Some cwd →
            is_Some (findBeadsDir w cwd)).
Proof.
  intros H.
  assert (v w' = v w ∧ environ w' = environ w
          ∧ e ∈ [ErrEmptyPrefix; ErrGetwd; ErrWriteTemp; ErrUpdateConfig])
    as (Hv & Henv & He).
  { destruct (String.eqb_spec prefix "") as [->|Hp].
    { injection H as <- <-. repeat split; in_list. }
    destruct (getwd w) as [cwd|] eqn:Hwd.
    2:{ rewrite SetIssuePrefix_no_getwd in H by done.
        injection H as <- <-. repeat split; in_list. }
    destruct (findBeadsDir w cwd) as [beadsDir|] eqn:Hbd.
    2:{ by rewrite (SetIssuePrefix_no_beads prefix w cwd) in H. }
    rewrite (SetIssuePrefix_found prefix w cwd beadsDir) in H by done.
    cbv zeta in H.
    destruct (writeFault w || _).
    { injection H as <- <-. rewrite WriteFile_setFs.
      repeat split; in_list. }
    destruct (renameFault w || _); [|discriminate H].
    injection H as <- <-. rewrite Remove_setFs. repeat split; in_list. }
  split; [done|]. split; [done|]. split.
  { unfold GetIssuePrefix, GetString. by rewrite Hv, Henv. }
  split; [done|].
  intros cwd Hp Hwd. destruct (findBeadsDir w cwd) eqn:Hbd; [by eexists|].
  by rewrite (SetIssuePrefix_no_beads prefix w cwd) in H.
Qed.

(** ** [MigrateConfigToYAML] *)

Lemma migrateFound_spec (dbPrefix : string) (w : World) :
  dbPrefix ≠ "" → migrateFound dbPrefix w = fst (SetIssuePrefix dbPrefix w).
Proof. intros H%String.eqb_neq. unfold migrateFound. by rewrite H. Qed.

Local Ltac sent_cases H :=
  repeat (apply elem_of_cons in H as [H|H]; [simplify_eq|]);
  try apply elem_of_nil in H; try done.

(** C5.  [MigrateConfigToYAML] returns an error exactly when one of the
    queries it sent failed with something other than [sql.ErrNoRows].  A
    query that finds no row is treated like one that scanned the empty
    string.  A prefix that was found, in the settings table or through the
    first issue, is written with [SetIssuePrefix], and the result is [nil]
    whatever [SetIssuePrefix] returned. *)
Theorem migrate_error_iff_query_failed
        (db : DB) (w w' : World) (sent : list (Query * ScanResult))
        (err : option error) :
  MigrateConfigToYAML db w = (w', sent, err) →
  (is_Some err ↔ ∃ q msg, (q, ScanError msg) ∈ sent)
  ∧ (∀ q r, (q, r) ∈ sent → r = db q)
  ∧ (fst (fst (MigrateConfigToYAML (noRowsAsEmpty db) w)) = w'
     ∧ snd (MigrateConfigToYAML (noRowsAsEmpty db) w) = err)
  ∧ (∀ p,
       GetIssuePrefix w = "" →
       db SelectConfigIssuePrefix = Scanned p → p ≠ "" →
       w' = fst (SetIssuePrefix p w) ∧ err = None)
  ∧ (∀ id,
       GetIssuePrefix w = "" →
       scannedOrEmpty (db SelectConfigIssuePrefix) = "" →
       (∀ msg, db SelectConfigIssuePrefix ≠ ScanError msg) →
       db SelectFirstIssueID = Scanned id → id ≠ "" →
       ExtractIssuePrefix id ≠ "" →
       w' = fst (SetIssuePrefix (ExtractIssuePrefix id) w) ∧ err = None).
Proof.
  unfold MigrateConfigToYAML, noRowsAsEmpty.
  destruct (String.eqb_spec (GetIssuePrefix w) "") as [Hcfg|Hcfg]; cbn [negb].
  2:{ intros [= <- <- <-]. split; [|split; [|split; [|split]]].
      - split; [by intros [? ?] | by intros (q & msg & H%elem_of_nil)].
      - by intros q r H%elem_of_nil.
      - done.
      - done.
      - done. }
  destruct (db SelectConfigIssuePrefix) as [p| |msg1] eqn:E1;
    cbn [scannedOrEmpty];
    [destruct (String.eqb_spec p "") as [->|Hp] | | ];
    destruct (db SelectFirstIssueID) as [id| |msg2] eqn:E2;
    cbn [scannedOrEmpty String.eqb negb];
    intros [= <- <- <-];
    (split; [|split; [|split; [|split]]]).
  all: try (intros q r H; sent_cases H; congruence).
  all: try (split;
            [by intros [? [=]] | intros (q & msg & H); by sent_cases H]).
  all: try (split;
            [intros _; eexists _, _; apply list_elem_of_In; simpl; eauto
            |by intros _; eexists]).
  all: try done.
  all: intros; simplify_eq; split; [|done].
  all: repeat match goal with
              | H : ?x ≠ "" |- context [String.eqb ?x ""] =>
                rewrite (proj2 (String.eqb_neq x "") H); cbn [negb]
              end.
  all: by rewrite migrateFound_spec.
Qed.

(** ** [Initialize] and the lookup order *)

Lemma configure_file (found : option Path) :
  Viper.configFile (configure found) = found.
Proof. by destruct found. Qed.

Lemma configure_override (found : option Path) :
  Viper.override (configure found) = ∅.
Proof. by destruct found. Qed.

Lemma configure_automaticEnv (found : option Path) :
  Viper.automaticEnvApplied (configure found) = true.
Proof. by destruct found. Qed.

Lemma configure_envPrefix (found : option Path) :
  Viper.envPrefix (configure found) = "BD".
Proof. by destruct found. Qed.

Lemma configure_replacer (found : option Path) :
  Viper.envKeyReplacer (configure found) = Some envKeyReplacer.
Proof. by destruct found. Qed.

Lemma configure_config (found : option Path) :
  Viper.config (configure found) = ∅.
Proof. by destruct found. Qed.

Lemma override_setConfig (c : gmap string Value) (vp : Viper.t) :
  Viper.override (Viper.setConfig c vp) = Viper.override vp.
Proof. reflexivity. Qed.

Lemma automaticEnv_setConfig (c : gmap string Value) (vp : Viper.t) :
  Viper.automaticEnvApplied (Viper.setConfig c vp)
  = Viper.automaticEnvApplied vp.
Proof. reflexivity. Qed.

Lemma envPrefix_setConfig (c : gmap string Value) (vp : Viper.t) :
  Viper.envPrefix (Viper.setConfig c vp) = Viper.envPrefix vp.
Proof. reflexivity. Qed.

Lemma replacer_setConfig (c : gmap string Value) (vp : Viper.t) :
  Viper.envKeyReplacer (Viper.setConfig c vp) = Viper.envKeyReplacer vp.
Proof. reflexivity. Qed.

(** A non-empty value of the automatic variable decides the lookup once
    no explicit override is present. *)
Lemma find_automatic_env (environ : gmap string string) (vp : Viper.t)
      (k value : string) :
  Viper.override vp = ∅ →
  Viper.automaticEnvApplied vp = true →
  Viper.envPrefix vp = "BD" →
  Viper.envKeyReplacer vp = Some envKeyReplacer →
  environ !! Strings.Replace envKeyReplacer
               (Strings.ToUpper ("BD" +:+ "_" +:+ k)) = Some value →
  value ≠ "" →
  Viper.find environ vp k = Some (VString value).
Proof.
  intros Hov Hauto Hpre Hrep Henv Hval. unfold Viper.find.
  rewrite Hov, lookup_empty, Hauto.
  unfold Viper.getEnv, Viper.mergeWithEnvPrefix. rewrite Hpre, Hrep.
  cbn [String.eqb]. rewrite Henv.
  by apply String.eqb_neq in Hval as ->.
Qed.

Lemma setConfig_same (vp : Viper.t) :
  Viper.setConfig (Viper.config vp) vp = vp.
Proof. by destruct vp. Qed.

Lemma Initialize_singleton (w : World) :
  ∃ c, fst (Initialize w)
       = setV (Some (Viper.setConfig c (configure (locateConfig w)))) w.
Proof.
  unfold Initialize. destruct (locateConfig w) as [p|].
  - unfold ReadInConfig. rewrite configure_file.
    destruct (Os.ReadFile w p) as [data|];
      [destruct (yamlUnmarshal data) as [c|]|].
    + exists c. reflexivity.
    + exists (Viper.config (configure (Some p))).
      rewrite setConfig_same. reflexivity.
    + exists (Viper.config (configure (Some p))).
      rewrite setConfig_same. reflexivity.
  - exists (Viper.config (configure None)).
    rewrite setConfig_same. reflexivity.
Qed.

Lemma Initialize_no_file (w : World) :
  locateConfig w = None →
  Initialize w = (setV (Some (configure None)) w, None).
Proof. intros H. unfold Initialize. by rewrite H. Qed.

Lemma Get_setV (w : World) (vp : Viper.t) (key : string) :
  Get (setV (Some vp) w) key = Viper.find (environ w) vp (Strings.ToLower key).
Proof. reflexivity. Qed.

Lemma GetString_cast (w : World) (key : string) :
  GetString w key = Cast.ToString (Get w key).
Proof. unfold GetString, Get. by destruct (v w). Qed.

Lemma GetBool_cast (w : World) (key : string) :
  GetBool w key = Cast.ToBool (Get w key).
Proof. unfold GetBool, Get. by destruct (v w). Qed.

Lemma GetDuration_cast (w : World) (key : string) :
  GetDuration w key = Cast.ToDuration (Get w key).
Proof. unfold GetDuration, Get. by destruct (v w). Qed.

(** The automatic lookup reads the variable named by prefix, key and
    replacer, and skips it when it is empty. *)
Lemma getEnv_automatic (environ : gmap string string) (vp : Viper.t)
      (k : string) :
  Viper.envPrefix vp = "BD" →
  Viper.envKeyReplacer vp = Some envKeyReplacer →
  Viper.getEnv environ vp (Viper.mergeWithEnvPrefix vp k)
  = match environ !! Strings.Replace envKeyReplacer
                       (Strings.ToUpper ("BD" +:+ "_" +:+ k)) with
    | Some val => if String.eqb val "" then None else Some val
    | None => None
    end.
Proof.
  intros Hp Hr. unfold Viper.getEnv, Viper.mergeWithEnvPrefix.
  by rewrite Hp, Hr.
Qed.

Lemma automatic_name (key : string) :
  key ∈ optionNames →
  Strings.Replace envKeyReplacer
    (Strings.ToUpper ("BD" +:+ "_" +:+ Strings.ToLower key))
  = envVarName key.
Proof.
  revert key. apply Forall_forall. unfold optionNames.
  repeat constructor.
Qed.

Lemma lower_optionName (key : string) :
  key ∈ optionNames → Strings.ToLower key = key.
Proof.
  revert key. apply Forall_forall. unfold optionNames.
  repeat constructor.
Qed.

Lemma Get_unset (w : World) (key : string) :
  locateConfig w = None →
  Forall (λ name, environ w !! name = None) defaultEnvNames →
  key ∈ optionNames →
  Get (fst (Initialize w)) key = defaultTable !! key.
Proof.
  intros Hloc Henv Hkey.
  rewrite Initialize_no_file by done. cbn [fst].
  rewrite Get_setV. unfold Viper.find.
  rewrite configure_override, lookup_empty, configure_automaticEnv.
  rewrite getEnv_automatic
    by auto using configure_envPrefix, configure_replacer.
  rewrite automatic_name by done.
  assert (environ w !! envVarName key = None) as ->.
  { rewrite Forall_forall in Henv. apply Henv. unfold defaultEnvNames.
    apply elem_of_app. left. by apply list_elem_of_fmap_2. }
  rewrite configure_config, lookup_empty.
  rewrite lower_optionName by done.
  assert (∀ name, name ∈ legacyEnvNames →
            Viper.getEnv (environ w) (configure None) name = None) as Hleg.
  { intros name Hname.
    assert (environ w !! name = None) as Hn.
    { rewrite Forall_forall in Henv. apply Henv. unfold defaultEnvNames.
      apply elem_of_app. by right. }
    unfold Viper.getEnv. rewrite configure_replacer.
    unfold legacyEnvNames in Hname.
    repeat (apply elem_of_cons in Hname as [->|Hname];
            [vm_compute (Strings.Replace _ _); by rewrite Hn|]).
    by apply elem_of_nil in Hname. }
  unfold optionNames in Hkey.
  repeat (apply elem_of_cons in Hkey as [->|Hkey];
          [vm_compute (default _ _); cbn [Viper.firstEnv];
           rewrite ?Hleg by in_list;
           by vm_compute|]).
  by apply elem_of_nil in Hkey.
Qed.

(** C7.  With no config file in any of the three places and none of the
    variables of the options set, [Initialize] succeeds and every option of
    the default table resolves to its documented default. *)
Theorem defaults_after_Initialize (w : World) :
  locateConfig w = None →
  Forall (λ name, environ w !! name = None) defaultEnvNames →
  let w' := fst (Initialize w) in
  snd (Initialize w) = None
  ∧ (∀ key, key ∈ optionNames → Get w' key = defaultTable !! key)
  ∧ GetBool w' "json" = false
  ∧ GetBool w' "no-daemon" = false
  ∧ GetBool w' "no-auto-flush" = false
  ∧ GetBool w' "no-auto-import" = false
  ∧ GetBool w' "no-db" = false
  ∧ GetString w' "db" = ""
  ∧ GetString w' "actor" = ""
  ∧ GetString w' "issue-prefix" = ""
  ∧ GetDuration w' "flush-debounce" = (30 * Time.Second)%Z
  ∧ GetBool w' "auto-start-daemon" = true.
Proof.
  intros Hloc Henv w'. split.
  { by rewrite Initialize_no_file. }
  split; [intros key Hkey; by apply Get_unset|].
  unfold w'.
  rewrite !GetBool_cast, !GetString_cast, !GetDuration_cast.
  rewrite !Get_unset by (try done; in_list).
  repeat split; by vm_compute.
Qed.

(** * Further properties *)

(** ** [Set] and the getters *)

Lemma firstEnv_Set (environ : gmap string string) (key : string)
      (value : Value) (vp : Viper.t) (names : list string) :
  Viper.firstEnv environ (Viper.Set_ key value vp) names
  = Viper.firstEnv environ vp names.
Proof. induction names as [|n names IH]; [done|]. simpl. by rewrite IH. Qed.

Lemma Get_Set_eq (key key' : string) (value : Value) (w : World) :
  is_Some (v w) →
  Strings.ToLower key' = Strings.ToLower key →
  Get (Set_ key value w) key' = Some value.
Proof.
  intros [vp Hv] Hk. unfold Set_, Get. rewrite Hv. cbn [v setV].
  unfold Viper.Get, Viper.find, Viper.Set_. cbn [Viper.override].
  by rewrite Hk, lookup_insert_eq.
Qed.

Lemma Get_Set_ne (key key' : string) (value : Value) (w : World) :
  Strings.ToLower key' ≠ Strings.ToLower key →
  Get (Set_ key value w) key' = Get w key'.
Proof.
  intros Hk. unfold Set_, Get. destruct (v w) as [vp|] eqn:Hv; [|by rewrite Hv].
  cbn [v setV environ]. unfold Viper.Get, Viper.find.
  rewrite firstEnv_Set.
  unfold Viper.Set_ at 1. cbn [Viper.override].
  rewrite lookup_insert_ne by done.
  reflexivity.
Qed.

(** X1.  What [Set] stores is what the getters read back: on an
    initialised singleton, a key that equals the stored key up to letter
    case resolves to the stored value, whatever the environment, the
    config file and the defaults hold. *)
Theorem Set_then_Get (key key' : string) (value : Value) (w : World) :
  is_Some (v w) →
  Strings.ToLower key' = Strings.ToLower key →
  Get (Set_ key value w) key' = Some value
  ∧ GetString (Set_ key value w) key' = Cast.ToString (Some value)
  ∧ GetBool (Set_ key value w) key' = Cast.ToBool (Some value)
  ∧ GetDuration (Set_ key value w) key' = Cast.ToDuration (Some value).
Proof.
  intros Hv Hk.
  rewrite GetString_cast, GetBool_cast, GetDuration_cast.
  by rewrite (Get_Set_eq key key' value w Hv Hk).
Qed.

(** X2.  [Set] touches one key only.  Among ASCII keys without the
    delimiter, every key that differs from the stored key after
    lower-casing resolves as before; the files and the environment are
    unchanged. *)
Theorem Set_keeps_other_keys (key key' : string) (value : Value) (w : World) :
  plainKey key = true →
  plainKey key' = true →
  Strings.ToLower key' ≠ Strings.ToLower key →
  Get (Set_ key value w) key' = Get w key'
  ∧ fs (Set_ key value w) = fs w
  ∧ environ (Set_ key value w) = environ w.
Proof.
  intros _ _ Hk. split; [by apply Get_Set_ne|].
  unfold Set_. by destruct (v w).
Qed.

(** ** [Initialize] *)

Lemma findProjectConfig_ext (w w' : World) (dir : Path) :
  fs w' = fs w → findProjectConfig w' dir = findProjectConfig w dir.
Proof.
  intros Hfs. induction dir as [|x dir IH]; [done|].
  simpl. unfold Os.Stat. by rewrite Hfs, IH.
Qed.

Lemma locateConfig_setV (v' : option Viper.t) (w : World) :
  locateConfig (setV v' w) = locateConfig w.
Proof.
  unfold locateConfig. cbn [getwd userConfigDir userHomeDir setV].
  unfold Os.Stat. cbn [fs setV].
  destruct (getwd w) as [cwd|]; [|done].
  by rewrite (findProjectConfig_ext w (setV v' w) cwd).
Qed.

Lemma ReadInConfig_setV (v' : option Viper.t) (w : World) (vp : Viper.t) :
  ReadInConfig (setV v' w) vp = ReadInConfig w vp.
Proof. reflexivity. Qed.

Lemma setV_setV (v1 v2 : option Viper.t) (w : World) :
  setV v1 (setV v2 w) = setV v1 w.
Proof. reflexivity. Qed.

Lemma Initialize_setV (v' : option Viper.t) (w : World) :
  Initialize (setV v' w) = Initialize w.
Proof.
  unfold Initialize. rewrite locateConfig_setV.
  destruct (locateConfig w) as [p|].
  - rewrite ReadInConfig_setV.
    destruct (ReadInConfig w (configure (Some p))) as [v17 []];
      by rewrite setV_setV.
  - by rewrite setV_setV.
Qed.

(** X3.  [Initialize] builds the singleton afresh: whatever was stored
    with [Set] before is gone, the outcome is that of [Initialize] without
    the [Set]; and calling [Initialize] a second time gives the world and
    the result of the first call. *)
Theorem Initialize_forgets_Set (key : string) (value : Value) (w : World) :
  Initialize (Set_ key value w) = Initialize w
  ∧ Initialize (fst (Initialize w)) = Initialize w.
Proof.
  split.
  - unfold Set_. destruct (v w) as [vp|]; [|done]. apply Initialize_setV.
  - destruct (Initialize_singleton w) as [c ->]. apply Initialize_setV.
Qed.

(** X4.  [Initialize] touches neither files nor environment and always
    leaves a singleton, also when it fails.  It fails, with the
    config-read error, exactly when a config file was located that is no
    readable regular file or does not decode. *)
Theorem Initialize_outcome (w : World) :
  fs (fst (Initialize w)) = fs w
  ∧ environ (fst (Initialize w)) = environ w
  ∧ is_Some (v (fst (Initialize w)))
  ∧ (snd (Initialize w) = None ∨ snd (Initialize w) = Some ErrReadConfig)
  ∧ (snd (Initialize w) = Some ErrReadConfig
     ↔ ∃ p, locateConfig w = Some p
            ∧ (Os.ReadFile w p ≫= yamlUnmarshal) = None).
Proof.
  unfold Initialize. destruct (locateConfig w) as [p|].
  - unfold ReadInConfig. rewrite configure_file.
    destruct (Os.ReadFile w p) as [data|] eqn:Hr;
      [destruct (yamlUnmarshal data) as [c|] eqn:Hy|];
      cbn [fst snd fs environ v setV];
      (split; [reflexivity|]); (split; [reflexivity|]);
      (split; [eexists; reflexivity|]).
    + split; [by left|]. split; [discriminate|].
      intros (p' & [= <-] & H). rewrite Hr in H. simpl in H. congruence.
    + split; [by right|]. split; [|reflexivity].
      intros _. exists p. split; [reflexivity|]. rewrite Hr. exact Hy.
    + split; [by right|]. split; [|reflexivity].
      intros _. exists p. split; [reflexivity|]. by rewrite Hr.
  - cbn [fst snd fs environ v setV].
    split; [reflexivity|]. split; [reflexivity|].
    split; [eexists; reflexivity|]. split; [by left|].
    split; [discriminate|]. by intros (p & [=] & _).
Qed.

(** ** The lookup order after [Initialize] *)

Lemma env_setConfig (c : gmap string Value) (vp : Viper.t) :
  Viper.env (Viper.setConfig c vp) = Viper.env vp.
Proof. reflexivity. Qed.

Lemma config_setConfig (c : gmap string Value) (vp : Viper.t) :
  Viper.config (Viper.setConfig c vp) = c.
Proof. reflexivity. Qed.

Lemma defaults_setConfig (c : gmap string Value) (vp : Viper.t) :
  Viper.defaults (Viper.setConfig c vp) = Viper.defaults vp.
Proof. reflexivity. Qed.

Lemma configure_bound (found : option Path) :
  Viper.env (configure found)
  = <["auto-start-daemon" := ["BEADS_AUTO_START_DAEMON"]]>
      (<["flush-debounce" := ["BEADS_FLUSH_DEBOUNCE"]]> ∅).
Proof. destruct found; reflexivity. Qed.

Lemma configure_defaultTable (found : option Path) (k : string) :
  Viper.defaults (configure found) !! k = defaultTable !! k.
Proof.
  assert (Viper.defaults (configure found) = defaultTable) as ->; [|done].
  destruct found; reflexivity.
Qed.

Lemma configure_legacy (found : option Path) (k : string) :
  default [] (Viper.env (configure found) !! k) = legacyNames k.
Proof.
  rewrite configure_bound. unfold legacyNames.
  destruct (String.eqb_spec k "auto-start-daemon") as [->|H1].
  { by rewrite lookup_insert_eq. }
  rewrite lookup_insert_ne by done.
  destruct (String.eqb_spec k "flush-debounce") as [->|H2].
  { by rewrite lookup_insert_eq. }
  by rewrite lookup_insert_ne.
Qed.

Lemma Initialize_loaded (w : World) :
  fst (Initialize w)
  = setV (Some (Viper.setConfig (loadedConfig w) (configure (locateConfig w))))
         w.
Proof.
  unfold Initialize, loadedConfig. destruct (locateConfig w) as [p|].
  - unfold ReadInConfig. rewrite configure_file.
    destruct (Os.ReadFile w p) as [data|];
      [destruct (yamlUnmarshal data) as [c|]|]; cbn [fst from_option].
    + reflexivity.
    + rewrite <- (setConfig_same (configure (Some p))) at 1.
      by rewrite configure_config.
    + rewrite <- (setConfig_same (configure (Some p))) at 1.
      by rewrite configure_config.
  - cbn [fst]. rewrite <- (setConfig_same (configure None)) at 1.
    by rewrite configure_config.
Qed.

Lemma automatic_name_any (k : string) :
  Strings.Replace envKeyReplacer (Strings.ToUpper ("BD" +:+ "_" +:+ k))
  = envVarName k.
Proof. reflexivity. Qed.

Lemma firstEnv_legacy (environ : gmap string string) (vp : Viper.t)
      (k : string) :
  Viper.envKeyReplacer vp = Some envKeyReplacer →
  Viper.firstEnv environ vp (legacyNames k)
  = firstNonEmpty environ (legacyNames k).
Proof.
  intros Hr. unfold legacyNames.
  destruct (String.eqb k "auto-start-daemon");
    [|destruct (String.eqb k "flush-debounce")];
    cbn [Viper.firstEnv firstNonEmpty]; unfold Viper.getEnv, nonEmptyVar;
    rewrite ?Hr; reflexivity.
Qed.

Lemma Get_resolve (w : World) (key : string) :
  Get (fst (Initialize w)) key
  = resolve (environ w) (loadedConfig w) (Strings.ToLower key).
Proof.
  rewrite Initialize_loaded, Get_setV. unfold Viper.find, resolve.
  rewrite override_setConfig, configure_override, lookup_empty.
  rewrite automaticEnv_setConfig, configure_automaticEnv.
  rewrite getEnv_automatic
    by (rewrite ?envPrefix_setConfig, ?replacer_setConfig;
        auto using configure_envPrefix, configure_replacer).
  rewrite automatic_name_any. fold (nonEmptyVar (environ w)
    (envVarName (Strings.ToLower key))).
  rewrite env_setConfig, configure_legacy.
  rewrite firstEnv_legacy
    by (rewrite replacer_setConfig; apply configure_replacer).
  rewrite config_setConfig, defaults_setConfig, configure_defaultTable.
  reflexivity.
Qed.

(** ** The variable of an option, set and set to nothing *)

Lemma locateConfig_Unsetenv (name : string) (w : World) :
  locateConfig (Os.Unsetenv name w) = locateConfig w.
Proof.
  unfold locateConfig. cbn [getwd userConfigDir userHomeDir Os.Unsetenv].
  unfold Os.Stat. cbn [fs Os.Unsetenv].
  destruct (getwd w) as [cwd|]; [|done].
  by rewrite (findProjectConfig_ext w (Os.Unsetenv name w) cwd).
Qed.

Lemma loadedConfig_Unsetenv (name : string) (w : World) :
  loadedConfig (Os.Unsetenv name w) = loadedConfig w.
Proof. unfold loadedConfig. by rewrite locateConfig_Unsetenv. Qed.

Lemma nonEmptyVar_delete_ne (environ : gmap string string)
      (name name' : string) :
  name' ≠ name →
  nonEmptyVar (delete name environ) name' = nonEmptyVar environ name'.
Proof. intros H. unfold nonEmptyVar. by rewrite lookup_delete_ne. Qed.

Lemma envVarName_not_legacy (k name : string) :
  name ∈ legacyNames k → name ≠ envVarName k.
Proof.
  unfold legacyNames, envVarName.
  destruct (String.eqb k "auto-start-daemon");
    [|destruct (String.eqb k "flush-debounce")];
    intros H; [| |by apply elem_of_nil in H];
    apply list_elem_of_singleton in H as ->; intros [=].
Qed.

Lemma firstNonEmpty_delete (environ : gmap string string)
      (name : string) (names : list string) :
  (∀ n, n ∈ names → n ≠ name) →
  firstNonEmpty (delete name environ) names = firstNonEmpty environ names.
Proof.
  induction names as [|n names IH]; intros H; [done|].
  cbn [firstNonEmpty]. rewrite nonEmptyVar_delete_ne.
  - rewrite IH; [done|]. intros n' Hn'. apply H, elem_of_cons. by right.
  - apply H, elem_of_cons. by left.
Qed.

(** A variable that holds the empty string resolves like one that is not
    set. *)
Lemma resolve_empty_variable (environ : gmap string string)
      (config : gmap string Value) (k : string) :
  environ !! envVarName k = Some "" →
  resolve (delete (envVarName k) environ) config k = resolve environ config k.
Proof.
  intros H. unfold resolve.
  rewrite firstNonEmpty_delete by apply envVarName_not_legacy.
  assert (nonEmptyVar (delete (envVarName k) environ) (envVarName k) = None)
    as -> by (unfold nonEmptyVar; by rewrite lookup_delete_eq).
  assert (nonEmptyVar environ (envVarName k) = None)
    as -> by (unfold nonEmptyVar; by rewrite H).
  done.
Qed.

(** C6, amended.  For every named option whose [BD_] variable is set:
    a non-empty value is what the option resolves to after [Initialize],
    whatever the config file declares and whether or not the file parsed;
    the empty value is treated as unset, that is, every getter answers
    what it answers when the variable is removed from the environment. *)
Theorem env_overrides_config_file (key value : string) (w : World) :
  key ∈ optionNames →
  environ w !! envVarName key = Some value →
  (value ≠ "" →
   Get (fst (Initialize w)) key = Some (VString value)
   ∧ GetString (fst (Initialize w)) key = value)
  ∧ (value = "" →
     let w0 := Os.Unsetenv (envVarName key) w in
     Get (fst (Initialize w)) key = Get (fst (Initialize w0)) key
     ∧ GetString (fst (Initialize w)) key
       = GetString (fst (Initialize w0)) key
     ∧ GetBool (fst (Initialize w)) key = GetBool (fst (Initialize w0)) key
     ∧ GetDuration (fst (Initialize w)) key
       = GetDuration (fst (Initialize w0)) key).
Proof.
  intros Hkey Henv. split.
  - intros Hval.
    assert (Get (fst (Initialize w)) key = Some (VString value)) as HG.
    { destruct (Initialize_singleton w) as (c & ->).
      rewrite Get_setV. apply find_automatic_env.
      - rewrite override_setConfig. apply configure_override.
      - rewrite automaticEnv_setConfig. apply configure_automaticEnv.
      - rewrite envPrefix_setConfig. apply configure_envPrefix.
      - rewrite replacer_setConfig. apply configure_replacer.
      - by rewrite automatic_name.
      - done. }
    split; [done|]. by rewrite GetString_cast, HG.
  - intros ->. cbv zeta.
    assert (Get (fst (Initialize w)) key
            = Get (fst (Initialize (Os.Unsetenv (envVarName key) w))) key)
      as HG.
    { rewrite !Get_resolve, loadedConfig_Unsetenv, lower_optionName by done.
      cbn [environ Os.Unsetenv]. by rewrite resolve_empty_variable. }
    by rewrite !GetString_cast, !GetBool_cast, !GetDuration_cast, HG.
Qed.

(** X5.  The lookup order after [Initialize], for every ASCII key without
    the delimiter: the non-empty [BD_] variable of the key, else its
    non-empty legacy variable, else the value in the one config file that
    was loaded, else the default, else nothing; the typed getters convert
    that value. *)
Theorem lookup_order_after_Initialize (w : World) (key : string) :
  plainKey key = true →
  Get (fst (Initialize w)) key
  = resolve (environ w) (loadedConfig w) (Strings.ToLower key)
  ∧ GetString (fst (Initialize w)) key
    = Cast.ToString
        (resolve (environ w) (loadedConfig w) (Strings.ToLower key))
  ∧ GetBool (fst (Initialize w)) key
    = Cast.ToBool
        (resolve (environ w) (loadedConfig w) (Strings.ToLower key))
  ∧ GetDuration (fst (Initialize w)) key
    = Cast.ToDuration
        (resolve (environ w) (loadedConfig w) (Strings.ToLower key)).
Proof.
  intros _. rewrite GetString_cast, GetBool_cast, GetDuration_cast.
  by rewrite Get_resolve.
Qed.

(** X6.  The legacy variables: when the [BD_] variable of
    [flush-debounce] or [auto-start-daemon] is unset or empty, a
    non-empty [BEADS_] variable decides the option, before the config file
    and the default. *)
Theorem legacy_variable_used (key name value : string) (w : World) :
  (key, name) ∈ [("flush-debounce", "BEADS_FLUSH_DEBOUNCE");
                 ("auto-start-daemon", "BEADS_AUTO_START_DAEMON")] →
  nonEmptyVar (environ w) (envVarName key) = None →
  environ w !! name = Some value →
  value ≠ "" →
  Get (fst (Initialize w)) key = Some (VString value).
Proof.
  intros Hin Hbd Hleg Hval. rewrite Get_resolve. unfold resolve.
  apply String.eqb_neq in Hval.
  apply elem_of_cons in Hin as [[= -> ->]|Hin].
  { change (Strings.ToLower "flush-debounce") with "flush-debounce".
    rewrite Hbd. cbn [legacyNames String.eqb Ascii.eqb Bool.eqb firstNonEmpty].
    unfold nonEmptyVar. by rewrite Hleg, Hval. }
  apply elem_of_cons in Hin as [[= -> ->]|Hin]; [|by apply elem_of_nil in Hin].
  change (Strings.ToLower "auto-start-daemon") with "auto-start-daemon".
  rewrite Hbd. cbn [legacyNames String.eqb Ascii.eqb Bool.eqb firstNonEmpty].
  unfold nonEmptyVar. by rewrite Hleg, Hval.
Qed.

(** X7.  The boolean getter never fails and does not fall back: for an
    ASCII key, a non-empty [BD_] variable that is no boolean literal makes
    the option read [false], even where the config file declares it
    true. *)
Theorem unparsable_variable_reads_false (key value : string) (w : World) :
  asciiKey key = true →
  environ w !! envVarName (Strings.ToLower key) = Some value →
  value ≠ "" →
  Strconv.ParseBool value = None →
  GetBool (fst (Initialize w)) key = false.
Proof.
  intros _ Henv Hval Hparse. rewrite GetBool_cast, Get_resolve.
  unfold resolve, nonEmptyVar. rewrite Henv.
  apply String.eqb_neq in Hval. rewrite Hval.
  cbn [Cast.ToBool]. by rewrite Hparse.
Qed.

(** ** The walks towards the root *)

(** A walk that tests every directory from [cwd] upwards, the root
    excepted, and answers at the first that passes. *)
Lemma walk_nearest (f : Path → option Path) (ok : Path → bool)
      (answer : Path → Path) :
  f [] = None →
  (∀ x dir, f (x :: dir)
            = if ok (x :: dir) then Some (answer (x :: dir)) else f dir) →
  ∀ cwd r,
    f cwd = Some r
    ↔ ∃ pre d,
        cwd = pre ++ d ∧ d ≠ [] ∧ r = answer d ∧ ok d = true
        ∧ ∀ pre1 pre2, pre = pre1 ++ pre2 → pre2 ≠ [] →
                       ok (pre2 ++ d) = false.
Proof.
  intros Hnil Hcons cwd r. split.
  - revert r. induction cwd as [|x cwd IH]; intros r.
    { rewrite Hnil. discriminate. }
    rewrite Hcons. destruct (ok (x :: cwd)) eqn:Hok.
    + intros [= <-]. exists [], (x :: cwd).
      repeat split; try done.
      intros pre1 pre2 Hpre Hne. by destruct pre1, pre2.
    + intros Hr. destruct (IH r Hr) as (pre & d & -> & Hd & -> & Hokd & Hnear).
      exists (x :: pre), d. repeat split; try done.
      intros pre1 pre2 Hpre Hne. destruct pre1 as [|y pre1].
      * simpl in Hpre. subst pre2. exact Hok.
      * injection Hpre as -> Hpre. by apply (Hnear pre1).
  - intros (pre & d & -> & Hd & -> & Hokd & Hnear).
    induction pre as [|x pre IH].
    + simpl. destruct d as [|y d]; [done|]. by rewrite Hcons, Hokd.
    + change ((x :: pre) ++ d) with (x :: (pre ++ d)). rewrite Hcons.
      pose proof (Hnear [] (x :: pre) eq_refl ltac:(done)) as Hx.
      change ((x :: pre) ++ d) with (x :: (pre ++ d)) in Hx. rewrite Hx.
      apply IH. intros pre1 pre2 -> Hne. by apply (Hnear (x :: pre1)).
Qed.

Lemma isDir_true (n : option Node) : Os.isDir n = true ↔ n = Some Directory.
Proof. destruct n as [[|data]|]; simpl; split; congruence. Qed.

Lemma exists_true (n : option Node) : exists_ n = true ↔ is_Some n.
Proof.
  destruct n; simpl; split; try done; try (by eexists); by intros [? ?].
Qed.

Lemma not_true_false (b : bool) : b = false ↔ ¬ b = true.
Proof. destruct b; split; congruence. Qed.

(** X8.  [SetIssuePrefix] picks the nearest [.beads] directory: the
    answer is [.beads] in the working directory or in the closest of its
    ancestors that has one as a directory, and the root of the file
    system is never looked at. *)
Theorem findBeadsDir_nearest (w : World) (cwd beadsDir : Path) :
  findBeadsDir w cwd = Some beadsDir
  ↔ ∃ pre d,
      cwd = pre ++ d ∧ d ≠ []
      ∧ beadsDir = Filepath.Join d ".beads"
      ∧ fs w !! Filepath.Join d ".beads" = Some Directory
      ∧ ∀ pre1 pre2, pre = pre1 ++ pre2 → pre2 ≠ [] →
          fs w !! Filepath.Join (pre2 ++ d) ".beads" ≠ Some Directory.
Proof.
  rewrite (walk_nearest (findBeadsDir w)
             (λ d, Os.isDir (fs w !! Filepath.Join d ".beads"))
             (λ d, Filepath.Join d ".beads")); [|done|done].
  split; intros (pre & d & H1 & H2 & H3 & H4 & H5); exists pre, d;
    (split; [done|]); (split; [done|]); (split; [done|]).
  - split; [by apply isDir_true|].
    intros pre1 pre2 Hpre Hne. rewrite <- isDir_true.
    apply not_true_false. by apply (H5 pre1).
  - split; [by apply isDir_true|].
    intros pre1 pre2 Hpre Hne. apply not_true_false. rewrite isDir_true.
    by apply (H5 pre1).
Qed.

(** X9.  [Initialize] picks the nearest project file: the answer is
    [.beads/config.yaml] of the working directory or of the closest
    ancestor where that path exists, and the root of the file system is
    never looked at. *)
Theorem findProjectConfig_nearest (w : World) (cwd configPath : Path) :
  findProjectConfig w cwd = Some configPath
  ↔ ∃ pre d,
      cwd = pre ++ d ∧ d ≠ []
      ∧ configPath = Filepath.Join (Filepath.Join d ".beads") "config.yaml"
      ∧ is_Some (fs w !! Filepath.Join (Filepath.Join d ".beads") "config.yaml")
      ∧ ∀ pre1 pre2, pre = pre1 ++ pre2 → pre2 ≠ [] →
          fs w !! Filepath.Join (Filepath.Join (pre2 ++ d) ".beads")
                    "config.yaml" = None.
Proof.
  rewrite (walk_nearest (findProjectConfig w)
             (λ d, exists_ (fs w !! Filepath.Join (Filepath.Join d ".beads")
                                     "config.yaml"))
             (λ d, Filepath.Join (Filepath.Join d ".beads") "config.yaml"));
    [|done|done].
  split; intros (pre & d & H1 & H2 & H3 & H4 & H5); exists pre, d;
    (split; [done|]); (split; [done|]); (split; [done|]).
  - split; [by apply exists_true|].
    intros pre1 pre2 Hpre Hne. apply eq_None_not_Some.
    rewrite <- exists_true. apply not_true_false. by apply (H5 pre1).
  - split; [by apply exists_true|].
    intros pre1 pre2 Hpre Hne. apply not_true_false. rewrite exists_true.
    apply eq_None_not_Some. by apply (H5 pre1).
Qed.

Lemma findProjectConfig_exists (w : World) (cwd p : Path) :
  findProjectConfig w cwd = Some p →
  is_Some (fs w !! p) ∧ head p = Some "config.yaml".
Proof.
  induction cwd as [|x cwd IH]; [done|]. simpl. unfold Os.Stat.
  destruct (exists_ _) eqn:E; [|done].
  intros [= <-]. split; [by apply exists_true | done].
Qed.

(** X10.  The three places in order of precedence: a project file found
    above the working directory is the one located, whatever the user and
    home directories hold; whatever is located exists and is named
    [config.yaml]; nothing is located only if the project walk, the user
    directory and the home directory all come up empty. *)
Theorem locateConfig_precedence (w : World) :
  (∀ cwd p, getwd w = Some cwd → findProjectConfig w cwd = Some p →
            locateConfig w = Some p)
  ∧ (∀ p, locateConfig w = Some p →
          is_Some (fs w !! p) ∧ head p = Some "config.yaml")
  ∧ (locateConfig w = None
     ↔ (getwd w ≫= findProjectConfig w) = None
       ∧ (∀ d, userConfigDir w = Some d →
               fs w !! Filepath.Join (Filepath.Join d "bd") "config.yaml"
               = None)
       ∧ (∀ h, userHomeDir w = Some h →
               fs w !! Filepath.Join (Filepath.Join h ".beads") "config.yaml"
               = None)).
Proof.
  set (project := getwd w ≫= findProjectConfig w).
  set (userFile := Filepath.Join
                     (Filepath.Join (default [] (userConfigDir w)) "bd")
                     "config.yaml").
  set (homeFile := Filepath.Join
                     (Filepath.Join (default [] (userHomeDir w)) ".beads")
                     "config.yaml").
  assert (locateConfig w
          = match project with
            | Some p => Some p
            | None =>
              if bool_decide (is_Some (userConfigDir w))
                 && exists_ (fs w !! userFile)
              then Some userFile
              else if bool_decide (is_Some (userHomeDir w))
                      && exists_ (fs w !! homeFile)
              then Some homeFile
              else None
            end) as Hform.
  { unfold locateConfig, project, userFile, homeFile, Os.Stat.
    destruct (getwd w) as [cwd|]; cbn [mbind option_bind];
      [destruct (findProjectConfig w cwd) as [q|]; [done|]|];
      (destruct (userConfigDir w) as [d|]; cbn [from_option id];
       [rewrite bool_decide_eq_true_2 by (by eexists); cbn [andb];
        destruct (exists_ (fs w !! _)); [done|]
       |rewrite bool_decide_eq_false_2 by (by intros [? ?]); cbn [andb]]);
      (destruct (userHomeDir w) as [h|]; cbn [from_option id];
       [rewrite bool_decide_eq_true_2 by (by eexists); cbn [andb];
        by destruct (exists_ (fs w !! _))
       |by rewrite bool_decide_eq_false_2 by (by intros [? ?])]). }
  assert (∀ n : option Node, exists_ n = false ↔ n = None) as Hex.
  { intros [n|]; simpl; split; congruence. }
  rewrite Hform. split; [|split].
  - intros cwd p Hwd Hp. unfold project. rewrite Hwd. simpl. by rewrite Hp.
  - intros p. destruct project as [q|] eqn:Hq.
    + intros [= <-]. unfold project in Hq.
      destruct (getwd w) as [cwd|]; [|done].
      by apply (findProjectConfig_exists w cwd).
    + destruct (bool_decide _ && exists_ (fs w !! userFile)) eqn:E1.
      { intros [= <-]. apply andb_prop in E1 as [_ E1].
        split; [by apply exists_true | done]. }
      destruct (bool_decide _ && exists_ (fs w !! homeFile)) eqn:E2; [|done].
      intros [= <-]. apply andb_prop in E2 as [_ E2].
      split; [by apply exists_true | done].
  - destruct project as [q|] eqn:Hq.
    { split; [done | by intros [? _]]. }
    split.
    + intros H. split; [done|].
      destruct (bool_decide _ && exists_ (fs w !! userFile)) eqn:E1; [done|].
      destruct (bool_decide _ && exists_ (fs w !! homeFile)) eqn:E2; [done|].
      split.
      * intros d Hd. unfold userFile in E1. rewrite Hd in E1.
        rewrite bool_decide_eq_true_2 in E1 by (by eexists).
        by apply Hex.
      * intros h Hh. unfold homeFile in E2. rewrite Hh in E2.
        rewrite bool_decide_eq_true_2 in E2 by (by eexists).
        by apply Hex.
    + intros (_ & Hu & Hh).
      assert (bool_decide (is_Some (userConfigDir w))
              && exists_ (fs w !! userFile) = false) as ->.
      { unfold userFile. destruct (userConfigDir w) as [d|].
        - cbn [from_option id]. rewrite (Hu d eq_refl). apply andb_false_r.
        - by rewrite bool_decide_eq_false_2 by (by intros [? ?]). }
      assert (bool_decide (is_Some (userHomeDir w))
              && exists_ (fs w !! homeFile) = false) as ->.
      { unfold homeFile. destruct (userHomeDir w) as [h|].
        - cbn [from_option id]. rewrite (Hh h eq_refl). apply andb_false_r.
        - by rewrite bool_decide_eq_false_2 by (by intros [? ?]). }
      done.
Qed.

(** ** [SetIssuePrefix]: outcome, frame and composition *)

(** X11.  Which outcome when.  [SetIssuePrefix] succeeds exactly when the
    prefix is non-empty, the working directory is known and either no
    [.beads] directory is found or both the write of the temp file and the
    rename go through; the four errors arise in the order of the checks. *)
Theorem SetIssuePrefix_outcome (prefix : string) (w : World) :
  snd (SetIssuePrefix prefix w)
  = if String.eqb prefix "" then Some ErrEmptyPrefix
    else match getwd w with
         | None => Some ErrGetwd
         | Some cwd =>
           match findBeadsDir w cwd with
           | None => None
           | Some beadsDir =>
             let configPath := Filepath.Join beadsDir "config.yaml" in
             let tmpPath := Filepath.addSuffix configPath ".tmp" in
             if writeFault w || Os.isDir (fs w !! tmpPath)
             then Some ErrWriteTemp
             else if renameFault w || Os.isDir (fs w !! configPath)
             then Some ErrUpdateConfig
             else None
           end
         end.
Proof.
  destruct (String.eqb_spec prefix "") as [->|Hp]; [done|].
  destruct (getwd w) as [cwd|] eqn:Hwd.
  2:{ by rewrite SetIssuePrefix_no_getwd. }
  destruct (findBeadsDir w cwd) as [beadsDir|] eqn:Hbd.
  2:{ by rewrite (SetIssuePrefix_no_beads prefix w cwd). }
  rewrite (SetIssuePrefix_found prefix w cwd beadsDir) by done. cbv zeta.
  destruct (writeFault w || _); [done|].
  by destruct (renameFault w || _).
Qed.

Lemma head_tmp (beadsDir : Path) :
  head (Filepath.addSuffix (Filepath.Join beadsDir "config.yaml") ".tmp")
  = Some "config.yaml.tmp".
Proof. reflexivity. Qed.

(** X12.  All or nothing for everything but the temp file: when
    [SetIssuePrefix] returns an error, every path other than a temp file
    reads as before, the config file included, and the environment is
    unchanged.  After the two early errors, and after a write error whose
    open was refused, the world is the one from before the call. *)
Theorem SetIssuePrefix_error_keeps_files
        (prefix : string) (w w' : World) (e : error) :
  SetIssuePrefix prefix w = (w', Some e) →
  (∀ path, head path ≠ Some "config.yaml.tmp" → fs w' !! path = fs w !! path)
  ∧ environ w' = environ w
  ∧ (e = ErrEmptyPrefix ∨ e = ErrGetwd → w' = w)
  ∧ (e = ErrWriteTemp → partialWrite w = None → w' = w).
Proof.
  intros H.
  destruct (String.eqb_spec prefix "") as [->|Hp].
  { by injection H as <- <-. }
  destruct (getwd w) as [cwd|] eqn:Hwd.
  2:{ rewrite SetIssuePrefix_no_getwd in H by done. by injection H as <- <-. }
  destruct (findBeadsDir w cwd) as [beadsDir|] eqn:Hbd.
  2:{ by rewrite (SetIssuePrefix_no_beads prefix w cwd) in H. }
  rewrite (SetIssuePrefix_found prefix w cwd beadsDir) in H by done.
  cbv zeta in H.
  destruct (writeFault w || _) eqn:Hor.
  { injection H as <- <-. split; [|split; [|split]].
    - intros path Hpath.
      match goal with
      | |- context [Os.WriteFile ?p ?c w] =>
        destruct (WriteFile_fs p c w) as [->|(_ & x & ->)]
      end; [done|].
      apply lookup_insert_ne. intros <-. apply Hpath. reflexivity.
    - by rewrite WriteFile_setFs.
    - by intros [[=]|[=]].
    - intros _ Hpw. unfold Os.WriteFile. rewrite Hpw.
      destruct (Os.isDir _); [done|]. rewrite orb_false_r in Hor.
      by rewrite Hor. }
  destruct (renameFault w || _); [|discriminate H].
  injection H as <- <-. rewrite Remove_of_setFs. cbn [fs setFs environ].
  split; [|split; [done|split; [by intros [[=]|[=]] | by intros [=]]]].
  intros path Hpath.
  assert (path ≠ Filepath.addSuffix (Filepath.Join beadsDir "config.yaml")
                   ".tmp") as Hne.
  { intros ->. apply Hpath. reflexivity. }
  destruct (removeFault w).
  - by rewrite lookup_insert_ne.
  - rewrite lookup_delete_ne by done. by rewrite lookup_insert_ne.
Qed.

(** X13.  What a successful call changes: without a [.beads] directory no
    file at all; with one, only its [config.yaml] and the temp file next
    to it.  The environment and the working directory are never
    changed. *)
Theorem SetIssuePrefix_success_frame
        (prefix : string) (w w' : World) (cwd : Path) :
  getwd w = Some cwd →
  SetIssuePrefix prefix w = (w', None) →
  match findBeadsDir w cwd with
  | None => fs w' = fs w
  | Some beadsDir =>
    ∀ path,
      path ≠ Filepath.Join beadsDir "config.yaml" →
      path ≠ Filepath.addSuffix (Filepath.Join beadsDir "config.yaml") ".tmp" →
      fs w' !! path = fs w !! path
  end
  ∧ environ w' = environ w
  ∧ getwd w' = getwd w.
Proof.
  intros Hwd H.
  pose proof (SetIssuePrefix_success_prefix _ _ _ H) as Hp.
  destruct (findBeadsDir w cwd) as [beadsDir|] eqn:Hbd.
  2:{ rewrite (SetIssuePrefix_no_beads prefix w cwd) in H by done.
      injection H as <-. rewrite fs_Set, getwd_Set.
      repeat split. unfold Set_. by destruct (v w). }
  rewrite (SetIssuePrefix_found prefix w cwd beadsDir) in H by done.
  cbv zeta in H.
  destruct (writeFault w || _); [discriminate H|].
  destruct (renameFault w || _); [discriminate H|].
  injection H as <-. rewrite fs_Set, getwd_Set. cbn [fs setFs getwd].
  split; [|split; [|done]].
  - intros path H1 H2. rewrite lookup_insert_ne by done.
    by rewrite lookup_delete_ne.
  - unfold Set_. cbn [v setFs]. by destruct (v w).
Qed.

(** X14.  What is left at the temp path.  After a successful call
    nothing, not even a file that was there before.  After the rename
    error nothing either, unless the removal is refused as well: then the
    temp file stays, holding the new content.  After a write error the
    path is as before when the open was refused or the path is a
    directory; otherwise it holds the bytes that got through. *)
Theorem SetIssuePrefix_temp_file
        (prefix : string) (w w' : World) (cwd beadsDir : Path)
        (r : option error) :
  getwd w = Some cwd →
  findBeadsDir w cwd = Some beadsDir →
  SetIssuePrefix prefix w = (w', r) →
  let configPath := Filepath.Join beadsDir "config.yaml" in
  let tmpPath := Filepath.addSuffix configPath ".tmp" in
  let content' :=
    updateContent prefix (default "" (Os.ReadFile w configPath)) in
  (r = None → fs w' !! tmpPath = None)
  ∧ (r = Some ErrUpdateConfig →
     fs w' !! tmpPath
     = if removeFault w then Some (File content') else None)
  ∧ (r = Some ErrWriteTemp →
     fs w' !! tmpPath
     = match partialWrite w with
       | Some n =>
         if Os.isDir (fs w !! tmpPath) then fs w !! tmpPath
         else Some (File (String.substring 0 n content'))
       | None => fs w !! tmpPath
       end).
Proof.
  intros Hwd Hbd H. cbv zeta.
  destruct (String.eqb_spec prefix "") as [->|Hp].
  { injection H as <- <-. by repeat split. }
  pose proof (tmp_ne_config beadsDir) as Hne.
  rewrite (SetIssuePrefix_found prefix w cwd beadsDir) in H by done.
  cbv zeta in H.
  destruct (Os.isDir (fs w !! Filepath.addSuffix _ _)) eqn:Htmp.
  { rewrite orb_true_r in H. apply pair_equal_spec in H as [<- <-].
    split; [done|]. split; [done|]. intros _.
    unfold Os.WriteFile. rewrite Htmp. cbn [fst].
    by destruct (partialWrite w). }
  rewrite orb_false_r in H.
  destruct (writeFault w) eqn:Hwf.
  { apply pair_equal_spec in H as [<- <-].
    split; [done|]. split; [done|]. intros _.
    unfold Os.WriteFile. rewrite Htmp, Hwf.
    destruct (partialWrite w); [|done]. cbn [fst setFs fs].
    by rewrite lookup_insert_eq. }
  destruct (renameFault w || _); apply pair_equal_spec in H as [<- <-].
  - split; [done|]. split; [|done]. intros _.
    rewrite Remove_of_setFs. cbn [setFs fs]. destruct (removeFault w).
    + by rewrite lookup_insert_eq.
    + by rewrite lookup_delete_eq.
  - split; [|done]. intros _. rewrite fs_Set. cbn [fs setFs].
    rewrite lookup_insert_ne by done. apply lookup_delete_eq.
Qed.

Lemma SetIssuePrefix_success_form (prefix : string) (w w' : World) :
  SetIssuePrefix prefix w = (w', None) →
  ∃ w2, w' = Set_ "issue-prefix" (VString prefix) w2
        ∧ v w2 = v w ∧ environ w2 = environ w.
Proof.
  intros H.
  pose proof (SetIssuePrefix_success_prefix _ _ _ H) as Hp.
  destruct (getwd w) as [cwd|] eqn:Hwd.
  2:{ by rewrite SetIssuePrefix_no_getwd in H. }
  destruct (findBeadsDir w cwd) as [beadsDir|] eqn:Hbd.
  2:{ rewrite (SetIssuePrefix_no_beads prefix w cwd) in H by done.
      injection H as <-. by exists w. }
  rewrite (SetIssuePrefix_found prefix w cwd beadsDir) in H by done.
  cbv zeta in H.
  destruct (writeFault w || _); [discriminate H|].
  destruct (renameFault w || _); [discriminate H|].
  injection H as <-. by eexists.
Qed.

(** X15.  After a successful call on an initialised singleton the
    resolved issue prefix is the new prefix, whatever the environment and
    the loaded file say.  Before [Initialize] the call succeeds as well,
    but the singleton stays [nil] and the resolved prefix stays empty. *)
Theorem SetIssuePrefix_success_in_memory (prefix : string) (w w' : World) :
  SetIssuePrefix prefix w = (w', None) →
  (is_Some (v w) → GetIssuePrefix w' = prefix)
  ∧ (v w = None → v w' = None ∧ GetIssuePrefix w' = "").
Proof.
  intros H.
  destruct (SetIssuePrefix_success_form _ _ _ H) as (w2 & -> & Hv & Henv).
  split.
  - intros Hsome. unfold GetIssuePrefix. rewrite GetString_cast.
    rewrite (Get_Set_eq "issue-prefix" "issue-prefix"); [done| |done].
    by rewrite Hv.
  - intros Hnone. unfold GetIssuePrefix, GetString, Set_.
    rewrite Hv, Hnone. by rewrite Hv, Hnone.
Qed.

(** The lines before and after the declaration do not depend on the
    prefix. *)
Lemma updateContent_shape_uniform (content : string) :
  ∃ pre post,
    Forall (λ x, isIssuePrefixLine x = false) pre
    ∧ Forall (λ f, Strings.containsByte f nl = false) (pre ++ post)
    ∧ ∀ prefix,
        updateContent prefix content
        = Strings.Join (pre ++ issuePrefixLine prefix :: post) nl.
Proof.
  destruct (first_match_split (linesOf content))
    as [Hno | (pre & l & post & Hlines & Hpre & Hl)].
  - destruct (String.eqb_spec content "") as [->|Hne].
    + by exists [], [].
    + exists [], ("" :: linesOf content). split; [done|]. split.
      * constructor; [done | apply linesOf_fields].
      * intros prefix. rewrite updateContent_absent by done.
        rewrite linesOf_not_empty by done.
        pose proof (Split_not_nil content nl).
        change ([] ++ ?x :: ?l) with (x :: l).
        rewrite Join_cons by done. rewrite Join_cons by done.
        by rewrite Join_Split.
  - exists pre, post. split; [done|]. split.
    + pose proof (linesOf_fields content) as Hf. rewrite Hlines in Hf.
      apply Forall_app in Hf as [Hf1 Hf2]. apply Forall_app. split; [done|].
      by inversion Hf2.
    + intros prefix. by apply updateContent_found with (l := l).
Qed.

Lemma linesOf_Join_declaration (prefix : string) (pre post : list string) :
  Forall (λ f, Strings.containsByte f nl = false) (pre ++ post) →
  linesOf (Strings.Join (pre ++ issuePrefixLine prefix :: post) nl)
  = pre ++ issuePrefixLine prefix :: post.
Proof.
  intros Hf. rewrite linesOf_not_empty.
  - apply Split_Join; [by destruct pre|].
    apply Forall_app in Hf as [Hf1 Hf2]. apply Forall_app. split; [done|].
    constructor; [apply issuePrefixLine_no_nl | done].
  - apply Join_not_empty with (e := issuePrefixLine prefix).
    + apply elem_of_app. right. apply elem_of_cons. by left.
    + apply issuePrefixLine_not_empty.
Qed.

Lemma updateContent_overwrite (p q content : string) :
  updateContent q (updateContent p content) = updateContent q content.
Proof.
  destruct (updateContent_shape_uniform content) as (pre & post & H1 & H2 & H).
  rewrite (H p), (H q).
  apply updateContent_found with (l := issuePrefixLine p);
    [by apply linesOf_Join_declaration | done | apply issuePrefixLine_match].
Qed.

Lemma SetIssuePrefix_overwrite_world (p q : string) (w : World) :
  q ≠ "" →
  SetIssuePrefix q (fst (SetIssuePrefix p w)) = SetIssuePrefix q w.
Proof.
  intros Hq. apply SetIssuePrefix_again; [done|].
  intros content. apply updateContent_overwrite.
Qed.

(** X16.  The last write wins: a call with a non-empty prefix leaves the
    same world and result whether or not another call, with any prefix,
    came before it; nothing of the earlier prefix survives, in the file or
    in memory. *)
Theorem SetIssuePrefix_last_write_wins (p q : string) (w : World) :
  q ≠ "" →
  (∀ content,
     updateContent q (updateContent p content) = updateContent q content)
  ∧ SetIssuePrefix q (fst (SetIssuePrefix p w)) = SetIssuePrefix q w.
Proof.
  intros Hq. split.
  - intros content. apply updateContent_overwrite.
  - by apply SetIssuePrefix_overwrite_world.
Qed.

(** X17.  The prefix decides one line and nothing else.  For a project
    with a [.beads] directory there are lines [pre] and [post], fixed by
    the old file alone, such that after a successful call with any prefix
    the file splits into [pre], the new declaration and [post]; no line of
    [pre] is a declaration.  A prefix with line feeds or quotes in it
    cannot add or remove lines. *)
Theorem SetIssuePrefix_decides_one_line (w : World) (cwd beadsDir : Path) :
  getwd w = Some cwd →
  findBeadsDir w cwd = Some beadsDir →
  ∃ pre post,
    Forall (λ x, isIssuePrefixLine x = false) pre
    ∧ ∀ prefix w',
        SetIssuePrefix prefix w = (w', None) →
        linesOf <$> Os.ReadFile w' (Filepath.Join beadsDir "config.yaml")
        = Some (pre ++ issuePrefixLine prefix :: post)
        ∧ isIssuePrefixLine (issuePrefixLine prefix) = true.
Proof.
  intros Hwd Hbd.
  destruct (updateContent_shape_uniform
              (default "" (Os.ReadFile w (Filepath.Join beadsDir "config.yaml"))))
    as (pre & post & H1 & H2 & H).
  exists pre, post. split; [done|]. intros prefix w' Hok.
  rewrite (SetIssuePrefix_written prefix w w' cwd beadsDir) by done.
  rewrite H. cbn [fmap option_fmap option_map].
  split; [|apply issuePrefixLine_match].
  f_equal. by apply linesOf_Join_declaration.
Qed.

(** ** [SetIssuePrefix] and the tree of files *)

Lemma beads_ne_config (d beadsDir : Path) :
  Filepath.Join d ".beads" ≠ Filepath.Join beadsDir "config.yaml".
Proof. by intros [=]. Qed.

Lemma beads_ne_tmp (d beadsDir : Path) :
  Filepath.Join d ".beads"
  ≠ Filepath.addSuffix (Filepath.Join beadsDir "config.yaml") ".tmp".
Proof. by intros [=]. Qed.

(** The files after a call: as before, or a file put at the temp path,
    or the temp file removed, or the temp file removed and the config file
    written. *)
Lemma SetIssuePrefix_fs (prefix : string) (w : World) :
  fs (fst (SetIssuePrefix prefix w)) = fs w
  ∨ ∃ cwd beadsDir,
      let configPath := Filepath.Join beadsDir "config.yaml" in
      let tmpPath := Filepath.addSuffix configPath ".tmp" in
      getwd w = Some cwd
      ∧ findBeadsDir w cwd = Some beadsDir
      ∧ fs w !! beadsDir = Some Directory
      ∧ Os.isDir (fs w !! tmpPath) = false
      ∧ ((∃ x, fs (fst (SetIssuePrefix prefix w))
               = <[tmpPath := File x]> (fs w))
         ∨ fs (fst (SetIssuePrefix prefix w)) = delete tmpPath (fs w)
         ∨ Os.isDir (fs w !! configPath) = false
           ∧ snd (SetIssuePrefix prefix w) = None
           ∧ fs (fst (SetIssuePrefix prefix w))
             = <[configPath :=
                   File (updateContent prefix
                           (default "" (Os.ReadFile w configPath)))]>
                 (delete tmpPath (fs w))).
Proof.
  destruct (String.eqb_spec prefix "") as [->|Hp]; [by left|].
  destruct (getwd w) as [cwd|] eqn:Hwd.
  2:{ left. by rewrite SetIssuePrefix_no_getwd. }
  destruct (findBeadsDir w cwd) as [beadsDir|] eqn:Hbd.
  2:{ left. rewrite (SetIssuePrefix_no_beads prefix w cwd) by done.
      cbn [fst]. apply fs_Set. }
  destruct (findBeadsDir_found _ _ _ Hbd) as (d & Hd & Hdir).
  rewrite (SetIssuePrefix_found prefix w cwd beadsDir) by done. cbv zeta.
  destruct (Os.isDir (fs w !! Filepath.addSuffix _ _)) eqn:Htmp.
  { left. rewrite orb_true_r. cbn [fst]. unfold Os.WriteFile.
    by rewrite Htmp. }
  rewrite orb_false_r.
  destruct (writeFault w) eqn:Hwf.
  { cbn [fst]. unfold Os.WriteFile. rewrite Htmp, Hwf.
    destruct (partialWrite w); [|by left].
    right. exists cwd, beadsDir. cbv zeta.
    split; [done|]. split; [done|]. split; [done|]. split; [done|].
    left. by eexists. }
  right. exists cwd, beadsDir. cbv zeta.
  split; [done|]. split; [done|]. split; [done|]. split; [done|].
  destruct (renameFault w || _) eqn:Hrn.
  { cbn [fst]. rewrite Remove_of_setFs. cbn [setFs fs].
    destruct (removeFault w).
    - left. by eexists.
    - right. left. by rewrite delete_insert_eq. }
  apply orb_false_elim in Hrn as [_ Hcfg].
  right. right. split; [done|]. split; [done|]. cbn [fst]. by rewrite fs_Set.
Qed.

Lemma SetIssuePrefix_getwd (prefix : string) (w : World) :
  getwd (fst (SetIssuePrefix prefix w)) = getwd w.
Proof.
  destruct (String.eqb_spec prefix "") as [->|Hp]; [done|].
  destruct (getwd w) as [cwd|] eqn:Hwd.
  2:{ by rewrite SetIssuePrefix_no_getwd. }
  destruct (findBeadsDir w cwd) as [beadsDir|] eqn:Hbd.
  2:{ rewrite (SetIssuePrefix_no_beads prefix w cwd) by done.
      cbn [fst]. by rewrite getwd_Set. }
  rewrite (SetIssuePrefix_found prefix w cwd beadsDir) by done. cbv zeta.
  destruct (writeFault w || _); [by rewrite WriteFile_setFs|].
  destruct (renameFault w || _); [by rewrite Remove_setFs|].
  cbn [fst]. by rewrite getwd_Set.
Qed.

Lemma environ_Set (key : string) (value : Value) (w : World) :
  environ (Set_ key value w) = environ w.
Proof. unfold Set_. by destruct (v w). Qed.

Lemma SetIssuePrefix_environ (prefix : string) (w : World) :
  environ (fst (SetIssuePrefix prefix w)) = environ w.
Proof.
  destruct (String.eqb_spec prefix "") as [->|Hp]; [done|].
  destruct (getwd w) as [cwd|] eqn:Hwd.
  2:{ by rewrite SetIssuePrefix_no_getwd. }
  destruct (findBeadsDir w cwd) as [beadsDir|] eqn:Hbd.
  2:{ rewrite (SetIssuePrefix_no_beads prefix w cwd) by done.
      cbn [fst]. by rewrite environ_Set. }
  rewrite (SetIssuePrefix_found prefix w cwd beadsDir) by done. cbv zeta.
  destruct (writeFault w || _); [by rewrite WriteFile_setFs|].
  destruct (renameFault w || _); [by rewrite Remove_setFs|].
  cbn [fst]. by rewrite environ_Set.
Qed.

Lemma v_Set_None (key : string) (value : Value) (w : World) :
  v w = None → Set_ key value w = w.
Proof. intros H. unfold Set_. by rewrite H. Qed.

Lemma SetIssuePrefix_v_None (prefix : string) (w : World) :
  v w = None → v (fst (SetIssuePrefix prefix w)) = None.
Proof.
  intros Hv.
  destruct (String.eqb_spec prefix "") as [->|Hp]; [done|].
  destruct (getwd w) as [cwd|] eqn:Hwd.
  2:{ by rewrite SetIssuePrefix_no_getwd. }
  destruct (findBeadsDir w cwd) as [beadsDir|] eqn:Hbd.
  2:{ rewrite (SetIssuePrefix_no_beads prefix w cwd) by done.
      cbn [fst]. by rewrite v_Set_None. }
  rewrite (SetIssuePrefix_found prefix w cwd beadsDir) by done. cbv zeta.
  destruct (writeFault w || _); [by rewrite WriteFile_setFs|].
  destruct (renameFault w || _); [by rewrite Remove_setFs|].
  cbn [fst]. by rewrite v_Set_None.
Qed.

(** Paths other than the config file and its temp file read as before,
    whatever the outcome. *)
Lemma SetIssuePrefix_frame_found (prefix : string) (w : World)
      (cwd beadsDir path : Path) :
  getwd w = Some cwd →
  findBeadsDir w cwd = Some beadsDir →
  path ≠ Filepath.Join beadsDir "config.yaml" →
  path ≠ Filepath.addSuffix (Filepath.Join beadsDir "config.yaml") ".tmp" →
  fs (fst (SetIssuePrefix prefix w)) !! path = fs w !! path.
Proof.
  intros Hwd Hbd H1 H2.
  destruct (SetIssuePrefix_fs prefix w)
    as [->|(cwd' & beadsDir' & Hwd' & Hbd' & _ & _ & Hcases)]; [done|].
  rewrite Hwd in Hwd'. injection Hwd' as <-.
  rewrite Hbd in Hbd'. injection Hbd' as <-.
  destruct Hcases as [[x ->]|[->|(_ & _ & ->)]].
  - by rewrite lookup_insert_ne.
  - by rewrite lookup_delete_ne.
  - rewrite lookup_insert_ne by done. by rewrite lookup_delete_ne.
Qed.

Lemma SetIssuePrefix_frame (prefix : string) (w : World) (path : Path) :
  head path ≠ Some "config.yaml" →
  head path ≠ Some "config.yaml.tmp" →
  fs (fst (SetIssuePrefix prefix w)) !! path = fs w !! path.
Proof.
  intros H1 H2.
  destruct (SetIssuePrefix_fs prefix w)
    as [->|(cwd & beadsDir & Hwd & Hbd & _ & _ & _)]; [done|].
  apply (SetIssuePrefix_frame_found prefix w cwd beadsDir); try done.
  - intros ->. by apply H1.
  - intros ->. by apply H2.
Qed.

Lemma wellFormed_delete (tree : gmap Path Node) (p : Path) :
  wellFormed tree → tree !! p ≠ Some Directory → wellFormed (delete p tree).
Proof.
  intros Hwf Hp name dir [x Hx].
  apply lookup_delete_Some in Hx as [Hne Hx].
  destruct (Hwf name dir) as [->|Hdir]; [by eexists | by left |].
  right. rewrite lookup_delete_ne; [done|]. by intros ->.
Qed.

Lemma wellFormed_insert_file (tree : gmap Path Node) (name : string)
      (dir : Path) (data : string) :
  wellFormed tree →
  tree !! dir = Some Directory →
  tree !! (name :: dir) ≠ Some Directory →
  wellFormed (<[name :: dir := File data]> tree).
Proof.
  intros Hwf Hdir Hp name' dir' [x Hx].
  apply lookup_insert_Some in Hx as [[[= -> ->] _]|[Hne Hx]].
  - right. rewrite lookup_insert_ne; [done|].
    intros Heq. apply (f_equal length) in Heq. simpl in Heq. lia.
  - destruct (Hwf name' dir') as [->|Hdir']; [by eexists | by left |].
    right. rewrite lookup_insert_ne; [done|]. by intros <-.
Qed.

(** X18.  [SetIssuePrefix] keeps the tree of files well formed: whatever
    the outcome, every entry still lies in a directory afterwards. *)
Theorem SetIssuePrefix_keeps_wellFormed (prefix : string) (w : World) :
  wellFormed (fs w) → wellFormed (fs (fst (SetIssuePrefix prefix w))).
Proof.
  intros Hwf.
  destruct (SetIssuePrefix_fs prefix w)
    as [->|(cwd & beadsDir & Hwd & Hbd & Hdir & Htmp
            & [[x ->]|[->|(Hcfg & _ & ->)]])];
    [done| | |].
  - apply wellFormed_insert_file; [done|done|].
    intros Hd%isDir_true. unfold Filepath.addSuffix, Filepath.Join in *.
    congruence.
  - apply wellFormed_delete; [done|]. by rewrite <- isDir_true, Htmp.
  - apply wellFormed_insert_file.
    + apply wellFormed_delete; [done|]. by rewrite <- isDir_true, Htmp.
    + rewrite lookup_delete_ne; [done|].
      intros Heq. apply (f_equal length) in Heq. simpl in Heq. lia.
    + rewrite lookup_delete_ne by apply tmp_ne_config.
      intros Hd%isDir_true. unfold Filepath.Join in *. congruence.
Qed.

Lemma findProjectConfig_of_beadsDir (w w' : World) (cwd beadsDir : Path) :
  (∀ d, is_Some (fs w' !! Filepath.Join (Filepath.Join d ".beads") "config.yaml")
        → fs w !! Filepath.Join d ".beads" = Some Directory) →
  findBeadsDir w cwd = Some beadsDir →
  is_Some (fs w' !! Filepath.Join beadsDir "config.yaml") →
  findProjectConfig w' cwd = Some (Filepath.Join beadsDir "config.yaml").
Proof.
  intros Hparent. induction cwd as [|x dir IH]; [done|].
  cbn [findBeadsDir findProjectConfig]. cbv zeta. unfold Os.Stat.
  destruct (Os.isDir (fs w !! Filepath.Join (x :: dir) ".beads")) eqn:Hd.
  - intros [= <-] Hex. apply exists_true in Hex. by rewrite Hex.
  - intros Hbd Hex.
    destruct (exists_ (fs w' !! _)) eqn:Hc; [|by apply IH].
    apply exists_true in Hc. apply Hparent in Hc.
    apply isDir_true in Hc. congruence.
Qed.

(** X19.  What is written is what the next start reads.  In a well-formed
    tree, after a successful call in a project with a [.beads] directory,
    [Initialize] locates exactly the config file that was written, and
    that file holds the updated content. *)
Theorem SetIssuePrefix_then_locateConfig
        (prefix : string) (w w' : World) (cwd beadsDir : Path) :
  wellFormed (fs w) →
  getwd w = Some cwd →
  findBeadsDir w cwd = Some beadsDir →
  SetIssuePrefix prefix w = (w', None) →
  locateConfig w' = Some (Filepath.Join beadsDir "config.yaml")
  ∧ Os.ReadFile w' (Filepath.Join beadsDir "config.yaml")
    = Some (updateContent prefix
              (default "" (Os.ReadFile w (Filepath.Join beadsDir "config.yaml")))).
Proof.
  intros Hwf Hwd Hbd Hok.
  pose proof (SetIssuePrefix_written _ _ _ _ _ Hwd Hbd Hok) as Hread.
  split; [|done].
  assert (w' = fst (SetIssuePrefix prefix w)) as Hw' by (by rewrite Hok).
  destruct (findBeadsDir_found _ _ _ Hbd) as (d0 & Hd0 & Hdir).
  unfold locateConfig. rewrite Hw', SetIssuePrefix_getwd, Hwd, <- Hw'.
  rewrite (findProjectConfig_of_beadsDir w w' cwd beadsDir); [done| |done|].
  - intros d Hex.
    destruct (decide (Filepath.Join d ".beads" = beadsDir)) as [->|Hne];
      [done|].
    rewrite Hw', (SetIssuePrefix_frame_found prefix w cwd beadsDir) in Hex;
      [|done|done|by intros [=]|by intros [=]].
    by destruct (Hwf _ _ Hex) as [[=]|Hdir'].
  - unfold Os.ReadFile in Hread.
    destruct (fs w' !! Filepath.Join beadsDir "config.yaml"); [by eexists|done].
Qed.

(** ** [MigrateConfigToYAML]: queries, frame and repetition *)

(** X20.  The queries of a migration.  None is sent when a prefix is
    already resolved; otherwise the settings table is asked first, and the
    oldest issue only when the table gave no row or an empty value.
    Nothing is asked after a failure, and nothing twice. *)
Theorem migrate_query_protocol (db : DB) (w : World) :
  let sent := snd (fst (MigrateConfigToYAML db w)) in
  let q1 := (SelectConfigIssuePrefix, db SelectConfigIssuePrefix) in
  let q2 := (SelectFirstIssueID, db SelectFirstIssueID) in
  (sent = [] ∨ sent = [q1] ∨ sent = [q1; q2])
  ∧ (sent = [] ↔ GetIssuePrefix w ≠ "")
  ∧ (sent = [q1; q2]
     ↔ GetIssuePrefix w = ""
       ∧ (db SelectConfigIssuePrefix = ErrNoRows
          ∨ db SelectConfigIssuePrefix = Scanned "")).
Proof.
  cbv zeta. unfold MigrateConfigToYAML.
  destruct (String.eqb_spec (GetIssuePrefix w) "") as [Hcfg|Hcfg]; cbn [negb].
  2:{ cbn [fst snd]. split; [by left|]. split; [done|].
      split; [done | by intros [? _]]. }
  destruct (db SelectConfigIssuePrefix) as [p| |msg1] eqn:E1;
    cbn [scannedOrEmpty];
    [destruct (String.eqb_spec p "") as [->|Hp] | | ];
    destruct (db SelectFirstIssueID) as [id| |msg2] eqn:E2;
    cbn [scannedOrEmpty String.eqb negb fst snd app].
  all: split; [auto|].
  all: split; [split; [done | by intros H] |].
  all: split; [try done | try by auto].
  all: try (intros [_ [H|H]]; congruence).
  all: intros _; split; [done | auto].
Qed.

Lemma migrateFound_frame (p : string) (w : World) :
  (∀ path, head path ≠ Some "config.yaml" →
           head path ≠ Some "config.yaml.tmp" →
           fs (migrateFound p w) !! path = fs w !! path)
  ∧ environ (migrateFound p w) = environ w
  ∧ getwd (migrateFound p w) = getwd w.
Proof.
  unfold migrateFound. destruct (negb _); [|done].
  split; [|split].
  - intros path. apply SetIssuePrefix_frame.
  - apply SetIssuePrefix_environ.
  - apply SetIssuePrefix_getwd.
Qed.

(** The two ways a migration that has to ask can end, read off the
    database alone. *)
Lemma migrate_cases (db : DB) :
  (∃ msg sent, ∀ w, GetIssuePrefix w = "" →
     MigrateConfigToYAML db w = (w, sent, Some (ErrQuery msg)))
  ∨ (∃ p sent, ∀ w, GetIssuePrefix w = "" →
       MigrateConfigToYAML db w = (migrateFound p w, sent, None)).
Proof.
  destruct (db SelectConfigIssuePrefix) as [p| |msg1] eqn:E1.
  - destruct (String.eqb_spec p "") as [->|Hp%String.eqb_neq].
    + destruct (db SelectFirstIssueID) as [id| |msg2] eqn:E2.
      * right. eexists _, _. intros w Hw. unfold MigrateConfigToYAML.
        rewrite Hw, E1, E2. cbn [String.eqb negb scannedOrEmpty]. reflexivity.
      * right. eexists _, _. intros w Hw. unfold MigrateConfigToYAML.
        rewrite Hw, E1, E2. cbn [String.eqb negb scannedOrEmpty]. reflexivity.
      * left. eexists _, _. intros w Hw. unfold MigrateConfigToYAML.
        rewrite Hw, E1, E2. cbn [String.eqb negb scannedOrEmpty]. reflexivity.
    + right. eexists _, _. intros w Hw. unfold MigrateConfigToYAML.
      rewrite Hw, E1. cbn [String.eqb negb scannedOrEmpty]. rewrite Hp.
      reflexivity.
  - destruct (db SelectFirstIssueID) as [id| |msg2] eqn:E2.
    + right. eexists _, _. intros w Hw. unfold MigrateConfigToYAML.
      rewrite Hw, E1, E2. cbn [String.eqb negb scannedOrEmpty]. reflexivity.
    + right. eexists _, _. intros w Hw. unfold MigrateConfigToYAML.
      rewrite Hw, E1, E2. cbn [String.eqb negb scannedOrEmpty]. reflexivity.
    + left. eexists _, _. intros w Hw. unfold MigrateConfigToYAML.
      rewrite Hw, E1, E2. cbn [String.eqb negb scannedOrEmpty]. reflexivity.
  - left. eexists _, _. intros w Hw. unfold MigrateConfigToYAML.
    rewrite Hw, E1. cbn [String.eqb negb]. reflexivity.
Qed.

Lemma migrate_resolved (db : DB) (w : World) :
  GetIssuePrefix w ≠ "" → MigrateConfigToYAML db w = (w, [], None).
Proof.
  intros H%String.eqb_neq. unfold MigrateConfigToYAML. by rewrite H.
Qed.

(** X21.  A migration touches nothing but a [config.yaml] and its temp
    file: every other path, the environment and the working directory are
    as before; and when it returns an error, the whole world is. *)
Theorem migrate_touches_only_config (db : DB) (w : World) :
  let w' := fst (fst (MigrateConfigToYAML db w)) in
  (∀ path, head path ≠ Some "config.yaml" →
           head path ≠ Some "config.yaml.tmp" →
           fs w' !! path = fs w !! path)
  ∧ environ w' = environ w
  ∧ getwd w' = getwd w
  ∧ (is_Some (snd (MigrateConfigToYAML db w)) → w' = w).
Proof.
  cbv zeta.
  destruct (String.eqb_spec (GetIssuePrefix w) "") as [Hcfg|Hcfg].
  2:{ rewrite migrate_resolved by done. done. }
  destruct (migrate_cases db) as [(msg & sent & H)|(p & sent & H)];
    rewrite (H w Hcfg); cbn [fst snd]; [done|].
  destruct (migrateFound_frame p w) as (H1 & H2 & H3).
  repeat split; try done.
Qed.

Lemma migrateFound_twice (p : string) (w : World) :
  migrateFound p (migrateFound p w) = migrateFound p w.
Proof.
  unfold migrateFound. destruct (negb _); [|done].
  by rewrite SetIssuePrefix_twice_world.
Qed.

(** X22.  Running the migration again changes nothing more: the world
    after a second run is the world after the first, and the second run
    returns what the first returned. *)
Theorem migrate_twice (db : DB) (w : World) :
  let w' := fst (fst (MigrateConfigToYAML db w)) in
  fst (fst (MigrateConfigToYAML db w')) = w'
  ∧ snd (MigrateConfigToYAML db w') = snd (MigrateConfigToYAML db w).
Proof.
  cbv zeta.
  destruct (String.eqb_spec (GetIssuePrefix w) "") as [Hcfg|Hcfg].
  2:{ rewrite (migrate_resolved db w) by done. cbn [fst snd].
      by rewrite (migrate_resolved db w). }
  destruct (migrate_cases db) as [(msg & sent & H)|(p & sent & H)];
    rewrite (H w Hcfg); cbn [fst snd].
  { by rewrite (H w Hcfg). }
  destruct (String.eqb_spec (GetIssuePrefix (migrateFound p w)) "")
    as [Hcfg'|Hcfg'].
  - rewrite (H _ Hcfg'). cbn [fst snd]. by rewrite migrateFound_twice.
  - by rewrite migrate_resolved.
Qed.

Lemma GetIssuePrefix_v_None (w : World) : v w = None → GetIssuePrefix w = "".
Proof. intros H. unfold GetIssuePrefix, GetString. by rewrite H. Qed.

(** X23.  Without [Initialize] the migration never settles: the singleton
    is [nil], so no prefix is ever resolved, and a second run sends the
    same queries and ends in the same world with the same result as the
    first. *)
Theorem migrate_before_Initialize_repeats (db : DB) (w : World) :
  v w = None →
  MigrateConfigToYAML db (fst (fst (MigrateConfigToYAML db w)))
  = MigrateConfigToYAML db w.
Proof.
  intros Hv. pose proof (GetIssuePrefix_v_None w Hv) as Hcfg.
  destruct (migrate_cases db) as [(msg & sent & H)|(p & sent & H)];
    rewrite (H w Hcfg); cbn [fst snd].
  { by rewrite (H w Hcfg). }
  rewrite H.
  - by rewrite migrateFound_twice.
  - apply GetIssuePrefix_v_None. unfold migrateFound.
    destruct (negb _); [|done]. by apply SetIssuePrefix_v_None.
Qed.

(** X24.  On an initialised singleton the migration settles.  When the
    settings table holds a non-empty prefix and [SetIssuePrefix] succeeds
    with it, the prefix is resolved afterwards, and every later migration,
    against any database, sends no query and changes nothing. *)
Theorem migrate_settles (db : DB) (w : World) (p : string) :
  is_Some (v w) →
  GetIssuePrefix w = "" →
  db SelectConfigIssuePrefix = Scanned p →
  p ≠ "" →
  snd (SetIssuePrefix p w) = None →
  let w' := fst (fst (MigrateConfigToYAML db w)) in
  GetIssuePrefix w' = p
  ∧ ∀ db', MigrateConfigToYAML db' w' = (w', [], None).
Proof.
  intros Hv Hcfg Hdb Hp Hok. cbv zeta.
  assert (fst (fst (MigrateConfigToYAML db w)) = fst (SetIssuePrefix p w))
    as ->.
  { unfold MigrateConfigToYAML. rewrite Hcfg, Hdb.
    cbn [String.eqb negb scannedOrEmpty].
    apply String.eqb_neq in Hp as Hp'. rewrite Hp'. cbn [fst].
    by apply migrateFound_spec. }
  assert (GetIssuePrefix (fst (SetIssuePrefix p w)) = p) as Hget.
  { destruct (SetIssuePrefix p w) as [w1 r] eqn:E. cbn [fst snd] in *.
    subst r.
    destruct (SetIssuePrefix_success_form _ _ _ E) as (w2 & -> & Hv2 & _).
    unfold GetIssuePrefix. rewrite GetString_cast.
    rewrite (Get_Set_eq "issue-prefix" "issue-prefix"); [done| |done].
    by rewrite Hv2. }
  split; [done|]. intros db'. apply migrate_resolved. by rewrite Hget.
Qed.

(** ** Which lines the scanning loop takes for the declaration *)

Lemma isSpace3_low_mid (b0 b1 b2 : N) :
  b1 < 128 → Strings.isSpace3 b0 b1 b2 = false.
Proof.
  intros H. unfold Strings.isSpace3.
  destruct (N.eqb_spec b1 0x9A); [lia|].
  destruct (N.eqb_spec b1 0x80); [lia|].
  destruct (N.eqb_spec b1 0x81); [lia|].
  by rewrite !andb_false_r.
Qed.

Lemma rev_app_distr (s t : string) :
  String.rev (s +:+ t) = String.rev t +:+ String.rev s.
Proof.
  induction s as [|c s IH].
  - by rewrite app_nil_l, app_nil_r.
  - by rewrite app_cons, !rev_cons, IH, app_assoc.
Qed.

Lemma HasPrefix_spec (s prefix : string) :
  Strings.HasPrefix s prefix = true ↔ ∃ rest, s = prefix +:+ rest.
Proof.
  revert s. induction prefix as [|p prefix IH]; intros s.
  - rewrite HasPrefix_nil. split; [by exists s | done].
  - destruct s as [|c s]; simpl.
    + split; [done | by intros [rest [=]]].
    + rewrite andb_true_iff, IH. split.
      * intros [->%Ascii.eqb_eq [rest ->]]. by exists rest.
      * intros [rest [= -> ->]]. split; [apply Ascii.eqb_refl | by exists rest].
Qed.

(** A plain byte found after [a] lies behind every string [x] that is a
    prefix of the same text and does not contain it. *)
Lemma app_plain_split (x a t b : string) (c : ascii) :
  Strings.containsByte x c = false →
  a +:+ String c b = x +:+ t →
  ∃ a', a = x +:+ a' ∧ t = a' +:+ String c b.
Proof.
  revert a. induction x as [|d x IH]; intros a Hx Heq.
  - exists a. by rewrite app_nil_l in *.
  - simpl in Hx. apply orb_false_elim in Hx as [Hd Hx].
    destruct a as [|e a].
    + rewrite app_nil_l, app_cons in Heq. injection Heq as -> _.
      by rewrite Ascii.eqb_refl in Hd.
    + rewrite !app_cons in Heq. injection Heq as -> Heq.
      destruct (IH a Hx Heq) as (a' & -> & ->). by exists a'.
Qed.

(** One round of the left scan: it stops, or it drops the bytes of one
    white-space rune, none of which is a plain byte. *)
Lemma trimLeft_step (s : string) :
  Strings.trimLeft s = s
  ∨ ∃ x t, s = x +:+ t ∧ x ≠ ""
           ∧ (∀ u, Strings.trimLeft (x +:+ u) = Strings.trimLeft u)
           ∧ (∀ c, plainByte c → Strings.containsByte x c = false).
Proof.
  destruct s as [|c0 t0]; [by left|].
  destruct (Strings.asciiSpace c0) eqn:H0.
  { right. exists (String c0 ""), t0. repeat split; [done| |].
    - intros u. rewrite app_cons, app_nil_l. cbn [Strings.trimLeft].
      by rewrite H0.
    - intros c [_ Hc]. cbn [Strings.containsByte]. rewrite orb_false_r.
      destruct (Ascii.eqb_spec c0 c) as [->|]; [congruence | done]. }
  destruct t0 as [|c1 t1]; [left; cbn [Strings.trimLeft]; by rewrite H0|].
  destruct (Strings.isSpace2 (N_of_ascii c0) (N_of_ascii c1)) eqn:H1.
  { right. exists (String c0 (String c1 "")), t1. repeat split; [done| |].
    - intros u. rewrite !app_cons, app_nil_l. cbn [Strings.trimLeft].
      by rewrite H0, H1.
    - intros c [Hc _]. cbn [Strings.containsByte]. rewrite orb_false_r.
      destruct (Ascii.eqb_spec c0 c) as [->|].
      { by rewrite isSpace2_low_lead in H1. }
      destruct (Ascii.eqb_spec c1 c) as [->|]; [|done].
      by rewrite isSpace2_low_last in H1. }
  destruct t1 as [|c2 t2]; [left; cbn [Strings.trimLeft]; by rewrite H0, H1|].
  destruct (Strings.isSpace3 (N_of_ascii c0) (N_of_ascii c1) (N_of_ascii c2))
    eqn:H2.
  { right. exists (String c0 (String c1 (String c2 ""))), t2.
    repeat split; [done| |].
    - intros u. rewrite !app_cons, app_nil_l. cbn [Strings.trimLeft].
      by rewrite H0, H1, H2.
    - intros c [Hc _]. cbn [Strings.containsByte]. rewrite orb_false_r.
      destruct (Ascii.eqb_spec c0 c) as [->|].
      { by rewrite isSpace3_low_lead in H2. }
      destruct (Ascii.eqb_spec c1 c) as [->|].
      { by rewrite isSpace3_low_mid in H2. }
      destruct (Ascii.eqb_spec c2 c) as [->|]; [|done].
      by rewrite isSpace3_low_last in H2. }
  left. cbn [Strings.trimLeft]. by rewrite H0, H1, H2.
Qed.

(** The same for the mirrored scan. *)
Lemma trimLeftRev_step (s : string) :
  Strings.trimLeftRev s = s
  ∨ ∃ x t, s = x +:+ t ∧ x ≠ ""
           ∧ (∀ u, Strings.trimLeftRev (x +:+ u) = Strings.trimLeftRev u)
           ∧ (∀ c, plainByte c → Strings.containsByte x c = false).
Proof.
  destruct s as [|c0 t0]; [by left|].
  destruct (Strings.asciiSpace c0) eqn:H0.
  { right. exists (String c0 ""), t0. repeat split; [done| |].
    - intros u. rewrite app_cons, app_nil_l. cbn [Strings.trimLeftRev].
      by rewrite H0.
    - intros c [_ Hc]. cbn [Strings.containsByte]. rewrite orb_false_r.
      destruct (Ascii.eqb_spec c0 c) as [->|]; [congruence | done]. }
  destruct t0 as [|c1 t1]; [left; cbn [Strings.trimLeftRev]; by rewrite H0|].
  destruct (Strings.isSpace2 (N_of_ascii c1) (N_of_ascii c0)) eqn:H1.
  { right. exists (String c0 (String c1 "")), t1. repeat split; [done| |].
    - intros u. rewrite !app_cons, app_nil_l. cbn [Strings.trimLeftRev].
      by rewrite H0, H1.
    - intros c [Hc _]. cbn [Strings.containsByte]. rewrite orb_false_r.
      destruct (Ascii.eqb_spec c0 c) as [->|].
      { by rewrite isSpace2_low_last in H1. }
      destruct (Ascii.eqb_spec c1 c) as [->|]; [|done].
      by rewrite isSpace2_low_lead in H1. }
  destruct t1 as [|c2 t2];
    [left; cbn [Strings.trimLeftRev]; by rewrite H0, H1|].
  destruct (Strings.isSpace3 (N_of_ascii c2) (N_of_ascii c1) (N_of_ascii c0))
    eqn:H2.
  { right. exists (String c0 (String c1 (String c2 ""))), t2.
    repeat split; [done| |].
    - intros u. rewrite !app_cons, app_nil_l. cbn [Strings.trimLeftRev].
      by rewrite H0, H1, H2.
    - intros c [Hc _]. cbn [Strings.containsByte]. rewrite orb_false_r.
      destruct (Ascii.eqb_spec c0 c) as [->|].
      { by rewrite isSpace3_low_last in H2. }
      destruct (Ascii.eqb_spec c1 c) as [->|].
      { by rewrite isSpace3_low_mid in H2. }
      destruct (Ascii.eqb_spec c2 c) as [->|]; [|done].
      by rewrite isSpace3_low_lead in H2. }
  left. cbn [Strings.trimLeftRev]. by rewrite H0, H1, H2.
Qed.

Lemma length_app (s t : string) :
  String.length (s +:+ t) = (String.length s + String.length t)%nat.
Proof. induction s as [|c s IH]; [done|]. rewrite app_cons. simpl. lia. Qed.

Lemma length_pos (s : string) : s ≠ "" → (0 < String.length s)%nat.
Proof. destruct s; [done | simpl; lia]. Qed.

(** A string is its white-space indentation followed by what the left
    scan leaves. *)
Lemma trimLeft_split (s : string) :
  ∃ indent, Strings.trimLeft indent = "" ∧ s = indent +:+ Strings.trimLeft s.
Proof.
  remember (String.length s) as n eqn:Hn.
  revert s Hn. induction (lt_wf n) as [n _ IH]. intros s ->.
  destruct (trimLeft_step s) as [Hs|(x & t & -> & Hx & Hdrop & _)].
  - exists "". by rewrite Hs.
  - destruct (IH (String.length t)) with (s := t) as (indent & Hi & Ht);
      [|done|].
    { rewrite length_app. apply length_pos in Hx. lia. }
    exists (x +:+ indent). rewrite !Hdrop. split; [done|].
    by rewrite app_assoc, <- Ht.
Qed.

(** White-space indentation in front of a plain byte is dropped, and the
    scan stops at that byte. *)
Lemma trimLeft_indent (indent t : string) (c : ascii) :
  Strings.trimLeft indent = "" → plainByte c →
  Strings.trimLeft (indent +:+ String c t) = String c t.
Proof.
  intros Hi Hc. remember (String.length indent) as n eqn:Hn.
  revert indent Hn Hi. induction (lt_wf n) as [n _ IH]. intros indent -> Hi.
  destruct (trimLeft_step indent) as [Hs|(x & i' & -> & Hx & Hdrop & _)].
  - rewrite Hi in Hs. subst indent. rewrite app_nil_l.
    by apply trimLeft_plain.
  - rewrite app_assoc, Hdrop. rewrite Hdrop in Hi.
    apply (IH (String.length i')); [|done|done].
    rewrite length_app. apply length_pos in Hx. lia.
Qed.

(** The mirrored scan returns a suffix of its argument... *)
Lemma trimLeftRev_suffix (s : string) :
  ∃ a, s = a +:+ Strings.trimLeftRev s.
Proof.
  remember (String.length s) as n eqn:Hn.
  revert s Hn. induction (lt_wf n) as [n _ IH]. intros s ->.
  destruct (trimLeftRev_step s) as [Hs|(x & t & -> & Hx & Hdrop & _)].
  - exists "". by rewrite Hs.
  - destruct (IH (String.length t)) with (s := t) as (a & Ht); [|done|].
    { rewrite length_app. apply length_pos in Hx. lia. }
    exists (x +:+ a). by rewrite Hdrop, app_assoc, <- Ht.
Qed.

(** ... and never goes past a plain byte. *)
Lemma trimLeftRev_keeps (a b : string) (c : ascii) :
  plainByte c →
  ∃ a', Strings.trimLeftRev (a +:+ String c b) = a' +:+ String c b.
Proof.
  intros Hc. remember (String.length a) as n eqn:Hn.
  revert a Hn. induction (lt_wf n) as [n _ IH]. intros a ->.
  destruct (trimLeftRev_step (a +:+ String c b))
    as [Hs|(x & t & Heq & Hx & Hdrop & Hplain)].
  - by exists a.
  - destruct (app_plain_split x a t b c (Hplain c Hc) Heq) as (a2 & -> & ->).
    rewrite app_assoc, Hdrop.
    apply (IH (String.length a2)); [|done].
    rewrite length_app. apply length_pos in Hx. lia.
Qed.

(** The right trim returns a prefix of its argument, and keeps everything
    up to a plain byte. *)
Lemma trimRight_prefix (s : string) : ∃ b, s = Strings.trimRight s +:+ b.
Proof.
  unfold Strings.trimRight.
  destruct (trimLeftRev_suffix (String.rev s)) as [a Ha].
  exists (String.rev a).
  by rewrite <- rev_app_distr, <- Ha, rev_involutive.
Qed.

Lemma trimRight_keeps (s t : string) (c : ascii) :
  plainByte c →
  ∃ t', Strings.trimRight (s +:+ String c t) = s +:+ String c t'.
Proof.
  intros Hc. unfold Strings.trimRight.
  rewrite rev_app_distr, rev_cons, app_assoc, app_cons, app_nil_l.
  destruct (trimLeftRev_keeps (String.rev t) (String.rev s) c Hc) as [a' ->].
  exists (String.rev a').
  by rewrite rev_app_distr, rev_cons, rev_involutive, app_assoc.
Qed.

(** X25.  The lines taken for the declaration are exactly the lines that
    consist of white space, then [issue-prefix:], then anything: an
    indented key of a nested mapping matches like a top-level one, a
    value or a trailing comment is not looked at, and the test for a
    leading [#] never decides anything. *)
Theorem isIssuePrefixLine_iff (line : string) :
  (isIssuePrefixLine line = true
   ↔ ∃ indent rest,
       Strings.trimLeft indent = ""
       ∧ line = indent +:+ "issue-prefix:" +:+ rest)
  ∧ isIssuePrefixLine line
    = Strings.HasPrefix (Strings.TrimSpace line) "issue-prefix:".
Proof.
  assert (isIssuePrefixLine line
          = Strings.HasPrefix (Strings.TrimSpace line) "issue-prefix:") as Hred.
  { unfold isIssuePrefixLine. cbv zeta.
    destruct (Strings.TrimSpace line) as [|c t]; [done|].
    cbn [Strings.HasPrefix].
    destruct (Ascii.eqb_spec c "i") as [->|]; [|done].
    by rewrite andb_true_r. }
  split; [|done]. rewrite Hred. unfold Strings.TrimSpace. split.
  - intros [r Hr]%HasPrefix_spec.
    destruct (trimLeft_split line) as (indent & Hi & Hline).
    destruct (trimRight_prefix (Strings.trimLeft line)) as [b Hb].
    exists indent, (r +:+ b). split; [done|].
    rewrite Hline at 1. rewrite Hb, Hr. by rewrite !app_assoc.
  - intros (indent & rest & Hi & ->).
    change "issue-prefix:" with (String "i" "ssue-prefix:").
    rewrite app_cons, (trimLeft_indent indent _ "i"); [|done|by split].
    change (String "i" ("ssue-prefix:" +:+ rest))
      with ("issue-prefix" +:+ String ":" rest).
    destruct (trimRight_keeps "issue-prefix" rest ":") as [t' ->];
      [by split|].
    apply HasPrefix_spec. by exists t'.
Qed.

(** ** The declaration of an ordinary prefix *)

Lemma byte_N_of_ascii (c : ascii) : byte (N_of_ascii c) = c.
Proof.
  unfold byte. rewrite N.mod_small by apply N_ascii_bounded.
  apply ascii_N_embedding.
Qed.

Lemma simpleByte_spec (c : ascii) :
  simpleByte c = true →
  0x20 ≤ N_of_ascii c ∧ N_of_ascii c ≤ 0x7E
  ∧ N_of_ascii c ≠ 34 ∧ N_of_ascii c ≠ 92.
Proof.
  unfold simpleByte. cbv zeta.
  rewrite !andb_true_iff, !negb_true_iff, !N.leb_le, !N.eqb_neq. tauto.
Qed.

Lemma appendEscapedRune_simple (c : ascii) :
  simpleByte c = true →
  Strconv.appendEscapedRune isPrintTable (N_of_ascii c) = String c "".
Proof.
  intros (H1 & H2 & H3 & H4)%simpleByte_spec.
  unfold Strconv.appendEscapedRune.
  change (N_of_ascii dquote) with 34. change (N_of_ascii backslash) with 92.
  destruct (N.eqb_spec (N_of_ascii c) 34); [done|].
  destruct (N.eqb_spec (N_of_ascii c) 92); [done|]. cbn [orb].
  unfold Strconv.IsPrint.
  destruct (N.leb_spec (N_of_ascii c) 0xFF); [|lia].
  destruct (N.leb_spec 0x20 (N_of_ascii c)); [|lia].
  destruct (N.leb_spec (N_of_ascii c) 0x7E); [|lia]. cbn [andb].
  unfold Utf8.AppendRune.
  destruct (N.leb_spec (N_of_ascii c) 0x7F); [|lia].
  by rewrite byte_N_of_ascii.
Qed.

Lemma quoteLoop_simple (s : string) :
  allBytes simpleByte s = true → Strconv.quoteLoop isPrintTable 0 s = s.
Proof.
  induction s as [|c s IH]; [done|].
  cbn [allBytes]. intros [Hc Hs]%andb_prop.
  pose proof (simpleByte_spec c Hc) as (H1 & H2 & H3 & H4).
  cbn [Strconv.quoteLoop].
  assert ((N_of_ascii c <? Utf8.RuneSelf) = true) as ->.
  { apply N.ltb_lt. unfold Utf8.RuneSelf. lia. }
  assert ((N_of_ascii c =? Utf8.RuneError) = false) as ->.
  { apply N.eqb_neq. unfold Utf8.RuneError. lia. }
  cbn [Nat.eqb andb Nat.pred].
  by rewrite appendEscapedRune_simple, IH.
Qed.

(** X26.  A prefix of printable ASCII without double quote and backslash,
    the usual case, is written as it stands between two double quotes:
    nothing in it is escaped. *)
Theorem plain_prefix_written_verbatim (prefix : string) :
  allBytes simpleByte prefix = true →
  issuePrefixLine prefix = "issue-prefix: " +:+ quoted prefix.
Proof.
  intros H. unfold issuePrefixLine, Strconv.Quote, quoted.
  by rewrite quoteLoop_simple.
Qed.

End Config.

(** * The claims at concrete inputs *)

Example sampleExtract_example : sampleExtract "old-prefix-42" = "old-prefix".
Proof. reflexivity. Qed.

Example envVarName_no_daemon : envVarName "no-daemon" = "BD_NO_DAEMON".
Proof. reflexivity. Qed.

(** C1 at the project whose file declares [existing] while the database
    holds [db-prefix]. *)
Lemma migrate_keeps_existing_prefix_witness :
  let w := fst (Initialize sampleYaml (project existingConfig ∅ false)) in
  GetIssuePrefix w = "existing"
  ∧ MigrateConfigToYAML allPrintable sampleExtract (legacyDB "db-prefix") w
    = (w, [], None)
  ∧ Os.ReadFile w sampleConfigPath = Some existingConfig.
Proof.
  cbv zeta. split; [vm_compute; reflexivity|]. split; [|vm_compute; reflexivity].
  apply (migrate_keeps_existing_prefix allPrintable sampleExtract).
  intros H. vm_compute in H. discriminate H.
Defined.

(** C2 at a project with comments and another key. *)
Lemma SetIssuePrefix_idempotent_witness :
  let w := project commentedConfig ∅ false in
  SetIssuePrefix allPrintable "bd" (fst (SetIssuePrefix allPrintable "bd" w))
  = SetIssuePrefix allPrintable "bd" w.
Proof.
  cbv zeta.
  apply (proj2 (SetIssuePrefix_idempotent allPrintable "bd"
                  (project commentedConfig ∅ false) ltac:(discriminate))).
Defined.

(** C3 as stated fails on the empty file: no line matches, the call
    succeeds, and the file becomes the declaration alone, not the
    declaration followed by an empty line. *)
Lemma empty_file_gets_no_separator :
  let w := project "" ∅ false in
  let r := SetIssuePrefix allPrintable "bd" w in
  "bd" ≠ ""
  ∧ Forall (λ x, isIssuePrefixLine x = false) (linesOf "")
  ∧ snd r = None
  ∧ Os.ReadFile (fst r) sampleConfigPath
    = Some ("issue-prefix: " +:+ quoted "bd")
  ∧ Os.ReadFile (fst r) sampleConfigPath
    ≠ Some (issuePrefixLine allPrintable "bd" +:+ String nl (String nl "")).
Proof.
  cbv zeta. split; [discriminate|]. split; [constructor|].
  split; [vm_compute; reflexivity|]. split; [vm_compute; reflexivity|].
  intros H. vm_compute in H. discriminate H.
Qed.

(** C3, amended, at a file with two declarations. *)
Lemma SetIssuePrefix_preserves_other_lines_witness :
  let w := project twoDeclarations ∅ false in
  let w' := fst (SetIssuePrefix allPrintable "new" w) in
  let configPath := Filepath.Join sampleBeadsDir "config.yaml" in
  let content := default "" (Os.ReadFile w configPath) in
  ∃ content',
    Os.ReadFile w' configPath = Some content'
    ∧ (∀ pre l post,
         linesOf content = pre ++ l :: post →
         Forall (λ x, isIssuePrefixLine x = false) pre →
         isIssuePrefixLine l = true →
         linesOf content' = pre ++ issuePrefixLine allPrintable "new" :: post)
    ∧ (Forall (λ x, isIssuePrefixLine x = false) (linesOf content) →
       content ≠ "" →
       content'
       = issuePrefixLine allPrintable "new" +:+ String nl (String nl content))
    ∧ (content = "" → content' = issuePrefixLine allPrintable "new").
Proof.
  cbv zeta.
  apply (SetIssuePrefix_preserves_other_lines allPrintable "new"
           (project twoDeclarations ∅ false)
           (fst (SetIssuePrefix allPrintable "new"
                   (project twoDeclarations ∅ false)))
           projectDir sampleBeadsDir).
  - reflexivity.
  - vm_compute. reflexivity.
  - vm_compute. reflexivity.
Defined.

(** C4 at the project of the test. *)
Lemma commented_declaration_is_kept_witness :
  let w := project commentedConfig ∅ false in
  let w' := fst (SetIssuePrefix allPrintable "active" w) in
  ∃ out,
    Os.ReadFile w' (Filepath.Join sampleBeadsDir "config.yaml") = Some out
    ∧ out = activeDeclaration +:+ String nl (String nl commentedConfig)
    ∧ activeDeclaration ∈ linesOf out
    ∧ commentedDeclaration ∈ linesOf out.
Proof.
  cbv zeta.
  apply (commented_declaration_is_kept allPrintable
           (project commentedConfig ∅ false)
           (fst (SetIssuePrefix allPrintable "active"
                   (project commentedConfig ∅ false)))
           projectDir sampleBeadsDir).
  - reflexivity.
  - vm_compute. reflexivity.
  - vm_compute. reflexivity.
  - vm_compute. reflexivity.
Defined.

(** C5 where the write is refused: the database holds [bd], the temp file
    cannot be written, and the migration still returns [nil]. *)
Lemma migrate_error_iff_query_failed_witness :
  let w := project "" ∅ true in
  snd (SetIssuePrefix allPrintable "bd" w) = Some ErrWriteTemp
  ∧ MigrateConfigToYAML allPrintable sampleExtract (legacyDB "bd") w
    = (w, [(SelectConfigIssuePrefix, Scanned "bd")], None)
  ∧ (is_Some (None : option error)
     ↔ ∃ q msg,
         (q, ScanError msg) ∈ [(SelectConfigIssuePrefix, Scanned "bd")]).
Proof.
  cbv zeta. split; [vm_compute; reflexivity|].
  split; [vm_compute; reflexivity|].
  apply (migrate_error_iff_query_failed allPrintable sampleExtract
           (legacyDB "bd") (project "" ∅ true) (project "" ∅ true)).
  vm_compute. reflexivity.
Defined.

(** C5 where a query fails: the error is returned. *)
Example migrate_returns_query_error :
  MigrateConfigToYAML allPrintable sampleExtract
    (λ q, match q with
          | SelectConfigIssuePrefix => ErrNoRows
          | SelectFirstIssueID => ScanError "database is locked"
          end)
    (project "" ∅ false)
  = (project "" ∅ false,
     [(SelectConfigIssuePrefix, ErrNoRows);
      (SelectFirstIssueID, ScanError "database is locked")],
     Some (ErrQuery "database is locked")).
Proof. vm_compute. reflexivity. Qed.

(** C5, gap fill: an empty file and [bd] in the database. *)
Example migrate_fills_gap :
  let r := MigrateConfigToYAML allPrintable sampleExtract (legacyDB "bd")
             (fst (Initialize sampleYaml (project "" ∅ false))) in
  snd r = None
  ∧ GetIssuePrefix (fst (fst r)) = "bd"
  ∧ Os.ReadFile (fst (fst r)) sampleConfigPath
    = Some ("issue-prefix: " +:+ quoted "bd").
Proof.
  cbv zeta. repeat match goal with |- _ ∧ _ => split end;
    vm_compute; reflexivity.
Qed.

(** C6 as stated fails for the empty value: the variable is set, to the
    empty string, and the option resolves to what the file declares. *)
Lemma empty_variable_does_not_override :
  let w := project actorConfig {[ "BD_ACTOR" := "" ]} false in
  "actor" ∈ optionNames
  ∧ environ w !! envVarName "actor" = Some ""
  ∧ snd (Initialize sampleYaml w) = None
  ∧ Get (fst (Initialize sampleYaml w)) "actor" = Some (VString "configuser")
  ∧ GetString (fst (Initialize sampleYaml w)) "actor" ≠ "".
Proof.
  cbv zeta. split.
  { apply list_elem_of_In. vm_compute. tauto. }
  split; [vm_compute; reflexivity|]. split; [vm_compute; reflexivity|].
  split; [vm_compute; reflexivity|].
  intros H. vm_compute in H. discriminate H.
Qed.

(** C6, amended, at a file that declares another value: the variable
    set to a value, and set to the empty string. *)
Lemma env_overrides_config_file_witness :
  let w := project actorConfig {[ "BD_ACTOR" := "envuser" ]} false in
  let w' := project actorConfig {[ "BD_ACTOR" := "" ]} false in
  let w0 := Os.Unsetenv "BD_ACTOR" w' in
  (Get (fst (Initialize sampleYaml w)) "actor" = Some (VString "envuser")
   ∧ GetString (fst (Initialize sampleYaml w)) "actor" = "envuser")
  ∧ (Get (fst (Initialize sampleYaml w')) "actor"
     = Get (fst (Initialize sampleYaml w0)) "actor"
     ∧ GetString (fst (Initialize sampleYaml w')) "actor"
       = GetString (fst (Initialize sampleYaml w0)) "actor"
     ∧ GetBool (fst (Initialize sampleYaml w')) "actor"
       = GetBool (fst (Initialize sampleYaml w0)) "actor"
     ∧ GetDuration (fst (Initialize sampleYaml w')) "actor"
       = GetDuration (fst (Initialize sampleYaml w0)) "actor")
  ∧ GetString (fst (Initialize sampleYaml w0)) "actor" = "configuser".
Proof.
  cbv zeta. split; [|split].
  - apply (env_overrides_config_file sampleYaml "actor" "envuser"
             (project actorConfig {[ "BD_ACTOR" := "envuser" ]} false)).
    + apply list_elem_of_In. vm_compute. tauto.
    + vm_compute. reflexivity.
    + discriminate.
  - apply (env_overrides_config_file sampleYaml "actor" ""
             (project actorConfig {[ "BD_ACTOR" := "" ]} false)).
    + apply list_elem_of_In. vm_compute. tauto.
    + vm_compute. reflexivity.
    + reflexivity.
  - vm_compute. reflexivity.
Defined.

(** C7 at a directory with no configuration at all. *)
Lemma defaults_after_Initialize_witness :
  let w' := fst (Initialize sampleYaml bareWorld) in
  snd (Initialize sampleYaml bareWorld) = None
  ∧ (∀ key, key ∈ optionNames → Get w' key = defaultTable !! key)
  ∧ GetBool w' "json" = false
  ∧ GetBool w' "no-daemon" = false
  ∧ GetBool w' "no-auto-flush" = false
  ∧ GetBool w' "no-auto-import" = false
  ∧ GetBool w' "no-db" = false
  ∧ GetString w' "db" = ""
  ∧ GetString w' "actor" = ""
  ∧ GetString w' "issue-prefix" = ""
  ∧ GetDuration w' "flush-debounce" = (30 * Time.Second)%Z
  ∧ GetBool w' "auto-start-daemon" = true.
Proof.
  apply (defaults_after_Initialize sampleYaml bareWorld).
  - reflexivity.
  - vm_compute. repeat constructor.
Defined.

(** C9 at a file with two declarations: the second stays as it is. *)
Lemma SetIssuePrefix_rewrites_first_match_only_witness :
  let w := project twoDeclarations ∅ false in
  let w' := fst (SetIssuePrefix allPrintable "new" w) in
  ∃ content',
    Os.ReadFile w' (Filepath.Join sampleBeadsDir "config.yaml") = Some content'
    ∧ linesOf content'
      = [] ++ issuePrefixLine allPrintable "new"
           :: [] ++ "  issue-prefix: b" :: ["json: true"].
Proof.
  cbv zeta.
  apply (SetIssuePrefix_rewrites_first_match_only allPrintable "new"
           twoDeclarations "issue-prefix: a" "  issue-prefix: b" [] []
           ["json: true"]
           (project twoDeclarations ∅ false)
           (fst (SetIssuePrefix allPrintable "new"
                   (project twoDeclarations ∅ false)))
           projectDir sampleBeadsDir).
  - reflexivity.
  - vm_compute. reflexivity.
  - vm_compute. reflexivity.
  - vm_compute. reflexivity.
  - constructor.
  - vm_compute. reflexivity.
  - vm_compute. reflexivity.
  - vm_compute. reflexivity.
Defined.

(** C10 where the temp file cannot be written. *)
Lemma SetIssuePrefix_error_keeps_singleton_witness :
  let w := fst (Initialize sampleYaml (project existingConfig ∅ true)) in
  let w' := fst (SetIssuePrefix allPrintable "other" w) in
  v w' = v w
  ∧ environ w' = environ w
  ∧ GetIssuePrefix w' = GetIssuePrefix w
  ∧ ErrWriteTemp ∈ [ErrEmptyPrefix; ErrGetwd; ErrWriteTemp; ErrUpdateConfig]
  ∧ (∀ cwd, "other" ≠ "" → getwd w = Some cwd →
            is_Some (findBeadsDir w cwd)).
Proof.
  cbv zeta.
  apply (SetIssuePrefix_error_keeps_singleton allPrintable "other"
           (fst (Initialize sampleYaml (project existingConfig ∅ true)))).
  vm_compute. reflexivity.
Defined.

(** Without a [.beads] directory the call succeeds and only the singleton
    changes. *)
Example SetIssuePrefix_in_memory_only :
  let w := fst (Initialize sampleYaml bareWorld) in
  let r := SetIssuePrefix allPrintable "test" w in
  snd r = None ∧ GetIssuePrefix (fst r) = "test" ∧ fs (fst r) = fs w.
Proof.
  cbv zeta. repeat match goal with |- _ ∧ _ => split end;
    vm_compute; reflexivity.
Qed.

(** * The further properties at concrete inputs *)

Lemma Set_then_Get_witness :
  let w := fst (Initialize sampleYaml
                  (project "" {[ "BD_FLUSH_DEBOUNCE" := "5s" ]} false)) in
  let w' := Set_ "Flush-Debounce" (VString "1.5s") w in
  GetDuration w "flush-debounce" = (5 * Time.Second)%Z
  ∧ GetDuration w' "FLUSH-DEBOUNCE" = (1500 * Time.Millisecond)%Z
  ∧ Get w' "FLUSH-DEBOUNCE" = Some (VString "1.5s")
  ∧ GetString w' "FLUSH-DEBOUNCE" = Cast.ToString (Some (VString "1.5s"))
  ∧ GetBool w' "FLUSH-DEBOUNCE" = Cast.ToBool (Some (VString "1.5s"))
  ∧ GetDuration w' "FLUSH-DEBOUNCE"
    = Cast.ToDuration (Some (VString "1.5s")).
Proof.
  cbv zeta. split; [vm_compute; reflexivity|].
  split; [vm_compute; reflexivity|].
  apply (Set_then_Get "Flush-Debounce" "FLUSH-DEBOUNCE" (VString "1.5s")).
  - vm_compute. eexists. reflexivity.
  - vm_compute. reflexivity.
Defined.

Lemma Set_keeps_other_keys_witness :
  let w := fst (Initialize sampleYaml
                  (project actorConfig {[ "BD_ACTOR" := "envuser" ]} false)) in
  Get (Set_ "json" (VBool true) w) "actor" = Get w "actor"
  ∧ fs (Set_ "json" (VBool true) w) = fs w
  ∧ environ (Set_ "json" (VBool true) w) = environ w.
Proof.
  cbv zeta. apply (Set_keeps_other_keys "json" "actor" (VBool true)).
  - reflexivity.
  - reflexivity.
  - vm_compute. discriminate.
Defined.

(** The lookup order at an option that the environment, the file and the
    defaults all know, and at one that only the file knows. *)
Lemma lookup_order_after_Initialize_witness :
  let w := project actorConfig {[ "BD_ACTOR" := "envuser" ]} false in
  let w' := project actorConfig ∅ false in
  GetString (fst (Initialize sampleYaml w)) "actor" = "envuser"
  ∧ GetString (fst (Initialize sampleYaml w')) "actor" = "configuser"
  ∧ Get (fst (Initialize sampleYaml w)) "Actor"
    = resolve (environ w) (loadedConfig sampleYaml w) (Strings.ToLower "Actor")
  ∧ GetString (fst (Initialize sampleYaml w)) "Actor"
    = Cast.ToString
        (resolve (environ w) (loadedConfig sampleYaml w)
                 (Strings.ToLower "Actor"))
  ∧ GetBool (fst (Initialize sampleYaml w)) "Actor"
    = Cast.ToBool
        (resolve (environ w) (loadedConfig sampleYaml w)
                 (Strings.ToLower "Actor"))
  ∧ GetDuration (fst (Initialize sampleYaml w)) "Actor"
    = Cast.ToDuration
        (resolve (environ w) (loadedConfig sampleYaml w)
                 (Strings.ToLower "Actor")).
Proof.
  cbv zeta. split; [vm_compute; reflexivity|].
  split; [vm_compute; reflexivity|].
  apply (lookup_order_after_Initialize sampleYaml
           (project actorConfig {[ "BD_ACTOR" := "envuser" ]} false) "Actor").
  reflexivity.
Defined.

Lemma legacy_variable_used_witness :
  let w := project "" {[ "BEADS_FLUSH_DEBOUNCE" := "10s" ]} false in
  Get (fst (Initialize sampleYaml w)) "flush-debounce" = Some (VString "10s").
Proof.
  cbv zeta.
  apply (legacy_variable_used sampleYaml "flush-debounce"
           "BEADS_FLUSH_DEBOUNCE" "10s").
  - apply list_elem_of_In. left. reflexivity.
  - vm_compute. reflexivity.
  - vm_compute. reflexivity.
  - discriminate.
Defined.

(** The duration getter on the legacy variable of the test. *)
Example legacy_duration :
  GetDuration
    (fst (Initialize sampleYaml
            (project "" {[ "BEADS_FLUSH_DEBOUNCE" := "10s" ]} false)))
    "flush-debounce"
  = (10 * Time.Second)%Z.
Proof. vm_compute. reflexivity. Qed.

Lemma unparsable_variable_reads_false_witness :
  let w := project "" {[ "BD_JSON" := "yes" ]} false in
  GetBool (fst (Initialize sampleYaml w)) "json" = false.
Proof.
  cbv zeta. apply (unparsable_variable_reads_false sampleYaml "json" "yes").
  - reflexivity.
  - vm_compute. reflexivity.
  - discriminate.
  - vm_compute. reflexivity.
Defined.

(** A full disk: the write gets five bytes through, and only the temp
    file shows it. *)
Lemma SetIssuePrefix_error_keeps_files_witness :
  let w := diskFull 5 in
  let w' := fst (SetIssuePrefix allPrintable "other" w) in
  Os.ReadFile w' (Filepath.addSuffix sampleConfigPath ".tmp") = Some "issue"
  ∧ (∀ path, head path ≠ Some "config.yaml.tmp" →
             fs w' !! path = fs w !! path)
  ∧ environ w' = environ w
  ∧ (ErrWriteTemp = ErrEmptyPrefix ∨ ErrWriteTemp = ErrGetwd → w' = w)
  ∧ (ErrWriteTemp = ErrWriteTemp → partialWrite w = None → w' = w).
Proof.
  cbv zeta. split; [vm_compute; reflexivity|].
  apply (SetIssuePrefix_error_keeps_files allPrintable "other" (diskFull 5)
           (fst (SetIssuePrefix allPrintable "other" (diskFull 5)))
           ErrWriteTemp).
  vm_compute. reflexivity.
Defined.

Lemma SetIssuePrefix_success_frame_witness :
  let w := project existingConfig ∅ false in
  let w' := fst (SetIssuePrefix allPrintable "other" w) in
  match findBeadsDir w projectDir with
  | None => fs w' = fs w
  | Some beadsDir =>
    ∀ path,
      path ≠ Filepath.Join beadsDir "config.yaml" →
      path ≠ Filepath.addSuffix (Filepath.Join beadsDir "config.yaml") ".tmp" →
      fs w' !! path = fs w !! path
  end
  ∧ environ w' = environ w
  ∧ getwd w' = getwd w.
Proof.
  cbv zeta.
  apply (SetIssuePrefix_success_frame allPrintable "other").
  - reflexivity.
  - vm_compute. reflexivity.
Defined.

(** A directory that is not writable: the rename is refused, then the
    removal, and the temp file stays with the new content. *)
Lemma SetIssuePrefix_temp_file_witness :
  let w := renameRefused true in
  let w' := fst (SetIssuePrefix allPrintable "other" w) in
  let tmpPath := Filepath.addSuffix sampleConfigPath ".tmp" in
  let content' := "issue-prefix: " +:+ quoted "other" in
  (Some ErrUpdateConfig = None → fs w' !! tmpPath = None)
  ∧ (Some ErrUpdateConfig = Some ErrUpdateConfig →
     fs w' !! tmpPath = Some (File content'))
  ∧ (Some ErrUpdateConfig = Some ErrWriteTemp →
     fs w' !! tmpPath = fs w !! tmpPath).
Proof.
  cbv zeta.
  apply (SetIssuePrefix_temp_file allPrintable "other" (renameRefused true)
           (fst (SetIssuePrefix allPrintable "other" (renameRefused true)))
           projectDir sampleBeadsDir (Some ErrUpdateConfig)).
  - reflexivity.
  - vm_compute. reflexivity.
  - vm_compute. reflexivity.
Defined.

(** A stray temp file from an earlier run is gone after a successful
    call. *)
Example stale_temp_file_removed :
  snd (SetIssuePrefix allPrintable "other" staleTemp) = None
  ∧ fs (fst (SetIssuePrefix allPrintable "other" staleTemp))
      !! Filepath.addSuffix sampleConfigPath ".tmp" = None.
Proof. split; vm_compute; reflexivity. Qed.

(** The explicit value wins over [BD_ISSUE_PREFIX]. *)
Lemma SetIssuePrefix_success_in_memory_witness :
  let w := fst (Initialize sampleYaml
                  (project "" {[ "BD_ISSUE_PREFIX" := "envp" ]} false)) in
  let w' := fst (SetIssuePrefix allPrintable "other" w) in
  GetIssuePrefix w = "envp"
  ∧ (is_Some (v w) → GetIssuePrefix w' = "other")
  ∧ (v w = None → v w' = None ∧ GetIssuePrefix w' = "").
Proof.
  cbv zeta. split; [vm_compute; reflexivity|].
  apply (SetIssuePrefix_success_in_memory allPrintable "other").
  vm_compute. reflexivity.
Defined.

Lemma SetIssuePrefix_last_write_wins_witness :
  let w := project existingConfig ∅ false in
  (∀ content,
     updateContent allPrintable "second"
       (updateContent allPrintable "first" content)
     = updateContent allPrintable "second" content)
  ∧ SetIssuePrefix allPrintable "second"
      (fst (SetIssuePrefix allPrintable "first" w))
    = SetIssuePrefix allPrintable "second" w.
Proof.
  cbv zeta. apply (SetIssuePrefix_last_write_wins allPrintable). done.
Defined.

Lemma SetIssuePrefix_decides_one_line_witness :
  let w := project twoDeclarations ∅ false in
  ∃ pre post,
    Forall (λ x, isIssuePrefixLine x = false) pre
    ∧ ∀ prefix w',
        SetIssuePrefix allPrintable prefix w = (w', None) →
        linesOf <$> Os.ReadFile w' (Filepath.Join sampleBeadsDir "config.yaml")
        = Some (pre ++ issuePrefixLine allPrintable prefix :: post)
        ∧ isIssuePrefixLine (issuePrefixLine allPrintable prefix) = true.
Proof.
  cbv zeta.
  apply (SetIssuePrefix_decides_one_line allPrintable
           (project twoDeclarations ∅ false) projectDir sampleBeadsDir).
  - reflexivity.
  - vm_compute. reflexivity.
Defined.

Lemma rootedProject_wellFormed (config : string) :
  wellFormed (fs (rootedProject config)).
Proof.
  intros name dir [x H]. unfold rootedProject, project in H. cbn in H.
  repeat (apply lookup_insert_Some in H as [[[= <- <-] _]|[_ H]];
          [right; reflexivity|]).
  apply lookup_insert_Some in H as [[[= <- <-] _]|[_ H]]; [by left|].
  apply lookup_insert_Some in H as [[[= <- <-] _]|[_ H]]; [right; reflexivity|].
  apply lookup_insert_Some in H as [[[= <- <-] _]|[_ H]]; [right; reflexivity|].
  by rewrite lookup_empty in H.
Qed.

Lemma SetIssuePrefix_keeps_wellFormed_witness :
  let w := rootedProject existingConfig in
  wellFormed (fs w)
  ∧ wellFormed (fs (fst (SetIssuePrefix allPrintable "other" w))).
Proof.
  cbv zeta. split; [apply rootedProject_wellFormed|].
  apply (SetIssuePrefix_keeps_wellFormed allPrintable "other").
  apply rootedProject_wellFormed.
Defined.

Lemma SetIssuePrefix_then_locateConfig_witness :
  let w := rootedProject existingConfig in
  let w' := fst (SetIssuePrefix allPrintable "other" w) in
  locateConfig w' = Some sampleConfigPath
  ∧ Os.ReadFile w' sampleConfigPath
    = Some (updateContent allPrintable "other"
              (default "" (Os.ReadFile w sampleConfigPath))).
Proof.
  cbv zeta.
  apply (SetIssuePrefix_then_locateConfig allPrintable "other"
           (rootedProject existingConfig)
           (fst (SetIssuePrefix allPrintable "other"
                   (rootedProject existingConfig)))
           projectDir sampleBeadsDir).
  - apply rootedProject_wellFormed.
  - reflexivity.
  - vm_compute. reflexivity.
  - vm_compute. reflexivity.
Defined.

Lemma migrate_before_Initialize_repeats_witness :
  let w := project "" ∅ false in
  let db := legacyDB "old-prefix" in
  MigrateConfigToYAML allPrintable sampleExtract db
    (fst (fst (MigrateConfigToYAML allPrintable sampleExtract db w)))
  = MigrateConfigToYAML allPrintable sampleExtract db w.
Proof.
  cbv zeta.
  apply (migrate_before_Initialize_repeats allPrintable sampleExtract).
  reflexivity.
Defined.

(** The upgrade: an empty [config.yaml], [Initialize], then the first open
    of a database whose settings table still holds the prefix. *)
Lemma migrate_settles_witness :
  let w := fst (Initialize sampleYaml (project "" ∅ false)) in
  let db := legacyDB "old-prefix" in
  let w' := fst (fst (MigrateConfigToYAML allPrintable sampleExtract db w)) in
  Os.ReadFile w' sampleConfigPath
  = Some ("issue-prefix: " +:+ quoted "old-prefix")
  ∧ GetIssuePrefix w' = "old-prefix"
  ∧ ∀ db', MigrateConfigToYAML allPrintable sampleExtract db' w'
           = (w', [], None).
Proof.
  cbv zeta. split; [vm_compute; reflexivity|].
  apply (migrate_settles allPrintable sampleExtract (legacyDB "old-prefix")
           (fst (Initialize sampleYaml (project "" ∅ false))) "old-prefix").
  - vm_compute. by eexists.
  - vm_compute. reflexivity.
  - reflexivity.
  - done.
  - vm_compute. reflexivity.
Defined.

Lemma plain_prefix_written_verbatim_witness :
  issuePrefixLine allPrintable "old-prefix"
  = "issue-prefix: " +:+ quoted "old-prefix".
Proof.
  apply (plain_prefix_written_verbatim allPrintable "old-prefix").
  vm_compute. reflexivity.
Defined.

(** Lines the loop takes, and lines it leaves. *)
Example lines_taken_and_left :
  isIssuePrefixLine "    issue-prefix: nested" = true
  ∧ isIssuePrefixLine "issue-prefix:bare # note" = true
  ∧ isIssuePrefixLine "issue-prefix-old: x" = false
  ∧ isIssuePrefixLine "issue_prefix: x" = false
  ∧ isIssuePrefixLine "- issue-prefix: x" = false
  ∧ isIssuePrefixLine "Issue-Prefix: x" = false.
Proof. vm_compute. repeat split. Qed.

(** [time.ParseDuration] on durations with fractions and at the edges of
    the range, as the tests of the Go library expect them. *)
Example ParseDuration_examples :
  Time.ParseDuration "1.5s" = Some (1500 * Time.Millisecond)%Z
  ∧ Time.ParseDuration "1.s" = Some Time.Second
  ∧ Time.ParseDuration ".5s" = Some (500 * Time.Millisecond)%Z
  ∧ Time.ParseDuration "-1.5h" = Some (- (90 * Time.Minute))%Z
  ∧ Time.ParseDuration "1h2m3s4ms5us6ns" = Some 3723004005006%Z
  ∧ Time.ParseDuration "0.3333333333333333333h" = Some (20 * Time.Minute)%Z
  ∧ Time.ParseDuration "0.100000000000000000000h"
    = Some (6 * Time.Minute)%Z
  ∧ Time.ParseDuration "0.9223372036854775807h" = Some 3320413933267%Z
  ∧ Time.ParseDuration "9223372036854775807ns" = Some (2 ^ 63 - 1)%Z
  ∧ Time.ParseDuration "2562047h47m16.854775807s" = Some (2 ^ 63 - 1)%Z
  ∧ Time.ParseDuration "-9223372036854775808ns" = Some (- 2 ^ 63)%Z
  ∧ Time.ParseDuration "9223372036854775808ns" = None
  ∧ Time.ParseDuration "3000000h" = None
  ∧ Time.ParseDuration ".s" = None
  ∧ Time.ParseDuration "1.5" = None
  ∧ Time.ParseDuration "" = None.
Proof. vm_compute. repeat split. Qed.
